(** * The task-list Scavenger of the matching subsystem

    A shallow embedding of the scavenger handlers of package [tasklist]
    ([deleteHandler], [tryDeleteTaskList], [deleteHandlerLog],
    [isTaskExpired], [completeOrphanTasksHandler]) and the properties the
    specification states about them.

    Conventions.
    - Go's [int] and [int64] values are integers in [Z].  The two local
      counters of [deleteHandler] never leave the 64-bit range in a run:
      [nProcessed] is below [maxTasksPerJob] when a batch is fetched and grows
      by the length of a slice; they are kept as plain integers.  The
      statistics counters, which accumulate over the life of the process,
      wrap around as [atomic.AddInt64] does.
    - A [time.Time] is the number of nanoseconds since the Unix epoch; a
      [time.Duration] is a 64-bit count of nanoseconds and [Time.Sub]
      saturates.
    - The handlers run in a state monad over the scavenger: its persistence
      store and clock (the world), its statistics and its log.
    - A Go call that returns a result and an error returns here one or the
      other. *)

From Stdlib Require Import ZArith List String Bool Lia Sorted.
From Equations Require Import Equations.
Import ListNotations.
Open Scope Z_scope.

(** ** Time *)

Module Time.

Definition Time := Z.
Definition Duration := Z.

Definition minDuration : Duration := - 2 ^ 63.
Definition maxDuration : Duration := 2 ^ 63 - 1.

(** [time.Unix(0, 0)] *)
Definition Unix00 : Time := 0.

(** The zero value of [time.Time]: January 1, year 1, 00:00:00 UTC. *)
Definition zero : Time := -62135596800 * 1000000000.

(** [t.After(u)] *)
Definition After (t u : Time) : bool := u <? t.

(** [t.Sub(u)]: the difference, clamped to the range of a Duration. *)
Definition Sub (t u : Time) : Duration :=
  Z.max minDuration (Z.min maxDuration (t - u)).

End Time.

(** ** Data of package [persistence] the handlers touch *)

Record TaskListInfo := mkTaskListInfo {
  DomainID : string;
  Name : string;
  TaskType : Z;
  RangeID : Z;
  LastUpdated : Time.Time
}.

Record TaskInfo := mkTaskInfo {
  TaskID : Z;
  Expiry : Time.Time
}.

Record TaskKey := mkTaskKey {
  KeyDomainID : string;
  KeyTaskListName : string;
  KeyTaskType : Z;
  KeyTaskID : Z
}.

Record GetTasksResponse := mkGetTasksResponse { Tasks : list TaskInfo }.

Record GetOrphanTasksResponse := mkGetOrphanTasksResponse {
  OrphanTasks : list TaskKey
}.

(** Go [error] values: the sentinel of package [ratelimited], compared with
    [==] by the handlers, and everything else. *)
Inductive error :=
| ErrPersistenceLimitExceeded
| ErrOther (msg : string).

Definition isErrPersistenceLimitExceeded (e : error) : bool :=
  match e with
  | ErrPersistenceLimitExceeded => true
  | ErrOther _ => false
  end.

(** [executor.TaskStatus] *)
Inductive handlerStatus :=
| handlerStatusDone
| handlerStatusErr
| handlerStatusDefer.

Definition scannerTaskListPrefix : string := "cadence-sys-tl-scanner".

(** [strings.HasPrefix(s, prefix)] *)
Definition HasPrefix (s pre : string) : bool := String.prefix pre s.

(** ** The scavenger *)

Definition wrap64 (z : Z) : Z := (z + 2 ^ 63) mod 2 ^ 64 - 2 ^ 63.

(** [atomic.AddInt64] *)
Definition AddInt64 (x delta : Z) : Z := wrap64 (x + delta).

Record Stats := mkStats {
  tasklist_nDeleted : Z;
  task_nDeleted : Z;
  task_nProcessed : Z
}.

Inductive Tag :=
| TagError (e : error)
| TagWorkflowDomainID (d : string)
| TagWorkflowTaskListName (n : string)
| TagTaskType (t : Z)
| TagNumberProcessed (n : Z)
| TagNumberDeleted (n : Z).

Inductive LogLevel := LevelInfo | LevelError.

Record LogLine := mkLogLine {
  level : LogLevel;
  message : string;
  tags : list Tag
}.

(** The persistence helpers of the scavenger ([getTasks], [completeTasks],
    [deleteTaskList], [getOrphanTasks], [completeTask]) and the wall clock
    are not part of the handlers: they are an interface the handlers are
    parameterised by, acting on a world [W]. *)
Record Persistence (W : Type) := mkPersistence {
  getTasks : TaskListInfo -> Z -> W -> (GetTasksResponse + error) * W;
  completeTasks : TaskListInfo -> Z -> Z -> W -> (Z + error) * W;
  deleteTaskList : TaskListInfo -> W -> option error * W;
  getOrphanTasks : Z -> W -> (GetOrphanTasksResponse + error) * W;
  completeTask : TaskListInfo -> Z -> W -> option error * W;
  timeNow : W -> Time.Time * W
}.

Arguments getTasks {W}.
Arguments completeTasks {W}.
Arguments deleteTaskList {W}.
Arguments getOrphanTasks {W}.
Arguments completeTask {W}.
Arguments timeNow {W}.

Record Scavenger (W : Type) := mkScavenger {
  db : W;
  stats : Stats;
  logger : list LogLine;
  taskBatchSizeFn : Z;
  maxTasksPerJobFn : Z;
  getOrphanTasksPageSizeFn : Z
}.

Arguments mkScavenger {W}.
Arguments db {W}.
Arguments stats {W}.
Arguments logger {W}.
Arguments taskBatchSizeFn {W}.
Arguments maxTasksPerJobFn {W}.
Arguments getOrphanTasksPageSizeFn {W}.

(** What [isTaskExpired] answers for a task when [time.Now()] reads [now]:
    [t.Expiry.After(time.Unix(0, 0)) && time.Now().After(t.Expiry)]. *)
Definition isTaskExpiredAt (now : Time.Time) (t : TaskInfo) : bool :=
  Time.After (Expiry t) Time.Unix00 && Time.After now (Expiry t).

Definition defaultTask : TaskInfo := mkTaskInfo 0 Time.zero.

(** [&p.TaskListInfo{DomainID: taskKey.DomainID, Name: taskKey.TaskListName,
    TaskType: taskKey.TaskType}] *)
Definition taskListOfKey (taskKey : TaskKey) : TaskListInfo :=
  mkTaskListInfo (KeyDomainID taskKey) (KeyTaskListName taskKey)
    (KeyTaskType taskKey) 0 Time.zero.

(** [resp.Tasks[nTasks-1].TaskID] *)
Definition lastTaskID (tasks : list TaskInfo) : Z :=
  TaskID (nth (Z.to_nat (Z.of_nat (List.length tasks) - 1)) tasks defaultTask).

(** Every task of a batch is expired at the reading of the clock taken for
    it, the readings being [nows] in the order of the batch. *)
Definition allExpired (tasks : list TaskInfo) (nows : list Time.Time) : Prop :=
  Forall2 (fun t now => isTaskExpiredAt now t = true) tasks nows.

(** The task at position [k] of a batch is not expired at the reading of the
    clock taken for it. *)
Definition unexpiredAt (tasks : list TaskInfo) (nows : list Time.Time)
    (k : nat) : Prop :=
  exists t now, nth_error tasks k = Some t /\ nth_error nows k = Some now
                /\ isTaskExpiredAt now t = false.

(** The next [n] readings of the clock from world [w], and the world they
    leave. *)
Fixpoint readings {W} (P : Persistence W) (n : nat) (w : W) : list Time.Time :=
  match n with
  | O => []
  | S k => let (t, w') := timeNow P w in t :: readings P k w'
  end.

Fixpoint afterReadings {W} (P : Persistence W) (n : nat) (w : W) : W :=
  match n with
  | O => w
  | S k => afterReadings P k (snd (timeNow P w))
  end.

(** The number of readings of the clock in the scan of a batch that stops at
    position [j]: one for each task before, and one for the task at [j] when
    its expiry is after the Unix epoch. *)
Definition readingsUpTo (tasks : list TaskInfo) (j : nat) : nat :=
  if Time.After (Expiry (nth j tasks defaultTask)) Time.Unix00 then S j else j.

Section Handlers.

Context {W : Type}.
Variable P : Persistence W.

(** [taskListGracePeriod] is a constant of the package, declared outside the
    file of the handlers. *)
Variable taskListGracePeriod : Time.Duration.

Definition M (A : Type) : Type := Scavenger W -> A * Scavenger W.

Definition ret {A} (a : A) : M A := fun s => (a, s).

Definition bind {A B} (m : M A) (k : A -> M B) : M B :=
  fun s => let (a, s') := m s in k a s'.

Notation "x <- m ;; k" := (bind m (fun x => k))
  (at level 61, m at next level, right associativity).
Notation "m ;;; k" := (bind m (fun _ => k))
  (at level 61, right associativity).

Definition withDb (s : Scavenger W) (w : W) : Scavenger W :=
  mkScavenger w (stats s) (logger s)
    (taskBatchSizeFn s) (maxTasksPerJobFn s) (getOrphanTasksPageSizeFn s).

Definition withStats (s : Scavenger W) (st : Stats) : Scavenger W :=
  mkScavenger (db s) st (logger s)
    (taskBatchSizeFn s) (maxTasksPerJobFn s) (getOrphanTasksPageSizeFn s).

(** Run a persistence call on the scavenger's world. *)
Definition call {A} (op : W -> A * W) : M A :=
  fun s => let (a, w) := op (db s) in (a, withDb s w).

Definition log (lv : LogLevel) (msg : string) (tg : list Tag) : M unit :=
  fun s => (tt, mkScavenger (db s) (stats s) (logger s ++ [mkLogLine lv msg tg])
                  (taskBatchSizeFn s) (maxTasksPerJobFn s)
                  (getOrphanTasksPageSizeFn s)).

Definition addTasklistDeleted (d : Z) : M unit :=
  fun s => (tt, withStats s
    (mkStats (AddInt64 (tasklist_nDeleted (stats s)) d)
             (task_nDeleted (stats s)) (task_nProcessed (stats s)))).

Definition addTaskDeleted (d : Z) : M unit :=
  fun s => (tt, withStats s
    (mkStats (tasklist_nDeleted (stats s))
             (AddInt64 (task_nDeleted (stats s)) d) (task_nProcessed (stats s)))).

Definition addTaskProcessed (d : Z) : M unit :=
  fun s => (tt, withStats s
    (mkStats (tasklist_nDeleted (stats s))
             (task_nDeleted (stats s)) (AddInt64 (task_nProcessed (stats s)) d))).

(** [&&] evaluates its right operand, hence reads the clock, only when the
    left one is true. *)
Definition isTaskExpired (t : TaskInfo) : M bool :=
  if Time.After (Expiry t) Time.Unix00 then
    now <- call (timeNow P) ;;
    ret (Time.After now (Expiry t))
  else ret false.

Definition tryDeleteTaskList (info : TaskListInfo) : M unit :=
  if HasPrefix (Name info) scannerTaskListPrefix then
    ret tt (* avoid deleting our own task list *)
  else
    now <- call (timeNow P) ;;
    let delta := Time.Sub now (LastUpdated info) in
    if delta <? taskListGracePeriod then ret tt
    else
      r <- call (deleteTaskList P info) ;;
      match r with
      | Some err => log LevelError "deleteTaskList error" [TagError err]
      | None =>
          addTasklistDeleted 1 ;;;
          log LevelInfo "tasklist deleted"
            [TagWorkflowDomainID (DomainID info);
             TagWorkflowTaskListName (Name info);
             TagTaskType (TaskType info)]
      end.

Definition deleteHandlerLog (info : TaskListInfo) (nProcessed nDeleted : Z)
    (err : option error) : M unit :=
  addTaskDeleted nDeleted ;;;
  addTaskProcessed nProcessed ;;;
  match err with
  | Some e =>
      log LevelError "scavenger.deleteHandler processed."
        [TagError e; TagWorkflowDomainID (DomainID info);
         TagWorkflowTaskListName (Name info); TagTaskType (TaskType info);
         TagNumberProcessed nProcessed; TagNumberDeleted nDeleted]
  | None =>
      if 0 <? nProcessed then
        log LevelInfo "scavenger.deleteHandler processed."
          [TagWorkflowDomainID (DomainID info);
           TagWorkflowTaskListName (Name info); TagTaskType (TaskType info);
           TagNumberProcessed nProcessed; TagNumberDeleted nDeleted]
      else ret tt
  end.

(** The local variables of [deleteHandler]. *)
Record Locals := mkLocals {
  err : option error;
  nProcessed : Z;
  nDeleted : Z
}.

(** [for _, task := range resp.Tasks { nProcessed++; if !isTaskExpired(task)
    { return Done } }]: [true] when the loop returned from the handler. *)
Fixpoint scanTasks (tasks : list TaskInfo) (l : Locals) : M (bool * Locals) :=
  match tasks with
  | [] => ret (false, l)
  | task :: rest =>
      let l1 := mkLocals (err l) (nProcessed l + 1) (nDeleted l) in
      expired <- isTaskExpired task ;;
      if negb expired then ret (true, l1)
      else scanTasks rest l1
  end.

(** One turn of the [for nProcessed < maxTasksPerJob] loop of
    [deleteHandler]: [Some st] when the turn returns [st] from the handler,
    [None] when the loop goes on. *)
Definition deleteHandlerBody (info : TaskListInfo) (taskBatchSize : Z)
    (l : Locals) : M (option handlerStatus * Locals) :=
  r <- call (getTasks P info taskBatchSize) ;;
  match r with
  | inr err1 =>
      ret (Some handlerStatusErr, mkLocals (Some err1) (nProcessed l) (nDeleted l))
  | inl resp =>
      let nTasks := Z.of_nat (List.length (Tasks resp)) in
      if nTasks =? 0 then
        tryDeleteTaskList info ;;;
        ret (Some handlerStatusDone, l)
      else
        sc <- scanTasks (Tasks resp) l ;;
        let (returned, l1) := sc in
        if returned then ret (Some handlerStatusDone, l1)
        else
          let taskID := TaskID (nth (Z.to_nat (nTasks - 1)) (Tasks resp) defaultTask) in
          c <- call (completeTasks P info taskID nTasks) ;;
          match c with
          | inr e =>
              ret (Some handlerStatusErr, mkLocals (Some e) (nProcessed l1) (nDeleted l1))
          | inl _ =>
              let l2 := mkLocals None (nProcessed l1) (nDeleted l1 + nTasks) in
              if nTasks <? taskBatchSize then
                tryDeleteTaskList info ;;;
                ret (Some handlerStatusDone, l2)
              else ret (None, l2)
          end
  end.

(** What a turn of the loop does, by the answers of the persistence: the
    six ways through [deleteHandlerBody]. *)
Inductive BodyCase (info : TaskListInfo) (taskBatchSize : Z) (l : Locals)
    (s : Scavenger W) : (option handlerStatus * Locals) * Scavenger W -> Prop :=
| turn_fetch_error e w1 :
    getTasks P info taskBatchSize (db s) = (inr e, w1) ->
    BodyCase info taskBatchSize l s
      ((Some handlerStatusErr, mkLocals (Some e) (nProcessed l) (nDeleted l)),
       withDb s w1)
| turn_empty resp w1 :
    getTasks P info taskBatchSize (db s) = (inl resp, w1) ->
    Tasks resp = [] ->
    BodyCase info taskBatchSize l s
      ((Some handlerStatusDone, l), snd (tryDeleteTaskList info (withDb s w1)))
| turn_unexpired resp w1 j :
    getTasks P info taskBatchSize (db s) = (inl resp, w1) ->
    unexpiredAt (Tasks resp) (readings P (List.length (Tasks resp)) w1) j ->
    allExpired (firstn j (Tasks resp))
      (firstn j (readings P (List.length (Tasks resp)) w1)) ->
    BodyCase info taskBatchSize l s
      ((Some handlerStatusDone,
        mkLocals (err l) (nProcessed l + Z.of_nat (S j)) (nDeleted l)),
       withDb s (afterReadings P (readingsUpTo (Tasks resp) j) w1))
| turn_complete_error resp w1 e w3 :
    getTasks P info taskBatchSize (db s) = (inl resp, w1) ->
    Tasks resp <> [] ->
    allExpired (Tasks resp) (readings P (List.length (Tasks resp)) w1) ->
    completeTasks P info (lastTaskID (Tasks resp))
      (Z.of_nat (List.length (Tasks resp)))
      (afterReadings P (List.length (Tasks resp)) w1) = (inr e, w3) ->
    BodyCase info taskBatchSize l s
      ((Some handlerStatusErr,
        mkLocals (Some e) (nProcessed l + Z.of_nat (List.length (Tasks resp)))
          (nDeleted l)),
       withDb s w3)
| turn_short resp w1 n w3 :
    getTasks P info taskBatchSize (db s) = (inl resp, w1) ->
    Tasks resp <> [] ->
    allExpired (Tasks resp) (readings P (List.length (Tasks resp)) w1) ->
    completeTasks P info (lastTaskID (Tasks resp))
      (Z.of_nat (List.length (Tasks resp)))
      (afterReadings P (List.length (Tasks resp)) w1) = (inl n, w3) ->
    Z.of_nat (List.length (Tasks resp)) < taskBatchSize ->
    BodyCase info taskBatchSize l s
      ((Some handlerStatusDone,
        mkLocals None (nProcessed l + Z.of_nat (List.length (Tasks resp)))
          (nDeleted l + Z.of_nat (List.length (Tasks resp)))),
       snd (tryDeleteTaskList info (withDb s w3)))
| turn_full resp w1 n w3 :
    getTasks P info taskBatchSize (db s) = (inl resp, w1) ->
    Tasks resp <> [] ->
    allExpired (Tasks resp) (readings P (List.length (Tasks resp)) w1) ->
    completeTasks P info (lastTaskID (Tasks resp))
      (Z.of_nat (List.length (Tasks resp)))
      (afterReadings P (List.length (Tasks resp)) w1) = (inl n, w3) ->
    taskBatchSize <= Z.of_nat (List.length (Tasks resp)) ->
    BodyCase info taskBatchSize l s
      ((None,
        mkLocals None (nProcessed l + Z.of_nat (List.length (Tasks resp)))
          (nDeleted l + Z.of_nat (List.length (Tasks resp)))),
       withDb s w3).

Definition inspect {A} (a : A) : {b | a = b} := exist _ a eq_refl.

(** The [for nProcessed < maxTasksPerJob] loop, with the status the handler
    returns and the locals and scavenger it returns them in. *)
Equations? deleteLoop (info : TaskListInfo) (taskBatchSize maxTasksPerJob : Z)
    (l : Locals) (s : Scavenger W) : (handlerStatus * Locals) * Scavenger W
    by wf (Z.to_nat (maxTasksPerJob - nProcessed l)) lt :=
  deleteLoop info taskBatchSize maxTasksPerJob l s
    with inspect (nProcessed l <? maxTasksPerJob) := {
    | exist _ false _ => ((handlerStatusDefer, l), s)
    | exist _ true Hlt
        with inspect (deleteHandlerBody info taskBatchSize l s) := {
        | exist _ ((Some st, l'), s') _ => ((st, l'), s')
        | exist _ ((None, l'), s') Hb =>
            deleteLoop info taskBatchSize maxTasksPerJob l' s' } }.
Proof.
  (* a turn that does not return has examined at least one task *)
  apply Z.ltb_lt in Hlt.
  assert (Hscan : forall tasks l0 s0 l1 s1,
    scanTasks tasks l0 s0 = ((false, l1), s1) ->
    nProcessed l1 = nProcessed l0 + Z.of_nat (List.length tasks)).
  { induction tasks as [|t rest IH]; intros l0 s0 l1 s1 H.
    - cbv [scanTasks ret] in H. injection H as <- _. cbn [List.length]. lia.
    - cbn [scanTasks] in H.
      cbv beta iota delta [bind isTaskExpired call ret] in H.
      destruct (Time.After (Expiry t) Time.Unix00); [|discriminate].
      cbv beta iota in H.
      destruct (timeNow P (db s0)) as [now w].
      destruct (Time.After now (Expiry t)); cbn [negb] in H; [|discriminate].
      apply IH in H. cbn [nProcessed] in H. cbn [List.length]. lia. }
  cbv beta iota zeta delta [deleteHandlerBody bind call ret] in Hb.
  destruct (getTasks P info taskBatchSize (db s)) as [[resp|e] w1]; [|discriminate].
  destruct (Z.of_nat (List.length (Tasks resp)) =? 0) eqn:E0.
  { destruct (tryDeleteTaskList info (withDb s w1)); discriminate. }
  destruct (scanTasks (Tasks resp) l (withDb s w1)) as [[returned l1] s2] eqn:Esc.
  destruct returned; [discriminate|].
  apply Hscan in Esc.
  destruct (completeTasks P info _ _ (db s2)) as [[n|e] w3]; [|discriminate].
  destruct (Z.of_nat (List.length (Tasks resp)) <? taskBatchSize).
  { destruct (tryDeleteTaskList info (withDb s2 w3)); discriminate. }
  injection Hb as <- _. cbn [nProcessed]. apply Z.eqb_neq in E0. lia.
Qed.

Definition deleteHandler (info : TaskListInfo) : M handlerStatus :=
  fun s =>
    let taskBatchSize := taskBatchSizeFn s in
    let maxTasksPerJob := maxTasksPerJobFn s in
    let '((st, l), s1) :=
      deleteLoop info taskBatchSize maxTasksPerJob (mkLocals None 0 0) s in
    (* the deferred call *)
    let (_, s2) := deleteHandlerLog info (nProcessed l) (nDeleted l) (err l) s1 in
    (st, s2).

(** The counters [nProcessed] and [nDeleted] when the invocation of
    [deleteHandler info] on [s0] returns: what [deleteHandlerLog] is given. *)
Definition processedBy (info : TaskListInfo) (s0 : Scavenger W) : Z :=
  nProcessed (snd (fst (deleteLoop info (taskBatchSizeFn s0) (maxTasksPerJobFn s0)
                          (mkLocals None 0 0) s0))).

Definition deletedBy (info : TaskListInfo) (s0 : Scavenger W) : Z :=
  nDeleted (snd (fst (deleteLoop info (taskBatchSizeFn s0) (maxTasksPerJobFn s0)
                        (mkLocals None 0 0) s0))).

(** The turns of the loop in a run: [loopReaches x y] when the loop started
    in [x] (locals and scavenger) is, some turns later none of which
    returned, in [y]. *)
Inductive loopReaches (info : TaskListInfo) (taskBatchSize maxTasksPerJob : Z)
    : Locals * Scavenger W -> Locals * Scavenger W -> Prop :=
| reaches_here x : loopReaches info taskBatchSize maxTasksPerJob x x
| reaches_next l s l' s' y :
    nProcessed l < maxTasksPerJob ->
    deleteHandlerBody info taskBatchSize l s = ((None, l'), s') ->
    loopReaches info taskBatchSize maxTasksPerJob (l', s') y ->
    loopReaches info taskBatchSize maxTasksPerJob (l, s) y.

(** From [(l, s)] on, every turn of the loop that fetches a batch gets a full
    one: not empty and not shorter than the page size. *)
Definition allFullFrom (info : TaskListInfo) (taskBatchSize maxTasksPerJob : Z)
    (l : Locals) (s : Scavenger W) : Prop :=
  forall l2 s2 resp w1,
    loopReaches info taskBatchSize maxTasksPerJob (l, s) (l2, s2) ->
    nProcessed l2 < maxTasksPerJob ->
    getTasks P info taskBatchSize (db s2) = (inl resp, w1) ->
    Tasks resp <> [] /\ taskBatchSize <= Z.of_nat (List.length (Tasks resp)).

(** [startsTurn info s0 l s]: the invocation of [deleteHandler info] on the
    scavenger [s0] begins a turn of its loop, hence fetches a batch, with
    locals [l] and scavenger [s]. *)
Definition startsTurn (info : TaskListInfo) (s0 : Scavenger W)
    (l : Locals) (s : Scavenger W) : Prop :=
  loopReaches info (taskBatchSizeFn s0) (maxTasksPerJobFn s0)
    (mkLocals None 0 0, s0) (l, s)
  /\ nProcessed l < maxTasksPerJobFn s0.

(** The scavenger the handler leaves when it returns with locals [l] in
    scavenger [s]: the deferred [deleteHandlerLog] has run. *)
Definition logged (info : TaskListInfo) (l : Locals) (s : Scavenger W)
    : Scavenger W :=
  snd (deleteHandlerLog info (nProcessed l) (nDeleted l) (err l) s).

(** [for _, taskKey := range resp.Tasks] of [completeOrphanTasksHandler]:
    [Some st] when the loop returned [st] from the handler. *)
Fixpoint completeOrphanTasks (keys : list TaskKey) (nDeleted : Z)
    : M (option handlerStatus * Z) :=
  match keys with
  | [] => ret (None, nDeleted)
  | taskKey :: rest =>
      e <- call (completeTask P (taskListOfKey taskKey) (KeyTaskID taskKey)) ;;
      match e with
      | Some err =>
          if isErrPersistenceLimitExceeded err then
            log LevelInfo
              "scavenger.completeOrphanTasksHandler query was ratelimited; will retry" [] ;;;
            ret (Some handlerStatusDefer, nDeleted)
          else
            log LevelError
              "scavenger.completeOrphanTasksHandler error getting orphan tasks" [] ;;;
            ret (Some handlerStatusErr, nDeleted)
      | None =>
          addTaskDeleted 1 ;;;
          addTaskProcessed 1 ;;;
          completeOrphanTasks rest (nDeleted + 1)
      end
  end.

Definition completeOrphanTasksHandler : M handlerStatus :=
  fun s =>
    let batchSize := getOrphanTasksPageSizeFn s in
    (r <- call (getOrphanTasks P batchSize) ;;
     match r with
     | inr err =>
         if isErrPersistenceLimitExceeded err then
           log LevelInfo
             "scavenger.completeOrphanTasksHandler query was ratelimited; will retry" [] ;;;
           ret handlerStatusDefer
         else
           log LevelError
             "scavenger.completeOrphanTasksHandler error getting orphan tasks" [] ;;;
           ret handlerStatusErr
     | inl resp =>
         o <- completeOrphanTasks (OrphanTasks resp) 0 ;;
         match o with
         | (Some st, _) => ret st
         | (None, nDeleted) =>
             log LevelInfo "scavenger.completeOrphanTasksHandler deleted."
               [TagNumberDeleted nDeleted] ;;;
             if Z.of_nat (List.length (OrphanTasks resp)) <? batchSize
             then ret handlerStatusDone
             else ret handlerStatusDefer
         end
     end) s.

End Handlers.

(** ** Recording the persistence calls

    A persistence that behaves as [P] and keeps, next to the world, the list
    of the calls made so far with their results, oldest first. *)

Inductive Call :=
| CallGetTasks (info : TaskListInfo) (batchSize : Z) (r : GetTasksResponse + error)
| CallCompleteTasks (info : TaskListInfo) (taskID limit : Z) (r : Z + error)
| CallDeleteTaskList (info : TaskListInfo) (r : option error)
| CallGetOrphanTasks (limit : Z) (r : GetOrphanTasksResponse + error)
| CallCompleteTask (info : TaskListInfo) (taskID : Z) (r : option error)
| CallNow (t : Time.Time).

Definition record {W A} (op : W -> A * W) (c : A -> Call)
    : W * list Call -> A * (W * list Call) :=
  fun x => let (a, w) := op (fst x) in (a, (w, snd x ++ [c a])).

Definition recording {W} (P : Persistence W) : Persistence (W * list Call) :=
  mkPersistence (W * list Call)
    (fun info n => record (getTasks P info n) (CallGetTasks info n))
    (fun info id n => record (completeTasks P info id n) (CallCompleteTasks info id n))
    (fun info => record (deleteTaskList P info) (CallDeleteTaskList info))
    (fun n => record (getOrphanTasks P n) (CallGetOrphanTasks n))
    (fun info id => record (completeTask P info id) (CallCompleteTask info id))
    (record (timeNow P) CallNow).

(** The calls recorded in a scavenger's world. *)
Definition calls {W} (s : Scavenger (W * list Call)) : list Call := snd (db s).

(** A task without expiry: its expiry is the Unix epoch, or the zero value of
    [time.Time]. *)
Definition zeroExpiry (t : TaskInfo) : Prop :=
  Expiry t = Time.Unix00 \/ Expiry t = Time.zero.

(** The error a recorded call came back with. *)
Definition callError (c : Call) : option error :=
  match c with
  | CallGetTasks _ _ (inr e) => Some e
  | CallCompleteTasks _ _ _ (inr e) => Some e
  | CallDeleteTaskList _ (Some e) => Some e
  | CallGetOrphanTasks _ (inr e) => Some e
  | CallCompleteTask _ _ (Some e) => Some e
  | _ => None
  end.

(** The calls of the orphan handler: the query and the deletion of a row. *)
Definition isOrphanCall (c : Call) : bool :=
  match c with
  | CallGetOrphanTasks _ _ | CallCompleteTask _ _ _ => true
  | _ => false
  end.

(** Calls that delete rows or a queue. *)
Definition isDeletion (c : Call) : bool :=
  match c with
  | CallCompleteTasks _ _ _ _ | CallDeleteTaskList _ _ | CallCompleteTask _ _ _ => true
  | _ => false
  end.

(** *** The shape of the calls of a run of [deleteHandler] *)

Section Shapes.

Variable taskListGracePeriod : Time.Duration.
Variable info : TaskListInfo.
Variable taskBatchSize : Z.

(** The calls of [tryDeleteTaskList]: none for the scavenger's own queue, a
    reading of the clock, and the deletion of the queue when it has been
    idle for the grace period. *)
Inductive TryDeleteCalls : list Call -> Prop :=
| try_own_queue :
    HasPrefix (Name info) scannerTaskListPrefix = true ->
    TryDeleteCalls []
| try_recent now :
    HasPrefix (Name info) scannerTaskListPrefix = false ->
    Time.Sub now (LastUpdated info) < taskListGracePeriod ->
    TryDeleteCalls [CallNow now]
| try_delete now r :
    HasPrefix (Name info) scannerTaskListPrefix = false ->
    taskListGracePeriod <= Time.Sub now (LastUpdated info) ->
    TryDeleteCalls [CallNow now; CallDeleteTaskList info r].

(** The calls of one turn of the loop, with what the turn returns. *)
Inductive TurnCalls : option handlerStatus -> list Call -> Prop :=
| calls_fetch_error e :
    TurnCalls (Some handlerStatusErr) [CallGetTasks info taskBatchSize (inr e)]
| calls_empty resp td :
    Tasks resp = [] -> TryDeleteCalls td ->
    TurnCalls (Some handlerStatusDone)
      (CallGetTasks info taskBatchSize (inl resp) :: td)
| calls_unexpired resp nows :
    TurnCalls (Some handlerStatusDone)
      (CallGetTasks info taskBatchSize (inl resp) :: map CallNow nows)
| calls_complete_error resp nows e :
    TurnCalls (Some handlerStatusErr)
      (CallGetTasks info taskBatchSize (inl resp) :: map CallNow nows
         ++ [CallCompleteTasks info (lastTaskID (Tasks resp))
               (Z.of_nat (List.length (Tasks resp))) (inr e)])
| calls_short resp nows n td :
    Tasks resp <> [] -> allExpired (Tasks resp) nows ->
    Z.of_nat (List.length (Tasks resp)) < taskBatchSize ->
    TryDeleteCalls td ->
    TurnCalls (Some handlerStatusDone)
      (CallGetTasks info taskBatchSize (inl resp) :: map CallNow nows
         ++ CallCompleteTasks info (lastTaskID (Tasks resp))
              (Z.of_nat (List.length (Tasks resp))) (inl n) :: td)
| calls_full resp nows n :
    Tasks resp <> [] -> allExpired (Tasks resp) nows ->
    taskBatchSize <= Z.of_nat (List.length (Tasks resp)) ->
    TurnCalls None
      (CallGetTasks info taskBatchSize (inl resp) :: map CallNow nows
         ++ [CallCompleteTasks info (lastTaskID (Tasks resp))
               (Z.of_nat (List.length (Tasks resp))) (inl n)]).

(** The calls of a run: turns that go on, then the turn that returns, or
    the end of the budget. *)
Inductive RunCalls : handlerStatus -> list Call -> Prop :=
| run_budget : RunCalls handlerStatusDefer []
| run_return st tr : TurnCalls (Some st) tr -> RunCalls st tr
| run_next tr1 st tr2 :
    TurnCalls None tr1 -> RunCalls st tr2 -> RunCalls st (tr1 ++ tr2).

(** The calls so far end with the handler seeing the queue drained: an
    empty page, or a page shorter than the page size, entirely expired,
    that has just been deleted. *)
Definition observedDrained (tr : list Call) : Prop :=
  (exists p resp,
      tr = p ++ [CallGetTasks info taskBatchSize (inl resp)]
      /\ Tasks resp = [])
  \/ (exists p resp nows n,
        tr = p ++ CallGetTasks info taskBatchSize (inl resp) :: map CallNow nows
               ++ [CallCompleteTasks info (lastTaskID (Tasks resp))
                     (Z.of_nat (List.length (Tasks resp))) (inl n)]
        /\ Tasks resp <> [] /\ allExpired (Tasks resp) nows
        /\ Z.of_nat (List.length (Tasks resp)) < taskBatchSize).

(** Every deletion of a queue in a list of calls is for [info] and ends the
    list; the queue is not the scavenger's own; the call before it reads
    the clock, the grace period after [LastUpdated] or later; and before
    that the handler saw the queue drained. *)
Definition queueDeletionGuarded (tr : list Call) : Prop :=
  forall pre i r post,
    tr = pre ++ CallDeleteTaskList i r :: post ->
    i = info /\ post = []
    /\ HasPrefix (Name info) scannerTaskListPrefix = false
    /\ exists pre' now,
         pre = pre' ++ [CallNow now]
         /\ taskListGracePeriod <= Time.Sub now (LastUpdated info)
         /\ observedDrained pre'.

End Shapes.

(** The status [completeOrphanTasksHandler] maps an error to. *)
Definition orphanStatusOf (e : error) : handlerStatus :=
  if isErrPersistenceLimitExceeded e then handlerStatusDefer else handlerStatusErr.

(** The scavenger without the record of its calls, and what it is for a
    computation on the recording persistence to do as a computation on the
    persistence itself does. *)
Definition strip {W} (s : Scavenger (W * list Call)) : Scavenger W :=
  mkScavenger (fst (db s)) (stats s) (logger s)
    (taskBatchSizeFn s) (maxTasksPerJobFn s) (getOrphanTasksPageSizeFn s).

Definition simulates {W A} (mR : M (W:=W * list Call) A) (mP : M (W:=W) A) : Prop :=
  forall s, mP (strip s) = (fst (mR s), strip (snd (mR s))).

(** ** An in-memory persistence *)

Module MemStore.

(** Modelled from the spec: the store behind the persistence contract of
    section 6 (get-tasks ordered by taskID, complete-tasks up to a taskID
    with a count, delete-queue conditional on the expected rangeID,
    get-orphan-tasks), whose implementation is outside the handlers' file.
    It holds the rows of one queue and the orphan rows; [faults] scripts
    the outcome of the coming persistence calls ([Some e]: the call fails
    with [e] and changes nothing), and each reading of the clock advances
    it by [step]. *)
Record Store := mkStore {
  queue : TaskListInfo;
  present : bool;
  rows : list TaskInfo;
  orphanRows : list TaskKey;
  clock : Time.Time;
  step : Time.Duration;
  faults : list (option error)
}.

Definition sameQueue (info : TaskListInfo) (st : Store) : bool :=
  String.eqb (DomainID info) (DomainID (queue st))
  && String.eqb (Name info) (Name (queue st))
  && (TaskType info =? TaskType (queue st)).

Definition nextFault (st : Store) : option error * Store :=
  match faults st with
  | [] => (None, st)
  | f :: fs =>
      (f, mkStore (queue st) (present st) (rows st) (orphanRows st)
            (clock st) (step st) fs)
  end.

Definition withRows (st : Store) (r : list TaskInfo) : Store :=
  mkStore (queue st) (present st) r (orphanRows st) (clock st) (step st) (faults st).

Definition withOrphanRows (st : Store) (o : list TaskKey) : Store :=
  mkStore (queue st) (present st) (rows st) o (clock st) (step st) (faults st).

Definition getTasks (info : TaskListInfo) (batchSize : Z) (st : Store)
    : (GetTasksResponse + error) * Store :=
  let (f, st1) := nextFault st in
  match f with
  | Some e => (inr e, st1)
  | None =>
      (inl (mkGetTasksResponse
              (if sameQueue info st1 then firstn (Z.to_nat batchSize) (rows st1)
               else [])), st1)
  end.

(** Drop the first [limit] rows whose taskID is at most [taskID]. *)
Fixpoint dropUpTo (taskID : Z) (limit : nat) (r : list TaskInfo) : list TaskInfo :=
  match r with
  | [] => []
  | t :: rest =>
      match limit with
      | O => r
      | S k =>
          if TaskID t <=? taskID then dropUpTo taskID k rest
          else t :: dropUpTo taskID limit rest
      end
  end.

Definition completeTasks (info : TaskListInfo) (taskID limit : Z) (st : Store)
    : (Z + error) * Store :=
  let (f, st1) := nextFault st in
  match f with
  | Some e => (inr e, st1)
  | None =>
      if sameQueue info st1 then
        let r := dropUpTo taskID (Z.to_nat limit) (rows st1) in
        (inl (Z.of_nat (List.length (rows st1)) - Z.of_nat (List.length r)),
         withRows st1 r)
      else (inl 0, st1)
  end.

Definition deleteTaskList (info : TaskListInfo) (st : Store)
    : option error * Store :=
  let (f, st1) := nextFault st in
  match f with
  | Some e => (Some e, st1)
  | None =>
      if sameQueue info st1 && present st1 && (RangeID info =? RangeID (queue st1))
      then (None, mkStore (queue st1) false (rows st1) (orphanRows st1)
                    (clock st1) (step st1) (faults st1))
      else (Some (ErrOther "task list range ID does not match"), st1)
  end.

Definition getOrphanTasks (limit : Z) (st : Store)
    : (GetOrphanTasksResponse + error) * Store :=
  let (f, st1) := nextFault st in
  match f with
  | Some e => (inr e, st1)
  | None =>
      (inl (mkGetOrphanTasksResponse (firstn (Z.to_nat limit) (orphanRows st1))), st1)
  end.

Definition isKey (info : TaskListInfo) (taskID : Z) (k : TaskKey) : bool :=
  String.eqb (KeyDomainID k) (DomainID info)
  && String.eqb (KeyTaskListName k) (Name info)
  && (KeyTaskType k =? TaskType info)
  && (KeyTaskID k =? taskID).

Definition completeTask (info : TaskListInfo) (taskID : Z) (st : Store)
    : option error * Store :=
  let (f, st1) := nextFault st in
  match f with
  | Some e => (Some e, st1)
  | None =>
      if sameQueue info st1 then
        (None, withRows st1 (filter (fun t => negb (TaskID t =? taskID)) (rows st1)))
      else
        (None, withOrphanRows st1
                 (filter (fun k => negb (isKey info taskID k)) (orphanRows st1)))
  end.

Definition timeNow (st : Store) : Time.Time * Store :=
  (clock st,
   mkStore (queue st) (present st) (rows st) (orphanRows st)
     (clock st + step st) (step st) (faults st)).

Definition persistence : Persistence Store :=
  mkPersistence Store getTasks completeTasks deleteTaskList
    getOrphanTasks completeTask timeNow.

(** [n] rows with taskIDs [first], [first + 1], ... that all expire at
    [expiry]. *)
Fixpoint rowsFrom (first : Z) (n : nat) (expiry : Time.Time) : list TaskInfo :=
  match n with
  | O => []
  | S k => mkTaskInfo first expiry :: rowsFrom (first + 1) k expiry
  end.

End MemStore.

(** ** Concrete queues for the examples *)

Module Scenario.

Import MemStore.

Definition hour : Time.Duration := 3600 * 1000000000.

Definition grace : Time.Duration := 48 * hour.

(** A queue last updated at hour 100. *)
Definition tq : TaskListInfo := mkTaskListInfo "domain" "orders" 0 7 (100 * hour).

(** The scavenger's own queue. *)
Definition own : TaskListInfo :=
  mkTaskListInfo "domain" "cadence-sys-tl-scanner-3" 0 7 (100 * hour).

Definition expiredRow (id : Z) : TaskInfo := mkTaskInfo id (150 * hour).
Definition freshRow (id : Z) : TaskInfo := mkTaskInfo id (300 * hour).
Definition foreverRow (id : Z) : TaskInfo := mkTaskInfo id 0.

(** A store for queue [tq], the clock at hour 200 and ticking by one
    nanosecond a reading. *)
Definition store (r : list TaskInfo) (o : list TaskKey)
    (f : list (option error)) : Store :=
  mkStore tq true r o (200 * hour) 1 f.

(** A scavenger on a store: its page size, budget and orphan page size. *)
Definition on {V} (w : V) (batch budget page : Z) : Scavenger V :=
  mkScavenger w (mkStats 0 0 0) [] batch budget page.

Definition P := persistence.
Definition R := recording persistence.

Definition start : Locals := mkLocals None 0 0.

Definition orphan (id : Z) : TaskKey := mkTaskKey "domain" "gone" 0 id.

(** The queue [tq] updated at hour 190, ten hours before the clock. *)
Definition recent : TaskListInfo := mkTaskListInfo "domain" "orders" 0 7 (190 * hour).

(** An empty queue and a queue of three expired tasks, pages of 100. *)
Definition emptyQueue : Scavenger Store := on (store [] [] []) 100 100 10.
Definition shortQueue : Scavenger Store :=
  on (store [expiredRow 1; expiredRow 2; expiredRow 3] [] []) 100 100 10.

(** The same queues with the calls recorded. *)
Definition emptyQueueR : Scavenger (Store * list Call) :=
  on (store [] [] [], []) 100 100 10.

(** A queue whose third task is not expired yet, pages of 10. *)
Definition mixedRows : list TaskInfo :=
  [expiredRow 1; expiredRow 2; freshRow 3; expiredRow 4].
Definition mixedQueue : Scavenger (Store * list Call) :=
  on (store mixedRows [] [], []) 10 100 10.
Definition mixedFetched : Store * list Call :=
  (store mixedRows [] [],
   [CallGetTasks tq 10 (inl (mkGetTasksResponse mixedRows))]).

(** A queue whose second task has no expiry. *)
Definition foreverRows : list TaskInfo :=
  [expiredRow 1; foreverRow 2; expiredRow 3].
Definition foreverQueue : Scavenger (Store * list Call) :=
  on (store foreverRows [] [], []) 10 100 10.
Definition foreverFetched : Store * list Call :=
  (store foreverRows [] [],
   [CallGetTasks tq 10 (inl (mkGetTasksResponse foreverRows))]).

(** A queue whose first fetch is rate limited, and one whose first deletion
    times out. *)
Definition limitedQueue : Scavenger Store :=
  on (store [expiredRow 1] [] [Some ErrPersistenceLimitExceeded]) 100 100 10.
Definition failingRows : list TaskInfo := [expiredRow 1; expiredRow 2].
Definition failingQueue : Scavenger Store :=
  on (store failingRows [] [None; Some (ErrOther "timeout")]) 100 100 10.

(** Three orphan rows; the deletion of the second is rate limited, or
    fails. *)
Definition orphans : list TaskKey := [orphan 1; orphan 2; orphan 3].
Definition orphansLimited : Scavenger (Store * list Call) :=
  on (store [] orphans [None; None; Some ErrPersistenceLimitExceeded], [])
    100 100 10.
Definition orphansFailing : Scavenger (Store * list Call) :=
  on (store [] orphans [None; None; Some (ErrOther "timeout")], []) 100 100 10.
Definition orphansPage10 : Scavenger (Store * list Call) :=
  on (store [] orphans [], []) 100 100 10.
Definition orphansPage2 : Scavenger (Store * list Call) :=
  on (store [] orphans [], []) 100 100 2.

(** The calls of a run of the orphan handler that deletes the page [keys]. *)
Definition orphanCalls (page : Z) (keys : list TaskKey) : list Call :=
  CallGetOrphanTasks page (inl (mkGetOrphanTasksResponse keys))
  :: map (fun k => CallCompleteTask (taskListOfKey k) (KeyTaskID k) None) keys.

(** Four expired tasks, pages of 2 and a budget of 3; three expired tasks,
    pages of 2 and a budget of 2; no budget and no page. *)
Definition tightQueue : Scavenger Store :=
  on (store (rowsFrom 1 4 (150 * hour)) [] []) 2 3 10.
Definition smallQueue : Scavenger Store :=
  on (store (rowsFrom 1 3 (150 * hour)) [] []) 2 2 10.
Definition zeroQueue : Scavenger Store :=
  on (store (rowsFrom 1 3 (150 * hour)) [] []) 0 0 10.

(** Scenario E: 150 expired tasks, a budget of 100 and pages of 100. *)
Definition store150 : Store := store (rowsFrom 1 150 (150 * hour)) [] [].
Definition run1 := deleteHandler R grace tq (on (store150, []) 100 100 10).
Definition run2 := deleteHandler R grace tq (snd run1).

End Scenario.

(** ** Further notions about the calls of a run *)

(** The deletion of a queue, and the fetch of a batch. *)
Definition isQueueDeletion (c : Call) : bool :=
  match c with
  | CallDeleteTaskList _ _ => true
  | _ => false
  end.

Definition isFetch (c : Call) : bool :=
  match c with
  | CallGetTasks _ _ _ => true
  | _ => false
  end.

(** A queue was deleted: a call of [deleteTaskList] returned no error. *)
Definition queueDeleted (tr : list Call) : bool :=
  existsb (fun c => match c with
                    | CallDeleteTaskList _ None => true
                    | _ => false
                    end) tr.

(** Every deletion of a batch in a list of calls comes right after the fetch
    of that batch and the readings of the clock at which each of its tasks is
    expired, and asks for the rows up to the last taskID of the batch, as
    many as the batch holds. *)
Definition deletionJustified (info : TaskListInfo) (taskBatchSize : Z)
    (tr : list Call) : Prop :=
  forall pre i id lim r post,
    tr = pre ++ CallCompleteTasks i id lim r :: post ->
    exists p resp nows,
      pre = p ++ CallGetTasks info taskBatchSize (inl resp) :: map CallNow nows
      /\ Tasks resp <> [] /\ allExpired (Tasks resp) nows
      /\ i = info /\ id = lastTaskID (Tasks resp)
      /\ lim = Z.of_nat (List.length (Tasks resp)).

(** The values of a 64-bit counter. *)
Definition inInt64 (z : Z) : Prop := - 2 ^ 63 <= z < 2 ^ 63.

(** The deletion of a batch. *)
Definition isBatchDeletion (c : Call) : bool :=
  match c with
  | CallCompleteTasks _ _ _ _ => true
  | _ => false
  end.

(** The lines [tryDeleteTaskList] logs. *)
Definition isTryDeleteLine (ln : LogLine) : Prop :=
  (level ln = LevelError /\ message ln = "deleteTaskList error"%string)
  \/ (level ln = LevelInfo /\ message ln = "tasklist deleted"%string).

(** The call of [completeTask] for an orphan row, with its result. *)
Definition orphanCall (k : TaskKey) (r : option error) : Call :=
  CallCompleteTask (taskListOfKey k) (KeyTaskID k) r.

(** An orphan row was deleted: a call of [completeTask] returned no error. *)
Definition isOrphanDeleted (c : Call) : bool :=
  match c with
  | CallCompleteTask _ _ None => true
  | _ => false
  end.

Definition orphansDeleted (tr : list Call) : Z :=
  Z.of_nat (List.length (filter isOrphanDeleted tr)).

(** The line [completeOrphanTasksHandler] logs when a call failed with [e]. *)
Definition orphanFailureLine (e : error) : LogLine :=
  if isErrPersistenceLimitExceeded e then
    mkLogLine LevelInfo
      "scavenger.completeOrphanTasksHandler query was ratelimited; will retry" []
  else
    mkLogLine LevelError
      "scavenger.completeOrphanTasksHandler error getting orphan tasks" [].

(** The sizes of the batches whose deletion succeeded, added up: the limits
    of the calls of [completeTasks] that returned no error. *)
Fixpoint batchRows (tr : list Call) : Z :=
  match tr with
  | [] => 0
  | CallCompleteTasks _ _ limit (inl _) :: rest => limit + batchRows rest
  | _ :: rest => batchRows rest
  end.

(** What [tryDeleteTaskList] asks of the persistence in world [w], as calls:
    nothing for the scavenger's own queue; otherwise one reading of the
    clock and, unless less than the grace period has passed since
    [LastUpdated], the deletion of the queue. *)
Definition idleDeletionAttempt {W} (P : Persistence W)
    (taskListGracePeriod : Time.Duration) (info : TaskListInfo) (w : W)
    (td : list Call) : Prop :=
  (HasPrefix (Name info) scannerTaskListPrefix = true -> td = [])
  /\ (HasPrefix (Name info) scannerTaskListPrefix = false ->
      (Time.Sub (fst (timeNow P w)) (LastUpdated info) < taskListGracePeriod ->
       td = [CallNow (fst (timeNow P w))])
      /\ (taskListGracePeriod <= Time.Sub (fst (timeNow P w)) (LastUpdated info) ->
          td = [CallNow (fst (timeNow P w));
                CallDeleteTaskList info
                  (fst (deleteTaskList P info (snd (timeNow P w))))])).

(** The rows of a store are in the order of their taskIDs, as the contract
    of section 6 has the tasks of a queue. *)
Definition ordered (r : list TaskInfo) : Prop :=
  StronglySorted (fun a b => TaskID a <= TaskID b) r.

(** ** Concrete runs with their calls *)

Module Runs.

Import MemStore Scenario.

(** Two expired tasks whose deletion times out, with the calls recorded. *)
Definition failingQueueR : Scavenger (Store * list Call) :=
  on (store failingRows [] [None; Some (ErrOther "timeout")], []) 100 100 10.

Definition failingCalls : list Call :=
  [CallGetTasks tq 100 (inl (mkGetTasksResponse failingRows));
   CallNow (200 * hour); CallNow (200 * hour + 1);
   CallCompleteTasks tq 2 2 (inr (ErrOther "timeout"))].

(** Three expired tasks in a queue idle for a hundred hours. *)
Definition shortRows : list TaskInfo := [expiredRow 1; expiredRow 2; expiredRow 3].

Definition shortQueueR : Scavenger (Store * list Call) :=
  on (store shortRows [] [], []) 100 100 10.

Definition shortCalls : list Call :=
  [CallGetTasks tq 100 (inl (mkGetTasksResponse shortRows));
   CallNow (200 * hour); CallNow (200 * hour + 1); CallNow (200 * hour + 2);
   CallCompleteTasks tq 3 3 (inl 3);
   CallNow (200 * hour + 3); CallDeleteTaskList tq None].

(** The calls of the orphan handler on [orphansFailing]. *)
Definition orphanFailingCalls : list Call :=
  [CallGetOrphanTasks 10 (inl (mkGetOrphanTasksResponse orphans));
   orphanCall (orphan 1) None;
   orphanCall (orphan 2) (Some (ErrOther "timeout"))].

(** The calls of [tryDeleteTaskList] on the idle queue. *)
Definition idleCalls : list Call :=
  [CallNow (200 * hour); CallDeleteTaskList tq None].

(** The calls of [deleteHandler] on the empty queue. *)
Definition emptyCalls : list Call :=
  [CallGetTasks tq 100 (inl (mkGetTasksResponse []));
   CallNow (200 * hour); CallDeleteTaskList tq None].

(** A task not expired yet and an expired one, in a queue idle for a hundred
    hours, with a page size of zero. *)
Definition zeroPageRows : list TaskInfo := [freshRow 1; expiredRow 2].

Definition zeroPageQueueR : Scavenger (Store * list Call) :=
  on (store zeroPageRows [] [], []) 0 100 10.

Definition zeroPageCalls : list Call :=
  [CallGetTasks tq 0 (inl (mkGetTasksResponse []));
   CallNow (200 * hour); CallDeleteTaskList tq None].

(** Two expired tasks whose deletion is rate limited, and orphan rows whose
    query is rate limited. *)
Definition limitedDeletion : Scavenger Store :=
  on (store failingRows [] [None; Some ErrPersistenceLimitExceeded]) 100 100 10.

Definition limitedOrphanQuery : Scavenger Store :=
  on (store [] orphans [Some ErrPersistenceLimitExceeded]) 100 100 10.

End Runs.

(** * Properties *)

Ltac mred :=
  cbv beta iota zeta delta [bind ret call isTaskExpired].
Ltac mred_in H :=
  cbv beta iota zeta delta [bind ret call isTaskExpired] in H.

Section Facts.

Context {W : Type}.
Variable P : Persistence W.
Variable taskListGracePeriod : Time.Duration.

Local Abbreviation body := (deleteHandlerBody P taskListGracePeriod).
Local Abbreviation loop := (deleteLoop P taskListGracePeriod).
Local Abbreviation tryDelete := (tryDeleteTaskList P taskListGracePeriod).

Lemma deleteLoop_eq info b m l s :
  loop info b m l s =
  if nProcessed l <? m then
    match body info b l s with
    | ((Some st, l'), s') => ((st, l'), s')
    | ((None, l'), s') => loop info b m l' s'
    end
  else ((handlerStatusDefer, l), s).
Proof.
  funelim (deleteLoop P taskListGracePeriod info b m l s);
    repeat match goal with
           | E : (_ <? _) = _ |- _ => rewrite E
           | E : deleteHandlerBody _ _ _ _ _ _ = _ |- _ => rewrite E
           end; reflexivity.
Qed.

Lemma withDb_db (s : Scavenger W) : withDb s (db s) = s.
Proof. destruct s; reflexivity. Qed.

Lemma locals_add_0 (l : Locals) :
  mkLocals (err l) (nProcessed l + 0) (nDeleted l) = l.
Proof. destruct l; cbn. rewrite Z.add_0_r. reflexivity. Qed.

(** *** The scan of a batch *)

Lemma scanTasks_cases tasks : forall l s,
  (allExpired tasks (readings P (List.length tasks) (db s))
   /\ scanTasks P tasks l s =
      ((false, mkLocals (err l) (nProcessed l + Z.of_nat (List.length tasks))
                 (nDeleted l)),
       withDb s (afterReadings P (List.length tasks) (db s))))
  \/ (exists j,
        unexpiredAt tasks (readings P (List.length tasks) (db s)) j
        /\ allExpired (firstn j tasks)
             (firstn j (readings P (List.length tasks) (db s)))
        /\ scanTasks P tasks l s =
           ((true, mkLocals (err l) (nProcessed l + Z.of_nat (S j)) (nDeleted l)),
            withDb s (afterReadings P (readingsUpTo tasks j) (db s)))).
Proof.
  assert (E : forall x (n : nat), x + 1 + Z.of_nat n = x + Z.of_nat (S n))
    by (intros; lia).
  induction tasks as [|t rest IH]; intros l s.
  - left. split; [constructor|].
    cbn. unfold ret. rewrite locals_add_0, withDb_db. reflexivity.
  - cbn [scanTasks List.length readings]. mred.
    destruct (Time.After (Expiry t) Time.Unix00) eqn:Epos.
    + destruct (timeNow P (db s)) as [now w] eqn:Enow.
      destruct (Time.After now (Expiry t)) eqn:Eexp; cbn [negb].
      * assert (Ht : isTaskExpiredAt now t = true)
          by (unfold isTaskExpiredAt; rewrite Epos, Eexp; reflexivity).
        specialize (IH (mkLocals (err l) (nProcessed l + 1) (nDeleted l)) (withDb s w)).
        cbn [db withDb err nProcessed nDeleted] in IH.
        destruct IH as [[Hall Hscan] | (j & (t' & now' & Ht' & Hn & He) & Hpre & Hscan)].
        -- left. split; [constructor; assumption|].
           rewrite Hscan, E. cbn [afterReadings]. rewrite Enow. reflexivity.
        -- right. exists (S j). split; [|split].
           ++ exists t', now'. cbn. auto.
           ++ cbn. constructor; assumption.
           ++ rewrite Hscan, E. unfold readingsUpTo. cbn [nth].
              destruct (Time.After (Expiry (nth j rest defaultTask)) Time.Unix00);
                cbn [afterReadings]; rewrite Enow; reflexivity.
      * right. exists O. split; [|split].
        -- exists t, now. cbn. unfold isTaskExpiredAt.
           rewrite Epos, Eexp. auto.
        -- constructor.
        -- unfold readingsUpTo. cbn [nth]. rewrite Epos.
           cbn [afterReadings]. rewrite Enow. reflexivity.
    + right. exists O. split; [|split].
      * destruct (timeNow P (db s)) as [now w].
        exists t, now. cbn. unfold isTaskExpiredAt. rewrite Epos. auto.
      * constructor.
      * unfold readingsUpTo. cbn [nth negb afterReadings]. rewrite Epos.
        rewrite withDb_db. reflexivity.
Qed.

Lemma allExpired_nth tasks nows k t now :
  allExpired tasks nows ->
  nth_error tasks k = Some t -> nth_error nows k = Some now ->
  isTaskExpiredAt now t = true.
Proof.
  intros H; revert k. induction H as [|t0 n0 ts ns H0 _ IH]; intros [|k] Ht Hn;
    cbn in Ht, Hn; try discriminate.
  - injection Ht as <-. injection Hn as <-. exact H0.
  - eauto.
Qed.

Lemma scanTasks_expired tasks l s :
  allExpired tasks (readings P (List.length tasks) (db s)) ->
  scanTasks P tasks l s =
    ((false, mkLocals (err l) (nProcessed l + Z.of_nat (List.length tasks))
               (nDeleted l)),
     withDb s (afterReadings P (List.length tasks) (db s))).
Proof.
  intros Hall.
  destruct (scanTasks_cases tasks l s)
    as [[_ Hscan] | (j & (t & now & Ht & Hn & He) & _ & _)]; [exact Hscan|].
  rewrite (allExpired_nth _ _ _ _ _ Hall Ht Hn) in He. discriminate.
Qed.

Lemma scanTasks_unexpired tasks l s k :
  unexpiredAt tasks (readings P (List.length tasks) (db s)) k ->
  exists j, (j <= k)%nat
    /\ unexpiredAt tasks (readings P (List.length tasks) (db s)) j
    /\ allExpired (firstn j tasks)
         (firstn j (readings P (List.length tasks) (db s)))
    /\ scanTasks P tasks l s =
       ((true, mkLocals (err l) (nProcessed l + Z.of_nat (S j)) (nDeleted l)),
        withDb s (afterReadings P (readingsUpTo tasks j) (db s))).
Proof.
  intros (t & now & Ht & Hn & He).
  destruct (scanTasks_cases tasks l s)
    as [[Hall _] | (j & Hj & Hpre & Hscan)].
  - rewrite (allExpired_nth _ _ _ _ _ Hall Ht Hn) in He. discriminate.
  - exists j. split; [|repeat split; assumption].
    destruct (Nat.le_gt_cases j k) as [Hle|Hgt]; [exact Hle|exfalso].
    assert (Ht' : nth_error (firstn j tasks) k = Some t)
      by (rewrite nth_error_firstn; apply Nat.ltb_lt in Hgt; rewrite Hgt; exact Ht).
    assert (Hn' : nth_error (firstn j (readings P (List.length tasks) (db s))) k
                  = Some now)
      by (rewrite nth_error_firstn; apply Nat.ltb_lt in Hgt; rewrite Hgt; exact Hn).
    rewrite (allExpired_nth _ _ _ _ _ Hpre Ht' Hn') in He. discriminate.
Qed.

(** *** One turn of the loop, case by case *)

Ltac open_body Hget :=
  unfold deleteHandlerBody; mred; rewrite Hget.

Lemma body_fetch_error info b l s e w1 :
  getTasks P info b (db s) = (inr e, w1) ->
  body info b l s =
    ((Some handlerStatusErr, mkLocals (Some e) (nProcessed l) (nDeleted l)),
     withDb s w1).
Proof. intros Hget. open_body Hget. reflexivity. Qed.

Lemma body_empty info b l s resp w1 :
  getTasks P info b (db s) = (inl resp, w1) ->
  Tasks resp = [] ->
  body info b l s =
    ((Some handlerStatusDone, l), snd (tryDelete info (withDb s w1))).
Proof.
  intros Hget He. open_body Hget. rewrite He. cbn [List.length Z.of_nat Z.eqb].
  destruct (tryDelete info (withDb s w1)). reflexivity.
Qed.

Lemma nonempty_length (tasks : list TaskInfo) :
  tasks <> [] -> (Z.of_nat (List.length tasks) =? 0) = false.
Proof.
  intros H. apply Z.eqb_neq. destruct tasks; [congruence|]. cbn [List.length]. lia.
Qed.

Lemma body_unexpired info b l s resp w1 k :
  getTasks P info b (db s) = (inl resp, w1) ->
  unexpiredAt (Tasks resp) (readings P (List.length (Tasks resp)) w1) k ->
  exists j, (j <= k)%nat
    /\ unexpiredAt (Tasks resp) (readings P (List.length (Tasks resp)) w1) j
    /\ allExpired (firstn j (Tasks resp))
         (firstn j (readings P (List.length (Tasks resp)) w1))
    /\ body info b l s =
       ((Some handlerStatusDone,
         mkLocals (err l) (nProcessed l + Z.of_nat (S j)) (nDeleted l)),
        withDb s (afterReadings P (readingsUpTo (Tasks resp) j) w1)).
Proof.
  intros Hget Hk.
  assert (Hne : Tasks resp <> []).
  { destruct Hk as (t & now & Ht & _). intros E. rewrite E in Ht.
    destruct k; discriminate. }
  destruct (scanTasks_unexpired (Tasks resp) l (withDb s w1) k Hk)
    as (j & Hle & Hj & Hpre & Hscan).
  exists j. split; [exact Hle|]. split; [exact Hj|]. split; [exact Hpre|].
  open_body Hget. rewrite (nonempty_length _ Hne), Hscan. reflexivity.
Qed.

Lemma body_complete_error info b l s resp w1 e w3 :
  getTasks P info b (db s) = (inl resp, w1) ->
  Tasks resp <> [] ->
  allExpired (Tasks resp) (readings P (List.length (Tasks resp)) w1) ->
  completeTasks P info (lastTaskID (Tasks resp))
    (Z.of_nat (List.length (Tasks resp)))
    (afterReadings P (List.length (Tasks resp)) w1) = (inr e, w3) ->
  body info b l s =
    ((Some handlerStatusErr,
      mkLocals (Some e) (nProcessed l + Z.of_nat (List.length (Tasks resp)))
        (nDeleted l)),
     withDb s w3).
Proof.
  intros Hget Hne Hall Hc. open_body Hget.
  rewrite (nonempty_length _ Hne), (scanTasks_expired _ l (withDb s w1) Hall).
  cbn [db withDb]. fold (lastTaskID (Tasks resp)). rewrite Hc. reflexivity.
Qed.

Lemma body_short info b l s resp w1 n w3 :
  getTasks P info b (db s) = (inl resp, w1) ->
  Tasks resp <> [] ->
  allExpired (Tasks resp) (readings P (List.length (Tasks resp)) w1) ->
  completeTasks P info (lastTaskID (Tasks resp))
    (Z.of_nat (List.length (Tasks resp)))
    (afterReadings P (List.length (Tasks resp)) w1) = (inl n, w3) ->
  Z.of_nat (List.length (Tasks resp)) < b ->
  body info b l s =
    ((Some handlerStatusDone,
      mkLocals None (nProcessed l + Z.of_nat (List.length (Tasks resp)))
        (nDeleted l + Z.of_nat (List.length (Tasks resp)))),
     snd (tryDelete info (withDb s w3))).
Proof.
  intros Hget Hne Hall Hc Hlt. open_body Hget.
  rewrite (nonempty_length _ Hne), (scanTasks_expired _ l (withDb s w1) Hall).
  cbn [db withDb]. fold (lastTaskID (Tasks resp)). rewrite Hc.
  apply Z.ltb_lt in Hlt. rewrite Hlt.
  change (withDb (withDb (withDb s w1) _) w3) with (withDb s w3).
  destruct (tryDelete info (withDb s w3)). reflexivity.
Qed.

Lemma body_full info b l s resp w1 n w3 :
  getTasks P info b (db s) = (inl resp, w1) ->
  Tasks resp <> [] ->
  allExpired (Tasks resp) (readings P (List.length (Tasks resp)) w1) ->
  completeTasks P info (lastTaskID (Tasks resp))
    (Z.of_nat (List.length (Tasks resp)))
    (afterReadings P (List.length (Tasks resp)) w1) = (inl n, w3) ->
  b <= Z.of_nat (List.length (Tasks resp)) ->
  body info b l s =
    ((None,
      mkLocals None (nProcessed l + Z.of_nat (List.length (Tasks resp)))
        (nDeleted l + Z.of_nat (List.length (Tasks resp)))),
     withDb s w3).
Proof.
  intros Hget Hne Hall Hc Hge. open_body Hget.
  rewrite (nonempty_length _ Hne), (scanTasks_expired _ l (withDb s w1) Hall).
  cbn [db withDb]. fold (lastTaskID (Tasks resp)). rewrite Hc.
  apply Z.ltb_ge in Hge. rewrite Hge. reflexivity.
Qed.

(** *** The turns of a run *)

Lemma loopReaches_loop info b m x y :
  loopReaches P taskListGracePeriod info b m x y ->
  loop info b m (fst x) (snd x) = loop info b m (fst y) (snd y).
Proof.
  induction 1 as [x | l s l' s' y Hlt Hb _ IH]; [reflexivity|].
  cbn [fst snd] in *. rewrite deleteLoop_eq.
  apply Z.ltb_lt in Hlt. rewrite Hlt, Hb. exact IH.
Qed.

Lemma loopReaches_snoc info b m x l s l' s' :
  loopReaches P taskListGracePeriod info b m x (l, s) ->
  nProcessed l < m ->
  body info b l s = ((None, l'), s') ->
  loopReaches P taskListGracePeriod info b m x (l', s').
Proof.
  intros H. remember (l, s) as y eqn:Ey. revert l s Ey.
  induction H as [x | l0 s0 l1 s1 y Hlt Hb _ IH]; intros l s -> Hm Hbody.
  - eapply reaches_next; eauto. apply reaches_here.
  - eapply reaches_next; eauto.
Qed.

Lemma deleteHandler_eq info s0 :
  deleteHandler P taskListGracePeriod info s0 =
  let '((st, l), s1) :=
    loop info (taskBatchSizeFn s0) (maxTasksPerJobFn s0) (mkLocals None 0 0) s0 in
  (st, logged info l s1).
Proof.
  unfold deleteHandler, logged.
  destruct (loop _ _ _ _ _) as [[st l] s1].
  destruct (deleteHandlerLog _ _ _ _ _). reflexivity.
Qed.

(** The handler returns what the turn that returns returns. *)
Lemma startsTurn_returns info s0 l s st l' s' :
  startsTurn P taskListGracePeriod info s0 l s ->
  body info (taskBatchSizeFn s0) l s = ((Some st, l'), s') ->
  deleteHandler P taskListGracePeriod info s0 = (st, logged info l' s').
Proof.
  intros [Hreach Hlt] Hb. rewrite deleteHandler_eq.
  apply loopReaches_loop in Hreach. cbn [fst snd] in Hreach. rewrite Hreach.
  rewrite deleteLoop_eq. apply Z.ltb_lt in Hlt. rewrite Hlt, Hb. reflexivity.
Qed.

Lemma startsTurn_first info s0 :
  0 < maxTasksPerJobFn s0 ->
  startsTurn P taskListGracePeriod info s0 (mkLocals None 0 0) s0.
Proof. intros H. split; [apply reaches_here | exact H]. Qed.

(** Every turn goes one of the six ways. *)
Lemma body_cases info b l s :
  BodyCase P taskListGracePeriod info b l s (body info b l s).
Proof.
  destruct (getTasks P info b (db s)) as [[resp|e] w1] eqn:Hget.
  - destruct (Tasks resp) as [|t0 rest] eqn:Et.
    + rewrite (body_empty _ _ _ _ _ _ Hget Et). eapply turn_empty; eauto.
    + assert (Hne : Tasks resp <> []) by (rewrite Et; discriminate).
      clear Et t0 rest.
      destruct (scanTasks_cases (Tasks resp) l (withDb s w1))
        as [[Hall _] | (j & Hj & Hpre & Hscan)]; cbn [db withDb] in *.
      * destruct (completeTasks P info (lastTaskID (Tasks resp))
                    (Z.of_nat (List.length (Tasks resp)))
                    (afterReadings P (List.length (Tasks resp)) w1))
          as [[n|e] w3] eqn:Hc.
        -- destruct (Z_lt_le_dec (Z.of_nat (List.length (Tasks resp))) b).
           ++ rewrite (body_short _ _ _ _ _ _ _ _ Hget Hne Hall Hc); [|assumption].
              eapply turn_short; eauto.
           ++ rewrite (body_full _ _ _ _ _ _ _ _ Hget Hne Hall Hc); [|assumption].
              eapply turn_full; eauto.
        -- rewrite (body_complete_error _ _ _ _ _ _ _ _ Hget Hne Hall Hc).
           eapply turn_complete_error; eauto.
      * unfold deleteHandlerBody at 1. mred.
        rewrite Hget, (nonempty_length _ Hne), Hscan.
        change (withDb (withDb s w1)
                  (afterReadings P (readingsUpTo (Tasks resp) j) w1))
          with (withDb s (afterReadings P (readingsUpTo (Tasks resp) j) w1)).
        eapply turn_unexpired; eauto.
  - rewrite (body_fetch_error _ _ _ _ _ _ Hget). eapply turn_fetch_error; eauto.
Qed.

(** A turn after which the loop goes on fetched a full batch of expired
    tasks and deleted it. *)
Lemma body_continues info b l s l' s' :
  body info b l s = ((None, l'), s') ->
  exists resp w1 n w3,
    getTasks P info b (db s) = (inl resp, w1)
    /\ Tasks resp <> []
    /\ allExpired (Tasks resp) (readings P (List.length (Tasks resp)) w1)
    /\ completeTasks P info (lastTaskID (Tasks resp))
         (Z.of_nat (List.length (Tasks resp)))
         (afterReadings P (List.length (Tasks resp)) w1) = (inl n, w3)
    /\ b <= Z.of_nat (List.length (Tasks resp))
    /\ l' = mkLocals None (nProcessed l + Z.of_nat (List.length (Tasks resp)))
              (nDeleted l + Z.of_nat (List.length (Tasks resp)))
    /\ s' = withDb s w3.
Proof.
  intros Hb. pose proof (body_cases info b l s) as Hc. rewrite Hb in Hc.
  inversion Hc; subst. exists resp, w1, n, w3. auto 10.
Qed.

(** Induction over the turns of the loop. *)
Lemma loop_ind info b m
    (Q : Locals -> Scavenger W -> (handlerStatus * Locals) * Scavenger W -> Prop) :
  (forall l s, m <= nProcessed l -> Q l s ((handlerStatusDefer, l), s)) ->
  (forall l s st l' s',
      nProcessed l < m -> body info b l s = ((Some st, l'), s') ->
      Q l s ((st, l'), s')) ->
  (forall l s l' s',
      nProcessed l < m -> body info b l s = ((None, l'), s') ->
      Q l' s' (loop info b m l' s') -> Q l s (loop info b m l' s')) ->
  forall l s, Q l s (loop info b m l s).
Proof.
  intros Hexit Hret Hnext l s.
  funelim (deleteLoop P taskListGracePeriod info b m l s).
  - apply Hexit. apply Z.ltb_ge. assumption.
  - apply Hret; [apply Z.ltb_lt|]; assumption.
  - apply Hnext; [apply Z.ltb_lt; assumption | assumption |].
    match goal with IH : forall Q, _ |- _ => apply IH; assumption end.
Qed.

(** What holds whenever a turn starts. *)
Lemma loopReaches_inv info b m l0 s0 l s :
  loopReaches P taskListGracePeriod info b m (l0, s0) (l, s) ->
  err l0 = None -> 0 <= nProcessed l0 -> nDeleted l0 = nProcessed l0 ->
  err l = None /\ 0 <= nProcessed l /\ nDeleted l = nProcessed l
  /\ s = withDb s0 (db s).
Proof.
  intros H. remember (l0, s0) as x eqn:Ex. remember (l, s) as y eqn:Ey.
  revert l0 s0 Ex l s Ey.
  induction H as [x | l1 s1 l2 s2 y Hlt Hb _ IH]; intros l0 s0 Ex l s Ey He Hp Hd.
  - subst. injection Ey as -> ->. rewrite withDb_db. auto.
  - injection Ex as -> ->.
    destruct (body_continues _ _ _ _ _ _ Hb)
      as (resp & w1 & n & w3 & _ & _ & _ & _ & _ & -> & ->).
    destruct (IH _ _ eq_refl _ _ Ey) as (E1 & E2 & E3 & E4);
      cbn [err nProcessed nDeleted]; try lia; try reflexivity.
    repeat split; assumption.
Qed.

Lemma startsTurn_inv info s0 l s :
  startsTurn P taskListGracePeriod info s0 l s ->
  err l = None /\ 0 <= nProcessed l /\ nDeleted l = nProcessed l
  /\ s = withDb s0 (db s).
Proof.
  intros [H _]. eapply loopReaches_inv; eauto; cbn; lia.
Qed.

(** *** The deferred log *)

Lemma logged_db info l (s : Scavenger W) : db (logged info l s) = db s.
Proof.
  unfold logged, deleteHandlerLog, addTaskDeleted, addTaskProcessed, log.
  mred. destruct (err l); [reflexivity|].
  destruct (0 <? nProcessed l); reflexivity.
Qed.

Lemma logged_stats info l (s : Scavenger W) :
  stats (logged info l s) =
  mkStats (tasklist_nDeleted (stats s))
    (AddInt64 (task_nDeleted (stats s)) (nDeleted l))
    (AddInt64 (task_nProcessed (stats s)) (nProcessed l)).
Proof.
  unfold logged, deleteHandlerLog, addTaskDeleted, addTaskProcessed, log.
  mred. destruct (err l); [reflexivity|].
  destruct (0 <? nProcessed l); reflexivity.
Qed.

Lemma logged_error info e p d (s : Scavenger W) :
  logger (logged info (mkLocals (Some e) p d) s) =
  logger s ++
    [mkLogLine LevelError "scavenger.deleteHandler processed."
       [TagError e; TagWorkflowDomainID (DomainID info);
        TagWorkflowTaskListName (Name info); TagTaskType (TaskType info);
        TagNumberProcessed p; TagNumberDeleted d]].
Proof. reflexivity. Qed.

Lemma logged_info info p d (s : Scavenger W) :
  0 < p ->
  logger (logged info (mkLocals None p d) s) =
  logger s ++
    [mkLogLine LevelInfo "scavenger.deleteHandler processed."
       [TagWorkflowDomainID (DomainID info);
        TagWorkflowTaskListName (Name info); TagTaskType (TaskType info);
        TagNumberProcessed p; TagNumberDeleted d]].
Proof.
  intros Hp. unfold logged, deleteHandlerLog, addTaskDeleted, addTaskProcessed, log.
  mred. cbn [err nProcessed nDeleted]. apply Z.ltb_lt in Hp. rewrite Hp.
  reflexivity.
Qed.

(** *** The handler stops at the first unexpired task *)

Lemma deleteHandler_stops_at_unexpired info s0 l s resp w1 k :
  startsTurn P taskListGracePeriod info s0 l s ->
  getTasks P info (taskBatchSizeFn s0) (db s) = (inl resp, w1) ->
  unexpiredAt (Tasks resp) (readings P (List.length (Tasks resp)) w1) k ->
  exists j, (j <= k)%nat
    /\ unexpiredAt (Tasks resp) (readings P (List.length (Tasks resp)) w1) j
    /\ allExpired (firstn j (Tasks resp))
         (firstn j (readings P (List.length (Tasks resp)) w1))
    /\ deleteHandler P taskListGracePeriod info s0 =
       (handlerStatusDone,
        logged info (mkLocals None (nProcessed l + Z.of_nat (S j)) (nDeleted l))
          (withDb s (afterReadings P (readingsUpTo (Tasks resp) j) w1))).
Proof.
  intros Hturn Hget Hk.
  destruct (body_unexpired info _ l s resp w1 k Hget Hk)
    as (j & Hle & Hj & Hpre & Hb).
  exists j. split; [exact Hle|]. split; [exact Hj|]. split; [exact Hpre|].
  destruct (startsTurn_inv _ _ _ _ Hturn) as (He & _).
  rewrite He in Hb. exact (startsTurn_returns _ _ _ _ _ _ _ Hturn Hb).
Qed.

(** In every invocation of [deleteHandler], when the fetch of a batch or the
    deletion of a batch fails, the handler keeps the error for its log and
    returns Err at once, and the log line it leaves is an error: it tests
    [err != nil] only and does not tell the rate-limit error from the
    others, as [completeOrphanTasksHandler] does. *)
Lemma deleteHandler_persistence_error info s0 l s :
  startsTurn P taskListGracePeriod info s0 l s ->
  (forall e w1,
      getTasks P info (taskBatchSizeFn s0) (db s) = (inr e, w1) ->
      deleteHandler P taskListGracePeriod info s0 =
        (handlerStatusErr,
         logged info (mkLocals (Some e) (nProcessed l) (nDeleted l)) (withDb s w1)))
  /\ (forall resp w1 e w3,
        getTasks P info (taskBatchSizeFn s0) (db s) = (inl resp, w1) ->
        Tasks resp <> [] ->
        allExpired (Tasks resp) (readings P (List.length (Tasks resp)) w1) ->
        completeTasks P info (lastTaskID (Tasks resp))
          (Z.of_nat (List.length (Tasks resp)))
          (afterReadings P (List.length (Tasks resp)) w1) = (inr e, w3) ->
        deleteHandler P taskListGracePeriod info s0 =
          (handlerStatusErr,
           logged info
             (mkLocals (Some e) (nProcessed l + Z.of_nat (List.length (Tasks resp)))
                (nDeleted l))
             (withDb s w3)))
  /\ (forall e p d (s' : Scavenger W),
        exists line,
          logger (logged info (mkLocals (Some e) p d) s') = logger s' ++ [line]
          /\ level line = LevelError /\ In (TagError e) (tags line)).
Proof.
  intros Hturn. split; [|split].
  - intros e w1 Hget. eapply startsTurn_returns; [exact Hturn|].
    apply (body_fetch_error _ _ _ _ _ _ Hget).
  - intros resp w1 e w3 Hget Hne Hall Hc.
    eapply startsTurn_returns; [exact Hturn|].
    apply (body_complete_error _ _ _ _ _ _ _ _ Hget Hne Hall Hc).
  - intros e p d s'. eexists. split; [apply logged_error|].
    split; [reflexivity | left; reflexivity].
Qed.

End Facts.

Section Recording.

Context {W : Type}.
Variable P0 : Persistence W.
Variable taskListGracePeriod : Time.Duration.

Local Abbreviation R := (recording P0).

Lemma length_readings {V} (Q : Persistence V) n : forall w,
  List.length (readings Q n w) = n.
Proof.
  induction n as [|n IH]; intros w; cbn; [reflexivity|].
  destruct (timeNow Q w). cbn. rewrite IH. reflexivity.
Qed.

Lemma readings_recording n : forall w tr,
  readings R n (w, tr) = readings P0 n w.
Proof.
  induction n as [|n IH]; intros w tr; cbn; [reflexivity|].
  unfold record. cbn. destruct (timeNow P0 w) as [t w']. rewrite IH. reflexivity.
Qed.

Lemma afterReadings_recording n : forall w tr,
  afterReadings R n (w, tr) =
  (afterReadings P0 n w, tr ++ map CallNow (readings P0 n w)).
Proof.
  induction n as [|n IH]; intros w tr; cbn.
  - rewrite app_nil_r. reflexivity.
  - unfold record. cbn. destruct (timeNow P0 w) as [t w']. cbn.
    rewrite IH, <- app_assoc. reflexivity.
Qed.

Lemma getTasks_recording info b x r w1 :
  getTasks R info b x = (r, w1) ->
  snd w1 = snd x ++ [CallGetTasks info b r].
Proof.
  cbn. unfold record. destruct (getTasks P0 info b (fst x)) as [r' w].
  intros H. injection H as -> <-. reflexivity.
Qed.

Lemma completeTasks_recording info id n x r w3 :
  completeTasks R info id n x = (r, w3) ->
  snd w3 = snd x ++ [CallCompleteTasks info id n r].
Proof.
  cbn. unfold record. destruct (completeTasks P0 info id n (fst x)) as [r' w].
  intros H. injection H as -> <-. reflexivity.
Qed.

Lemma zeroExpiry_unexpired now t : zeroExpiry t -> isTaskExpiredAt now t = false.
Proof.
  intros [E|E]; unfold isTaskExpiredAt, Time.After; rewrite E; reflexivity.
Qed.

(** C1: in every invocation of [deleteHandler], when a fetched batch holds a
    task, at position [k], that is not expired when the handler examines
    it, the handler returns Done, the only calls it makes after that fetch
    are readings of the clock (at most [k + 1] of them: it deletes no task
    of the batch, at position [k] or elsewhere, nor the queue), and the line
    it logs is not an error. *)
Theorem expiry_scan_short_circuit info s0 l s resp w1 k :
  startsTurn R taskListGracePeriod info s0 l s ->
  getTasks R info (taskBatchSizeFn s0) (db s) = (inl resp, w1) ->
  unexpiredAt (Tasks resp) (readings R (List.length (Tasks resp)) w1) k ->
  exists j s' line,
    (j <= k)%nat
    /\ deleteHandler R taskListGracePeriod info s0 = (handlerStatusDone, s')
    /\ calls s' =
         calls s ++ CallGetTasks info (taskBatchSizeFn s0) (inl resp)
                 :: map CallNow (readings P0 (readingsUpTo (Tasks resp) j) (fst w1))
    /\ logger s' = logger s0 ++ [line] /\ level line = LevelInfo.
Proof.
  intros Hturn Hget Hk.
  destruct (deleteHandler_stops_at_unexpired _ _ _ _ _ _ _ _ _ Hturn Hget Hk)
    as (j & Hle & _ & _ & Hrun).
  destruct (startsTurn_inv _ _ _ _ _ _ Hturn) as (_ & Hp & _ & Hs).
  eexists j, _, _. split; [exact Hle|]. split; [exact Hrun|]. split; [|split].
  - unfold calls. rewrite logged_db. cbn [db withDb].
    destruct w1 as [w tr]. rewrite afterReadings_recording. cbn [fst snd].
    apply getTasks_recording in Hget. cbn [snd] in Hget. rewrite Hget.
    rewrite <- app_assoc. reflexivity.
  - rewrite logged_info by lia. cbn [logger withDb]. rewrite Hs. reflexivity.
  - reflexivity.
Qed.

Lemma clock_readings_delete_nothing nows :
  Forall (fun c => isDeletion c = false) (map CallNow nows).
Proof. apply Forall_forall. intros c Hc. apply in_map_iff in Hc.
       destruct Hc as (t & <- & _). reflexivity. Qed.

(** C8: in every invocation of [deleteHandler], when a fetched batch holds a
    task that is not expired when the handler examines it, the handler
    stops at the first such task, at position [j]: the tasks before it are
    expired, and still no call after the fetch deletes anything; the store
    is the one the fetch left, the clock having been read on the way,
    and the count of deleted tasks the handler reports holds none of this
    batch. *)
Theorem unexpired_batch_left_in_storage info s0 l s resp w1 k :
  startsTurn R taskListGracePeriod info s0 l s ->
  getTasks R info (taskBatchSizeFn s0) (db s) = (inl resp, w1) ->
  unexpiredAt (Tasks resp) (readings R (List.length (Tasks resp)) w1) k ->
  exists j s',
    (j <= k)%nat
    /\ deleteHandler R taskListGracePeriod info s0 = (handlerStatusDone, s')
    /\ allExpired (firstn j (Tasks resp))
         (firstn j (readings R (List.length (Tasks resp)) w1))
    /\ (forall tr,
          calls s' =
            calls s ++ CallGetTasks info (taskBatchSizeFn s0) (inl resp) :: tr ->
          Forall (fun c => isDeletion c = false) tr)
    /\ fst (db s') = afterReadings P0 (readingsUpTo (Tasks resp) j) (fst w1)
    /\ task_nDeleted (stats s') =
         AddInt64 (task_nDeleted (stats s0)) (nDeleted l).
Proof.
  intros Hturn Hget Hk.
  destruct (deleteHandler_stops_at_unexpired _ _ _ _ _ _ _ _ _ Hturn Hget Hk)
    as (j & Hle & _ & Hpre & Hrun).
  destruct (startsTurn_inv _ _ _ _ _ _ Hturn) as (_ & Hp & _ & Hs).
  eexists j, _. split; [exact Hle|]. split; [exact Hrun|]. split; [exact Hpre|].
  assert (Hcalls : calls (logged info
              (mkLocals None (nProcessed l + Z.of_nat (S j)) (nDeleted l))
              (withDb s (afterReadings R (readingsUpTo (Tasks resp) j) w1))) =
            calls s ++ CallGetTasks info (taskBatchSizeFn s0) (inl resp)
                    :: map CallNow (readings P0 (readingsUpTo (Tasks resp) j) (fst w1))).
  { unfold calls. rewrite logged_db. cbn [db withDb].
    destruct w1 as [w tr]. rewrite afterReadings_recording. cbn [fst snd].
    apply getTasks_recording in Hget. cbn [snd] in Hget. rewrite Hget.
    rewrite <- app_assoc. reflexivity. }
  split; [|split].
  - intros tr Htr. rewrite Hcalls in Htr. apply app_inv_head in Htr.
    injection Htr as <-. apply clock_readings_delete_nothing.
  - rewrite logged_db. cbn [db withDb]. destruct w1 as [w tr].
    rewrite afterReadings_recording. reflexivity.
  - rewrite logged_stats. cbn [task_nDeleted nDeleted stats withDb].
    rewrite Hs. reflexivity.
Qed.

(** C7: a task without expiry is never classified as expired, whatever the
    clock reads; hence in every invocation of [deleteHandler], a fetched
    batch that holds such a task is not deleted: the handler returns Done
    and after that fetch it only reads the clock. *)
Theorem zero_expiry_never_reclaimed :
  (forall now t, zeroExpiry t -> isTaskExpiredAt now t = false)
  /\ (forall info s0 l s resp w1 t,
        startsTurn R taskListGracePeriod info s0 l s ->
        getTasks R info (taskBatchSizeFn s0) (db s) = (inl resp, w1) ->
        In t (Tasks resp) -> zeroExpiry t ->
        exists s' nows,
          deleteHandler R taskListGracePeriod info s0 = (handlerStatusDone, s')
          /\ calls s' =
               calls s ++ CallGetTasks info (taskBatchSizeFn s0) (inl resp)
                       :: map CallNow nows).
Proof.
  split; [intros now t; apply zeroExpiry_unexpired|].
  intros info s0 l s resp w1 t Hturn Hget Hin Hz.
  destruct (In_nth_error _ _ Hin) as (k & Hk).
  assert (Hlen : (k < List.length (readings R (List.length (Tasks resp)) w1))%nat).
  { rewrite length_readings. apply nth_error_Some. congruence. }
  destruct (nth_error (readings R (List.length (Tasks resp)) w1) k) as [now|] eqn:En;
    [|apply nth_error_None in En; lia].
  assert (Hu : unexpiredAt (Tasks resp)
                 (readings R (List.length (Tasks resp)) w1) k).
  { exists t, now. auto using zeroExpiry_unexpired. }
  destruct (deleteHandler_stops_at_unexpired _ _ _ _ _ _ _ _ _ Hturn Hget Hu)
    as (j & _ & _ & _ & Hrun).
  eexists _, (readings P0 (readingsUpTo (Tasks resp) j) (fst w1)).
  split; [exact Hrun|].
  unfold calls. rewrite logged_db. cbn [db withDb].
  destruct w1 as [w tr]. rewrite afterReadings_recording. cbn [fst snd].
  apply getTasks_recording in Hget. cbn [snd] in Hget. rewrite Hget.
  rewrite <- app_assoc. reflexivity.
Qed.

(** *** The orphan handler *)

Ltac mred_orphan :=
  cbv beta iota zeta delta
    [bind ret call log addTaskDeleted addTaskProcessed withStats withDb];
  cbn [recording completeTask getOrphanTasks db]; unfold record; cbn [fst snd].

Lemma completeOrphanTasks_calls keys : forall nD s,
  exists tr,
    calls (snd (completeOrphanTasks R keys nD s)) = calls s ++ tr
    /\ (forall pre c post e,
          tr = pre ++ c :: post -> callError c = Some e ->
          post = []
          /\ fst (fst (completeOrphanTasks R keys nD s)) = Some (orphanStatusOf e))
    /\ ((forall c, In c tr -> callError c = None) ->
        fst (completeOrphanTasks R keys nD s) = (None, nD + Z.of_nat (List.length keys))
        /\ tr = map (fun k => CallCompleteTask (taskListOfKey k) (KeyTaskID k) None)
                  keys).
Proof.
  induction keys as [|key rest IH]; intros nD s.
  - exists []. cbn. rewrite app_nil_r, Z.add_0_r. split; [reflexivity|]. split.
    + intros [|? ?] c0 post e H; discriminate.
    + intros _. split; reflexivity.
  - cbn [completeOrphanTasks]. destruct s as [[w tr0] st lg b m n].
    mred_orphan.
    destruct (completeTask P0 (taskListOfKey key) (KeyTaskID key) w) as [[e|] w'] eqn:Ec.
    + exists [CallCompleteTask (taskListOfKey key) (KeyTaskID key) (Some e)].
      unfold orphanStatusOf.
      destruct (isErrPersistenceLimitExceeded e) eqn:Ee; cbn;
        (split; [reflexivity|]); split.
      * intros [|c0 [|? ?]] c1 post e' H He'; try discriminate.
        injection H as <- <-. cbn in He'. injection He' as <-.
        rewrite Ee. auto.
      * intros H. specialize (H _ (or_introl eq_refl)). discriminate.
      * intros [|c0 [|? ?]] c1 post e' H He'; try discriminate.
        injection H as <- <-. cbn in He'. injection He' as <-.
        rewrite Ee. auto.
      * intros H. specialize (H _ (or_introl eq_refl)). discriminate.
    + match goal with
      | |- context [completeOrphanTasks _ rest ?d ?x] =>
          destruct (IH d x) as (tr & Hcalls & Hfail & Hok)
      end.
      exists (CallCompleteTask (taskListOfKey key) (KeyTaskID key) None :: tr).
      split; [|split].
      * rewrite Hcalls. unfold calls. cbn. rewrite <- app_assoc. reflexivity.
      * intros [|c0 pre] c1 post e H He.
        -- injection H as <- _. discriminate.
        -- injection H as _ H. eauto.
      * intros H.
        destruct Hok as [Hres Htr]; [intros c1 Hc; apply H; right; exact Hc|].
        rewrite Hres, Htr. cbn [List.length map]. split; [|reflexivity].
        f_equal. lia.
Qed.

Lemma orphanStatusOf_cases e :
  (e = ErrPersistenceLimitExceeded -> orphanStatusOf e = handlerStatusDefer)
  /\ (e <> ErrPersistenceLimitExceeded -> orphanStatusOf e = handlerStatusErr).
Proof. destruct e; split; intros H; try reflexivity; congruence. Qed.

(** The calls of a run of the orphan handler: the query, then the calls of
    the loop over the page. *)
Lemma completeOrphanTasksHandler_calls s :
  exists r tr,
    calls (snd (completeOrphanTasksHandler R s)) =
      calls s ++ CallGetOrphanTasks (getOrphanTasksPageSizeFn s) r :: tr
    /\ match r with
       | inr e =>
           tr = [] /\ fst (completeOrphanTasksHandler R s) = orphanStatusOf e
       | inl resp =>
           (forall pre c post e,
               tr = pre ++ c :: post -> callError c = Some e ->
               post = []
               /\ fst (completeOrphanTasksHandler R s) = orphanStatusOf e)
           /\ ((forall c, In c tr -> callError c = None) ->
               tr = map (fun k => CallCompleteTask (taskListOfKey k) (KeyTaskID k) None)
                      (OrphanTasks resp)
               /\ fst (completeOrphanTasksHandler R s) =
                  if Z.of_nat (List.length (OrphanTasks resp))
                     <? getOrphanTasksPageSizeFn s
                  then handlerStatusDone else handlerStatusDefer)
       end.
Proof.
  destruct s as [[w tr0] st lg b m n]. unfold completeOrphanTasksHandler.
  cbn [getOrphanTasksPageSizeFn]. mred_orphan.
  destruct (getOrphanTasks P0 n w) as [[resp|e] w1] eqn:Eq.
  - match goal with
    | |- context [completeOrphanTasks _ _ 0 ?x] =>
        destruct (completeOrphanTasks_calls (OrphanTasks resp) 0 x)
          as (tr & Hcalls & Hfail & Hok);
        destruct (completeOrphanTasks R (OrphanTasks resp) 0 x)
          as [[o nD] s1] eqn:Eloop
    end.
    cbn [fst snd] in *. unfold calls in Hcalls. cbn [db snd] in Hcalls.
    exists (inl resp), tr. split; [|split].
    + destruct o as [st'|]; [|destruct (_ <? n)]; unfold calls; cbn [snd db];
        rewrite Hcalls, <- app_assoc; reflexivity.
    + intros pre c post e Htr He. destruct (Hfail _ _ _ _ Htr He) as [-> ->].
      split; reflexivity.
    + intros Hall. destruct (Hok Hall) as [Hres ->]. injection Hres as -> _.
      split; [reflexivity|]. cbn [fst].
      destruct (_ <? n); reflexivity.
  - exists (inr e), []. unfold orphanStatusOf.
    destruct (isErrPersistenceLimitExceeded e); cbn; auto.
Qed.

Lemma completeOrphanTasks_orphan_calls keys : forall nD s,
  exists tr,
    calls (snd (completeOrphanTasks R keys nD s)) = calls s ++ tr
    /\ Forall (fun c => isOrphanCall c = true) tr.
Proof.
  induction keys as [|key rest IH]; intros nD s.
  - exists []. cbn. rewrite app_nil_r. auto.
  - cbn [completeOrphanTasks]. destruct s as [[w tr0] st lg b m n].
    mred_orphan.
    destruct (completeTask P0 (taskListOfKey key) (KeyTaskID key) w) as [[e|] w'].
    + exists [CallCompleteTask (taskListOfKey key) (KeyTaskID key) (Some e)].
      destruct (isErrPersistenceLimitExceeded e); cbn; auto.
    + match goal with
      | |- context [completeOrphanTasks _ rest ?d ?x] =>
          destruct (IH d x) as (tr & Hcalls & Hall)
      end.
      exists (CallCompleteTask (taskListOfKey key) (KeyTaskID key) None :: tr).
      split; [|constructor; [reflexivity | exact Hall]].
      rewrite Hcalls. unfold calls. cbn. rewrite <- app_assoc. reflexivity.
Qed.

(** The orphan handler queries for orphan rows and deletes rows, nothing
    else: it never deletes a queue. *)
Lemma completeOrphanTasksHandler_orphan_calls s :
  exists tr,
    calls (snd (completeOrphanTasksHandler R s)) = calls s ++ tr
    /\ Forall (fun c => isOrphanCall c = true) tr.
Proof.
  destruct s as [[w tr0] st lg b m n]. unfold completeOrphanTasksHandler.
  cbn [getOrphanTasksPageSizeFn]. mred_orphan.
  destruct (getOrphanTasks P0 n w) as [[resp|e] w1].
  - match goal with
    | |- context [completeOrphanTasks _ _ 0 ?x] =>
        destruct (completeOrphanTasks_orphan_calls (OrphanTasks resp) 0 x)
          as (tr & Hcalls & Hall);
        destruct (completeOrphanTasks R (OrphanTasks resp) 0 x) as [[o nD] s1]
    end.
    cbn [fst snd] in *. unfold calls in Hcalls. cbn [db snd] in Hcalls.
    exists (CallGetOrphanTasks n (inl resp) :: tr).
    split; [|constructor; [reflexivity | exact Hall]].
    destruct o as [st'|]; [|destruct (_ <? n)]; unfold calls; cbn [snd db];
      rewrite Hcalls, <- app_assoc; reflexivity.
  - exists [CallGetOrphanTasks n (inr e)].
    destruct (isErrPersistenceLimitExceeded e); cbn; auto.
Qed.

(** C5: in every invocation of [completeOrphanTasksHandler], a call of the
    persistence that fails, the query for orphan tasks or the deletion of
    one of them, is the last call of the run (the handler returns at once),
    and the handler returns Defer when the error is the rate-limit error
    and Err when it is any other. *)
Theorem orphan_handler_failure s pre c post e :
  calls (snd (completeOrphanTasksHandler R s)) = calls s ++ pre ++ c :: post ->
  callError c = Some e ->
  post = []
  /\ (e = ErrPersistenceLimitExceeded ->
      fst (completeOrphanTasksHandler R s) = handlerStatusDefer)
  /\ (e <> ErrPersistenceLimitExceeded ->
      fst (completeOrphanTasksHandler R s) = handlerStatusErr).
Proof.
  intros Hcalls He.
  destruct (completeOrphanTasksHandler_calls s) as (r & tr & Htr & Hr).
  rewrite Htr in Hcalls. apply app_inv_head in Hcalls.
  assert (Hgoal : post = []
                  /\ fst (completeOrphanTasksHandler R s) = orphanStatusOf e).
  { destruct r as [resp|e0].
    - destruct Hr as [Hfail _]. destruct pre as [|c0 pre].
      + injection Hcalls as <- _. discriminate.
      + injection Hcalls as _ Hcalls. eauto.
    - destruct Hr as [-> Hst]. destruct pre as [|c0 [|? ?]]; try discriminate.
      injection Hcalls as <- <-. cbn in He. injection He as <-. auto. }
  destruct Hgoal as [-> ->]. split; [reflexivity|]. apply orphanStatusOf_cases.
Qed.

(** C10: in every invocation of [completeOrphanTasksHandler] in which no
    call fails, the handler has deleted every orphan task of the page it
    fetched, one call each, and returns Done when the page holds fewer rows
    than the page size and Defer otherwise. *)
Theorem orphan_handler_success s tr :
  calls (snd (completeOrphanTasksHandler R s)) = calls s ++ tr ->
  (forall c, In c tr -> callError c = None) ->
  exists resp,
    tr = CallGetOrphanTasks (getOrphanTasksPageSizeFn s) (inl resp)
         :: map (fun k => CallCompleteTask (taskListOfKey k) (KeyTaskID k) None)
              (OrphanTasks resp)
    /\ (Z.of_nat (List.length (OrphanTasks resp)) < getOrphanTasksPageSizeFn s ->
        fst (completeOrphanTasksHandler R s) = handlerStatusDone)
    /\ (getOrphanTasksPageSizeFn s <= Z.of_nat (List.length (OrphanTasks resp)) ->
        fst (completeOrphanTasksHandler R s) = handlerStatusDefer).
Proof.
  intros Hcalls Hall.
  destruct (completeOrphanTasksHandler_calls s) as (r & tr' & Htr & Hr).
  rewrite Htr in Hcalls. apply app_inv_head in Hcalls. subst tr.
  destruct r as [resp|e].
  - destruct Hr as [_ Hok].
    destruct Hok as [-> Hst]; [intros c Hc; apply Hall; right; exact Hc|].
    exists resp. split; [reflexivity|]. rewrite Hst. split; intros H.
    + apply Z.ltb_lt in H. rewrite H. reflexivity.
    + apply Z.ltb_ge in H. rewrite H. reflexivity.
  - specialize (Hall _ (or_introl eq_refl)). discriminate.
Qed.

(** *** The calls of [deleteHandler] *)

Lemma tryDelete_calls info s :
  exists td,
    calls (snd (tryDeleteTaskList R taskListGracePeriod info s)) = calls s ++ td
    /\ TryDeleteCalls taskListGracePeriod info td.
Proof.
  unfold tryDeleteTaskList.
  destruct (HasPrefix (Name info) scannerTaskListPrefix) eqn:Epre.
  - exists []. rewrite app_nil_r. split; [reflexivity | constructor; assumption].
  - destruct s as [[w tr0] st lg b m n]. mred_orphan.
    cbn [timeNow recording]. unfold record. cbn [fst snd].
    destruct (timeNow P0 w) as [now w1].
    destruct (Time.Sub now (LastUpdated info) <? taskListGracePeriod) eqn:Eg.
    + exists [CallNow now]. split; [reflexivity|].
      apply try_recent; [assumption | apply Z.ltb_lt; assumption].
    + cbn [deleteTaskList recording db]. unfold record. cbn [fst snd].
      destruct (deleteTaskList P0 info w1) as [r w2].
      exists [CallNow now; CallDeleteTaskList info r]. split.
      * destruct r; unfold calls, addTasklistDeleted; cbn;
          rewrite <- app_assoc; reflexivity.
      * apply try_delete; [assumption | apply Z.ltb_ge; assumption].
Qed.

Lemma readings_recording' n x : readings R n x = readings P0 n (fst x).
Proof. destruct x. apply readings_recording. Qed.

Lemma afterReadings_calls n x :
  snd (afterReadings R n x) = snd x ++ map CallNow (readings P0 n (fst x)).
Proof. destruct x. rewrite afterReadings_recording. reflexivity. Qed.

Lemma body_calls info b l s :
  exists tr,
    calls (snd (deleteHandlerBody R taskListGracePeriod info b l s)) = calls s ++ tr
    /\ TurnCalls taskListGracePeriod info b
         (fst (fst (deleteHandlerBody R taskListGracePeriod info b l s))) tr.
Proof.
  pose proof (body_cases R taskListGracePeriod info b l s) as Hc.
  inversion Hc as [e w1 Hget E | resp w1 Hget He E | resp w1 j Hget Hj Hpre E
                  | resp w1 e w3 Hget Hne Hall Hcpl E
                  | resp w1 n w3 Hget Hne Hall Hcpl Hlt E
                  | resp w1 n w3 Hget Hne Hall Hcpl Hge E];
    clear Hc E; cbn [fst snd]; apply getTasks_recording in Hget;
    try (apply completeTasks_recording in Hcpl;
         rewrite afterReadings_calls, Hget in Hcpl);
    try rewrite readings_recording' in Hall.
  - eexists. split; [unfold calls; cbn [db withDb]; exact Hget | constructor].
  - destruct (tryDelete_calls info (withDb s w1)) as (td & Htd & Hshape).
    exists (CallGetTasks info b (inl resp) :: td). split.
    + rewrite Htd. unfold calls at 1. cbn [db withDb]. rewrite Hget.
      rewrite <- app_assoc. reflexivity.
    + constructor; assumption.
  - eexists. split; [|apply calls_unexpired].
    unfold calls at 1. cbn [db withDb]. rewrite afterReadings_calls, Hget.
    rewrite <- app_assoc. reflexivity.
  - eexists. split; [|apply calls_complete_error].
    unfold calls at 1. cbn [db withDb]. rewrite Hcpl.
    rewrite <- !app_assoc. reflexivity.
  - destruct (tryDelete_calls info (withDb s w3)) as (td & Htd & Hshape).
    eexists. split; [|apply calls_short; eassumption].
    rewrite Htd. unfold calls at 1. cbn [db withDb]. rewrite Hcpl.
    rewrite <- !app_assoc. reflexivity.
  - eexists. split; [|apply calls_full; eassumption].
    unfold calls at 1. cbn [db withDb]. rewrite Hcpl.
    rewrite <- !app_assoc. reflexivity.
Qed.

Lemma loop_calls info b m l s :
  exists tr,
    calls (snd (deleteLoop R taskListGracePeriod info b m l s)) = calls s ++ tr
    /\ RunCalls taskListGracePeriod info b
         (fst (fst (deleteLoop R taskListGracePeriod info b m l s))) tr.
Proof.
  apply (loop_ind R taskListGracePeriod info b m
           (fun l s r => exists tr, calls (snd r) = calls s ++ tr
              /\ RunCalls taskListGracePeriod info b (fst (fst r)) tr)).
  - intros l0 s0 _. exists []. rewrite app_nil_r. split; [reflexivity|constructor].
  - intros l0 s0 st l' s' _ Hb.
    destruct (body_calls info b l0 s0) as (tr & Htr & Hshape).
    rewrite Hb in Htr, Hshape. exists tr. split; [exact Htr|].
    apply run_return. exact Hshape.
  - intros l0 s0 l' s' _ Hb (tr2 & Htr2 & Hshape2).
    destruct (body_calls info b l0 s0) as (tr1 & Htr1 & Hshape1).
    rewrite Hb in Htr1, Hshape1. cbn [fst snd] in *.
    exists (tr1 ++ tr2). split.
    + rewrite Htr2, Htr1, app_assoc. reflexivity.
    + apply run_next; assumption.
Qed.

(** The calls of an invocation of [deleteHandler] have the shape of a run. *)
Lemma deleteHandler_calls info s0 :
  exists tr,
    calls (snd (deleteHandler R taskListGracePeriod info s0)) = calls s0 ++ tr
    /\ RunCalls taskListGracePeriod info (taskBatchSizeFn s0)
         (fst (deleteHandler R taskListGracePeriod info s0)) tr.
Proof.
  rewrite deleteHandler_eq.
  destruct (loop_calls info (taskBatchSizeFn s0) (maxTasksPerJobFn s0)
              (mkLocals None 0 0) s0) as (tr & Htr & Hshape).
  destruct (deleteLoop _ _ _ _ _ _ _) as [[st l] s1]. cbn [fst snd] in *.
  exists tr. split; [|exact Hshape].
  unfold calls. rewrite logged_db. exact Htr.
Qed.

End Recording.

(** *** Recording changes nothing

    The handlers on the recording persistence return the statuses, and leave
    the world, the statistics and the log, that they return and leave on the
    persistence itself. *)

Section Simulation.

Context {W : Type}.
Variable P0 : Persistence W.
Variable taskListGracePeriod : Time.Duration.

Local Abbreviation R := (recording P0).

Lemma simulates_ret {A} (a : A) : simulates (W:=W) (ret a) (ret a).
Proof. intros s. reflexivity. Qed.

Lemma simulates_bind {A B} (mR : M A) (mP : M A) (kR : A -> M B) (kP : A -> M B) :
  simulates (W:=W) mR mP -> (forall a, simulates (kR a) (kP a)) ->
  simulates (bind mR kR) (bind mP kP).
Proof.
  intros Hm Hk s. unfold bind. rewrite (Hm s).
  destruct (mR s) as [a s']. cbn [fst snd]. apply Hk.
Qed.

Lemma simulates_call {A} (op : W -> A * W) (c : A -> Call) :
  simulates (call (record op c)) (call op).
Proof.
  intros s. unfold call, record. destruct s as [[w tr] st lg b m n]. cbn.
  destruct (op w) as [a w']. reflexivity.
Qed.

Lemma simulates_log lv msg tg : simulates (W:=W) (log lv msg tg) (log lv msg tg).
Proof. intros s. reflexivity. Qed.

Lemma simulates_addTasklistDeleted d :
  simulates (W:=W) (addTasklistDeleted d) (addTasklistDeleted d).
Proof. intros s. reflexivity. Qed.

Lemma simulates_addTaskDeleted d :
  simulates (W:=W) (addTaskDeleted d) (addTaskDeleted d).
Proof. intros s. reflexivity. Qed.

Lemma simulates_addTaskProcessed d :
  simulates (W:=W) (addTaskProcessed d) (addTaskProcessed d).
Proof. intros s. reflexivity. Qed.

Ltac simulate :=
  repeat first
    [ apply simulates_ret | apply simulates_log
    | apply simulates_addTasklistDeleted | apply simulates_addTaskDeleted
    | apply simulates_addTaskProcessed
    | apply (simulates_call (timeNow P0) CallNow)
    | apply simulates_bind; [|intros ?]
    | assumption ].

Lemma simulates_isTaskExpired t :
  simulates (isTaskExpired R t) (isTaskExpired P0 t).
Proof.
  unfold isTaskExpired. destruct (Time.After (Expiry t) Time.Unix00); simulate.
Qed.

Lemma simulates_tryDeleteTaskList info :
  simulates (tryDeleteTaskList R taskListGracePeriod info)
    (tryDeleteTaskList P0 taskListGracePeriod info).
Proof.
  unfold tryDeleteTaskList.
  destruct (HasPrefix (Name info) scannerTaskListPrefix); simulate.
  destruct (_ <? _); simulate.
  - apply (simulates_call (deleteTaskList P0 info) (CallDeleteTaskList info)).
  - destruct a0; simulate.
Qed.

Lemma simulates_deleteHandlerLog info p d e :
  simulates (W:=W) (deleteHandlerLog info p d e) (deleteHandlerLog info p d e).
Proof.
  unfold deleteHandlerLog. simulate. destruct e; simulate.
  destruct (0 <? p); simulate.
Qed.

Lemma simulates_scanTasks tasks : forall l,
  simulates (scanTasks R tasks l) (scanTasks P0 tasks l).
Proof.
  induction tasks as [|t rest IH]; intros l; cbn [scanTasks]; simulate.
  - apply simulates_isTaskExpired.
  - destruct (negb a); simulate. apply IH.
Qed.

Lemma simulates_deleteHandlerBody info b l :
  simulates (deleteHandlerBody R taskListGracePeriod info b l)
    (deleteHandlerBody P0 taskListGracePeriod info b l).
Proof.
  unfold deleteHandlerBody. simulate.
  - apply (simulates_call (getTasks P0 info b) (CallGetTasks info b)).
  - destruct a as [resp|e]; simulate.
    destruct (_ =? 0); simulate.
    + apply simulates_tryDeleteTaskList.
    + apply simulates_scanTasks.
    + destruct a as [returned l1]. destruct returned; simulate.
      * apply (simulates_call (completeTasks P0 info _ _) (CallCompleteTasks info _ _)).
      * destruct a as [n|e]; simulate.
        destruct (_ <? b); simulate. apply simulates_tryDeleteTaskList.
Qed.

Lemma simulates_deleteLoop info b m l :
  simulates (deleteLoop R taskListGracePeriod info b m l)
    (deleteLoop P0 taskListGracePeriod info b m l).
Proof.
  intros s.
  apply (loop_ind R taskListGracePeriod info b m
           (fun l s r =>
              deleteLoop P0 taskListGracePeriod info b m l (strip s)
              = (fst r, strip (snd r)))).
  - intros l0 s0 Hm. rewrite deleteLoop_eq.
    apply Z.ltb_ge in Hm. rewrite Hm. reflexivity.
  - intros l0 s0 st l' s' Hlt Hb. rewrite deleteLoop_eq.
    apply Z.ltb_lt in Hlt. rewrite Hlt.
    rewrite (simulates_deleteHandlerBody info b l0 s0), Hb. reflexivity.
  - intros l0 s0 l' s' Hlt Hb IH. rewrite deleteLoop_eq.
    apply Z.ltb_lt in Hlt. rewrite Hlt.
    rewrite (simulates_deleteHandlerBody info b l0 s0), Hb. exact IH.
Qed.

Lemma simulates_deleteHandler info :
  simulates (deleteHandler R taskListGracePeriod info)
    (deleteHandler P0 taskListGracePeriod info).
Proof.
  intros s. unfold deleteHandler.
  change (taskBatchSizeFn (strip s)) with (taskBatchSizeFn s).
  change (maxTasksPerJobFn (strip s)) with (maxTasksPerJobFn s).
  rewrite (simulates_deleteLoop info _ _ _ s).
  destruct (deleteLoop R _ _ _ _ _ s) as [[st l] s1]. cbn [fst snd].
  rewrite (simulates_deleteHandlerLog info _ _ _ s1).
  destruct (deleteHandlerLog _ _ _ _ s1). reflexivity.
Qed.

Lemma simulates_completeOrphanTasks keys : forall nD,
  simulates (completeOrphanTasks R keys nD) (completeOrphanTasks P0 keys nD).
Proof.
  induction keys as [|key rest IH]; intros nD; cbn [completeOrphanTasks]; simulate.
  - apply (simulates_call (completeTask P0 _ _) (CallCompleteTask _ _)).
  - destruct a as [e|]; simulate.
    + destruct (isErrPersistenceLimitExceeded e); simulate.
    + apply IH.
Qed.

Lemma simulates_completeOrphanTasksHandler :
  simulates (completeOrphanTasksHandler R) (completeOrphanTasksHandler P0).
Proof.
  intros s. unfold completeOrphanTasksHandler.
  change (getOrphanTasksPageSizeFn (strip s)) with (getOrphanTasksPageSizeFn s).
  generalize (getOrphanTasksPageSizeFn s). intros n.
  match goal with
  | |- ?mP (strip s) = (fst (?mR s), strip (snd (?mR s))) =>
      enough (H : simulates mR mP) by apply H
  end.
  simulate.
  - apply (simulates_call (getOrphanTasks P0 n) (CallGetOrphanTasks n)).
  - destruct a as [resp|e]; simulate.
    + apply simulates_completeOrphanTasks.
    + destruct a as [[st|] nD]; simulate.
      destruct (_ <? n); simulate.
    + destruct (isErrPersistenceLimitExceeded e); simulate.
Qed.

End Simulation.

(** *** Deletions of the queue in the calls of a run *)

Section Guarded.

Variable taskListGracePeriod : Time.Duration.
Variable info : TaskListInfo.
Variable taskBatchSize : Z.

Local Abbreviation Drained := (observedDrained info taskBatchSize).

Lemma app_split_notin {A} (x : A) l1 : forall l2 pre post,
  l1 ++ l2 = pre ++ x :: post -> ~ In x l1 ->
  exists pre2, pre = l1 ++ pre2 /\ l2 = pre2 ++ x :: post.
Proof.
  induction l1 as [|a l1 IH]; intros l2 pre post H Hn.
  - exists pre. auto.
  - destruct pre as [|p pre]; cbn in H; injection H as -> H.
    + exfalso. apply Hn. left. reflexivity.
    + destruct (IH _ _ _ H) as (pre2 & -> & ->).
      * intros Hin. apply Hn. right. exact Hin.
      * exists pre2. auto.
Qed.

Lemma batch_calls_no_queue_deletion i r g resp nows c :
  ~ In (CallDeleteTaskList i r)
      (CallGetTasks info taskBatchSize g :: map CallNow nows
         ++ [CallCompleteTasks info (lastTaskID (Tasks resp))
               (Z.of_nat (List.length (Tasks resp))) c]).
Proof.
  intros [H|H]; [discriminate|].
  apply in_app_iff in H. destruct H as [H|[H|[]]]; [|discriminate].
  apply in_map_iff in H. destruct H as (? & ? & _). discriminate.
Qed.

Lemma going_on_no_queue_deletion tr i r :
  TurnCalls taskListGracePeriod info taskBatchSize None tr ->
  ~ In (CallDeleteTaskList i r) tr.
Proof.
  intros H. inversion H; subst. apply batch_calls_no_queue_deletion.
Qed.

Lemma tryDelete_guarded td pre i r post :
  TryDeleteCalls taskListGracePeriod info td ->
  td = pre ++ CallDeleteTaskList i r :: post ->
  i = info /\ post = []
  /\ HasPrefix (Name info) scannerTaskListPrefix = false
  /\ exists now, pre = [CallNow now]
       /\ taskListGracePeriod <= Time.Sub now (LastUpdated info).
Proof.
  intros H E. destruct H as [Hp | now Hp Hg | now r0 Hp Hg].
  - destruct pre; discriminate.
  - destruct pre as [|? [|? ?]]; discriminate.
  - destruct pre as [|? [|? [|? ?]]]; try discriminate.
    injection E as <- <- <- <-. eauto 10.
Qed.

Lemma returning_turn_guarded st tr :
  TurnCalls taskListGracePeriod info taskBatchSize (Some st) tr ->
  queueDeletionGuarded taskListGracePeriod info taskBatchSize tr.
Proof.
  intros H pre i r post E. revert E.
  inversion H as [e E1 E2 | resp td He Htd E1 E2 | resp nows E1 E2
                 | resp nows e E1 E2
                 | resp nows n td Hne Hall Hlt Htd E1 E2 | ]; subst; intros E.
  - destruct pre as [|? [|? ?]]; discriminate.
  - change (CallGetTasks info taskBatchSize (inl resp) :: td)
      with ([CallGetTasks info taskBatchSize (inl resp)] ++ td) in E.
    apply app_split_notin in E; [|intros [F|[]]; discriminate].
    destruct E as (pre2 & -> & E).
    destruct (tryDelete_guarded _ _ _ _ _ Htd E) as (-> & -> & Hp & now & -> & Hg).
    repeat split; try assumption.
    exists [CallGetTasks info taskBatchSize (inl resp)], now.
    repeat split; [assumption|]. left. exists [], resp. auto.
  - exfalso.
    assert (Hin : In (CallDeleteTaskList i r)
              (CallGetTasks info taskBatchSize (inl resp) :: map CallNow nows))
      by (rewrite E; apply in_elt).
    destruct Hin as [F|F]; [discriminate|].
    apply in_map_iff in F. destruct F as (? & ? & _). discriminate.
  - exfalso.
    eapply batch_calls_no_queue_deletion. rewrite E. apply in_elt.
  - change (CallGetTasks info taskBatchSize (inl resp) :: map CallNow nows
              ++ CallCompleteTasks info (lastTaskID (Tasks resp))
                   (Z.of_nat (List.length (Tasks resp))) (inl n) :: td)
      with ((CallGetTasks info taskBatchSize (inl resp) :: map CallNow nows)
              ++ [CallCompleteTasks info (lastTaskID (Tasks resp))
                   (Z.of_nat (List.length (Tasks resp))) (inl n)] ++ td) in E.
    rewrite app_assoc in E.
    apply app_split_notin in E; [|apply batch_calls_no_queue_deletion].
    destruct E as (pre2 & -> & E).
    destruct (tryDelete_guarded _ _ _ _ _ Htd E) as (-> & -> & Hp & now & -> & Hg).
    repeat split; try assumption.
    eexists _, now. repeat split; [assumption|].
    right. exists [], resp, nows, n. auto.
Qed.

Lemma Drained_app p tr : Drained tr -> Drained (p ++ tr).
Proof.
  intros [(q & resp & -> & He) | (q & resp & nows & n & -> & H)].
  - left. exists (p ++ q), resp. rewrite app_assoc. auto.
  - right. exists (p ++ q), resp, nows, n. rewrite app_assoc. auto.
Qed.

Lemma RunCalls_guarded st tr :
  RunCalls taskListGracePeriod info taskBatchSize st tr ->
  queueDeletionGuarded taskListGracePeriod info taskBatchSize tr.
Proof.
  induction 1 as [| st tr Hturn | tr1 st tr2 Hturn _ IH].
  - intros [|? ?] i r post E; discriminate.
  - eapply returning_turn_guarded; eassumption.
  - intros pre i r post E.
    apply app_split_notin in E; [|eapply going_on_no_queue_deletion; eassumption].
    destruct E as (pre2 & -> & E).
    destruct (IH _ _ _ _ E) as (-> & -> & Hp & pre' & now & -> & Hg & Hd).
    repeat split; try assumption.
    exists (tr1 ++ pre'), now. rewrite app_assoc.
    repeat split; [assumption|]. apply Drained_app. exact Hd.
Qed.

End Guarded.

Section Budget.

Context {W : Type}.
Variable P : Persistence W.
Variable taskListGracePeriod : Time.Duration.
Variable info : TaskListInfo.
Variable s0 : Scavenger W.

Local Abbreviation b := (taskBatchSizeFn s0).
Local Abbreviation m := (maxTasksPerJobFn s0).
Local Abbreviation body := (deleteHandlerBody P taskListGracePeriod info b).
Local Abbreviation loop := (deleteLoop P taskListGracePeriod info b m).
Local Abbreviation reaches := (loopReaches P taskListGracePeriod info b m).

Lemma deleteHandler_status :
  fst (deleteHandler P taskListGracePeriod info s0) =
  fst (fst (loop (mkLocals None 0 0) s0)).
Proof.
  rewrite deleteHandler_eq. destruct (deleteLoop _ _ _ _ _ _ _) as [[st l] s1].
  reflexivity.
Qed.

(** **** A queue whose tasks are all expired *)

Section AllExpired.

(** In every turn the fetch succeeds, the tasks are expired when examined
    and the deletion of the batch succeeds. *)
Hypothesis Hok : forall l s,
  startsTurn P taskListGracePeriod info s0 l s ->
  exists resp w1,
    getTasks P info b (db s) = (inl resp, w1)
    /\ allExpired (Tasks resp) (readings P (List.length (Tasks resp)) w1)
    /\ (Tasks resp <> [] ->
        exists n w3,
          completeTasks P info (lastTaskID (Tasks resp))
            (Z.of_nat (List.length (Tasks resp)))
            (afterReadings P (List.length (Tasks resp)) w1) = (inl n, w3)).

Local Abbreviation fullFrom :=
  (allFullFrom P taskListGracePeriod info b m).

Lemma all_expired_loop l s :
  reaches (mkLocals None 0 0, s0) (l, s) ->
  nDeleted l = nProcessed l ->
  nDeleted (snd (fst (loop l s))) = nProcessed (snd (fst (loop l s)))
  /\ (fst (fst (loop l s)) = handlerStatusDone
      \/ fst (fst (loop l s)) = handlerStatusDefer)
  /\ (fst (fst (loop l s)) = handlerStatusDefer ->
      m <= nProcessed (snd (fst (loop l s))))
  /\ (fst (fst (loop l s)) = handlerStatusDefer <-> fullFrom l s).
Proof.
  apply (loop_ind P taskListGracePeriod info b m
    (fun l s r =>
       reaches (mkLocals None 0 0, s0) (l, s) ->
       nDeleted l = nProcessed l ->
       nDeleted (snd (fst r)) = nProcessed (snd (fst r))
       /\ (fst (fst r) = handlerStatusDone \/ fst (fst r) = handlerStatusDefer)
       /\ (fst (fst r) = handlerStatusDefer -> m <= nProcessed (snd (fst r)))
       /\ (fst (fst r) = handlerStatusDefer <-> fullFrom l s))); clear l s.
  - intros l s Hm _ Hd. cbn [fst snd].
    split; [exact Hd|]. split; [right; reflexivity|]. split; [intros _; exact Hm|].
    split; [intros _|reflexivity].
    unfold allFullFrom. intros la sa resp w1 Hr Hlt _. exfalso.
    inversion Hr; subst; lia.
  - intros l s st l' s' Hlt Hb Hreach Hd. cbn [fst snd].
    destruct (Hok l s (conj Hreach Hlt)) as (resp & w1 & Hget & Hall & Hcompl).
    assert (Hcase : st = handlerStatusDone /\ nDeleted l' = nProcessed l'
                    /\ (Tasks resp = []
                        \/ Z.of_nat (List.length (Tasks resp)) < b)).
    { destruct (Tasks resp) as [|t0 rest] eqn:Et.
      - rewrite (body_empty _ _ _ _ _ _ _ _ Hget Et) in Hb.
        injection Hb as <- <- _. auto.
      - rewrite <- Et in *. assert (Hne : Tasks resp <> [])
          by (rewrite Et; discriminate).
        destruct (Hcompl Hne) as (n & w3 & Hc).
        destruct (Z_lt_le_dec (Z.of_nat (List.length (Tasks resp))) b) as [Hs|Hf].
        + rewrite (body_short _ _ _ _ _ _ _ _ _ _ Hget Hne Hall Hc Hs) in Hb.
          injection Hb as <- <- _. cbn [nDeleted nProcessed].
          split; [reflexivity|]. split; [lia|]. right. exact Hs.
        + rewrite (body_full _ _ _ _ _ _ _ _ _ _ Hget Hne Hall Hc Hf) in Hb.
          discriminate. }
    destruct Hcase as (-> & Hd' & Hnotfull).
    split; [exact Hd'|]. split; [left; reflexivity|].
    split; [discriminate|]. split; [discriminate|].
    intros Hfull. exfalso.
    destruct (Hfull l s resp w1 (reaches_here _ _ _ _ _ _) Hlt Hget) as [Hne Hge].
    destruct Hnotfull as [He|Hs]; [congruence | lia].
  - intros l s l' s' Hlt Hb IH Hreach Hd.
    destruct (body_continues _ _ _ _ _ _ _ _ Hb)
      as (resp & w1 & n & w3 & Hget & Hne & Hall & Hc & Hge & El & Es).
    assert (Hreach' : reaches (mkLocals None 0 0, s0) (l', s'))
      by (eapply loopReaches_snoc; eassumption).
    destruct (IH Hreach') as (I1 & I2 & I3 & I4);
      [rewrite El; cbn [nDeleted nProcessed]; lia|].
    split; [exact I1|]. split; [exact I2|]. split; [exact I3|]. split.
    + intros Hst. apply I4 in Hst. unfold allFullFrom in *.
      intros lc sc resp2 w2 Hr Hlt2 Hget2.
      inversion Hr as [x Ex | la sa lb sb y Hla Hba Hrest Ex Ey]; subst.
      * rewrite Hget in Hget2. injection Hget2 as <- _. auto.
      * rewrite Hb in Hba. injection Hba as <- <-. eapply Hst; eassumption.
    + intros Hfull. apply I4. unfold allFullFrom in *.
      intros lc sc resp2 w2 Hr Hlt2 Hget2.
      eapply Hfull; [|eassumption|eassumption].
      eapply reaches_next; eassumption.
Qed.

End AllExpired.

(** **** The budget *)

Lemma budget_bound :
  (forall w resp w1,
      getTasks P info b w = (inl resp, w1) ->
      Z.of_nat (List.length (Tasks resp)) <= b) ->
  0 < m + b ->
  0 <= deletedBy P taskListGracePeriod info s0
    <= processedBy P taskListGracePeriod info s0
  /\ processedBy P taskListGracePeriod info s0 < m + b.
Proof.
  intros Hfetch Hpos. unfold deletedBy, processedBy.
  assert (Hunexp : forall (tasks : list TaskInfo) nows j,
             unexpiredAt tasks nows j -> (j < List.length tasks)%nat).
  { intros tasks nows j (t & now & Ht & _). apply nth_error_Some. congruence. }
  cut (forall l s,
          0 <= nDeleted l <= nProcessed l -> nProcessed l < m + b ->
          0 <= nDeleted (snd (fst (loop l s))) <= nProcessed (snd (fst (loop l s)))
          /\ nProcessed (snd (fst (loop l s))) < m + b).
  { intros H. apply H; cbn; lia. }
  apply (loop_ind P taskListGracePeriod info b m
    (fun l s r =>
       0 <= nDeleted l <= nProcessed l -> nProcessed l < m + b ->
       0 <= nDeleted (snd (fst r)) <= nProcessed (snd (fst r))
       /\ nProcessed (snd (fst r)) < m + b)).
  - intros l s _ Hd Hp. cbn [fst snd]. auto.
  - intros l s st l' s' Hlt Hb Hd Hp. cbn [fst snd].
    pose proof (body_cases P taskListGracePeriod info b l s) as Hc.
    rewrite Hb in Hc.
    inversion Hc as [e w1 Hget | resp w1 Hget He | resp w1 j Hget Hj Hpre
                    | resp w1 e w3 Hget Hne Hall Hcpl
                    | resp w1 n w3 Hget Hne Hall Hcpl Hs
                    | ]; subst; cbn [nDeleted nProcessed];
      try (specialize (Hfetch _ _ _ Hget));
      try (apply Hunexp in Hj); lia.
  - intros l s l' s' Hlt Hb IH Hd _.
    destruct (body_continues _ _ _ _ _ _ _ _ Hb)
      as (resp & w1 & n & w3 & Hget & _ & _ & _ & _ & -> & _).
    specialize (Hfetch _ _ _ Hget).
    apply IH; cbn [nDeleted nProcessed]; lia.
Qed.

End Budget.

(** ** The budget of a run *)

(** C3: take an invocation of [deleteHandler] in which every fetch succeeds,
    every task is expired when examined and every deletion succeeds.  Then
    the handler deletes all it processes, returns Done or Defer, and returns
    Defer exactly when the budget is used up ([maxTasksPerJob] is at most the
    number of tasks processed) and every batch it fetched was full (not
    empty, and not shorter than the page size).  Scenario E: with 150 expired
    tasks, a budget of 100 and pages of 100, the first run deletes 100 tasks
    and returns Defer (tasks 101 to 150 remain); the second run deletes the
    other 50, ends with the deletion of the queue, which succeeds, and
    returns Done. *)
Theorem defer_when_budget_exhausted :
  (forall W (P : Persistence W) g info s0,
      (forall l s,
          startsTurn P g info s0 l s ->
          exists resp w1,
            getTasks P info (taskBatchSizeFn s0) (db s) = (inl resp, w1)
            /\ allExpired (Tasks resp) (readings P (List.length (Tasks resp)) w1)
            /\ (Tasks resp <> [] ->
                exists n w3,
                  completeTasks P info (lastTaskID (Tasks resp))
                    (Z.of_nat (List.length (Tasks resp)))
                    (afterReadings P (List.length (Tasks resp)) w1) = (inl n, w3))) ->
      deletedBy P g info s0 = processedBy P g info s0
      /\ (fst (deleteHandler P g info s0) = handlerStatusDone
          \/ fst (deleteHandler P g info s0) = handlerStatusDefer)
      /\ (fst (deleteHandler P g info s0) = handlerStatusDefer <->
          maxTasksPerJobFn s0 <= processedBy P g info s0
          /\ forall l s resp w1,
               startsTurn P g info s0 l s ->
               getTasks P info (taskBatchSizeFn s0) (db s) = (inl resp, w1) ->
               Tasks resp <> []
               /\ taskBatchSizeFn s0 <= Z.of_nat (List.length (Tasks resp))))
  /\ (fst Scenario.run1 = handlerStatusDefer
      /\ deletedBy Scenario.R Scenario.grace Scenario.tq
           (Scenario.on (Scenario.store150, []) 100 100 10) = 100
      /\ MemStore.rows (fst (db (snd Scenario.run1)))
         = MemStore.rowsFrom 101 50 (150 * Scenario.hour)
      /\ fst Scenario.run2 = handlerStatusDone
      /\ deletedBy Scenario.R Scenario.grace Scenario.tq (snd Scenario.run1) = 50
      /\ MemStore.rows (fst (db (snd Scenario.run2))) = []
      /\ last (calls (snd Scenario.run2)) (CallNow 0)
         = CallDeleteTaskList Scenario.tq None
      /\ MemStore.present (fst (db (snd Scenario.run2))) = false).
Proof.
  split.
  - intros W P g info s0 Hok.
    destruct (all_expired_loop P g info s0 Hok (mkLocals None 0 0) s0)
      as (Hd & Hst & Hm & Hfull); [apply reaches_here | reflexivity |].
    rewrite deleteHandler_status. unfold deletedBy, processedBy.
    split; [exact Hd|]. split; [exact Hst|]. split.
    + intros E. split; [exact (Hm E)|].
      intros l s resp w1 [Hr Hlt] Hget. exact (proj1 Hfull E l s resp w1 Hr Hlt Hget).
    + intros [_ H]. apply Hfull. intros l s resp w1 Hr Hlt Hget.
      exact (H l s resp w1 (conj Hr Hlt) Hget).
  - vm_compute. repeat split; reflexivity.
Qed.

(** C9, as the code has it: the budget is checked before each fetch only.
    When no fetch returns more tasks than the page size, and unless the
    budget and the page size add up to nothing
    ([maxTasksPerJob + taskBatchSize <= 0]), an invocation of [deleteHandler]
    deletes no more than it processes and processes less than
    [maxTasksPerJob + taskBatchSize] tasks.  The bound is reached: with four
    expired tasks, pages of 2 and a budget of 3, a run processes
    3 + 2 - 1 tasks. *)
Theorem budget_overshoot_bound :
  (forall W (P : Persistence W) g info s0,
      (forall w resp w1,
          getTasks P info (taskBatchSizeFn s0) w = (inl resp, w1) ->
          Z.of_nat (List.length (Tasks resp)) <= taskBatchSizeFn s0) ->
      0 < maxTasksPerJobFn s0 + taskBatchSizeFn s0 ->
      0 <= deletedBy P g info s0 <= processedBy P g info s0
      /\ processedBy P g info s0 < maxTasksPerJobFn s0 + taskBatchSizeFn s0)
  /\ processedBy Scenario.P Scenario.grace Scenario.tq Scenario.tightQueue
     = maxTasksPerJobFn Scenario.tightQueue
       + taskBatchSizeFn Scenario.tightQueue - 1.
Proof.
  split.
  - intros W P g info s0. apply budget_bound.
  - reflexivity.
Qed.

(** * The claims on concrete queues *)

Module Examples.

Import Scenario.

Lemma first_turn {V} (Q : Persistence V) g info (s : Scavenger V) :
  0 < maxTasksPerJobFn s -> startsTurn Q g info s start s.
Proof. apply startsTurn_first. Qed.

Lemma mixed_unexpired :
  unexpiredAt mixedRows (readings R 4 mixedFetched) 2.
Proof. exists (freshRow 3), (200 * hour + 2). repeat split. Defined.

Lemma short_circuit_witness :
  startsTurn R grace tq mixedQueue start mixedQueue
  /\ getTasks R tq 10 (db mixedQueue)
     = (inl (mkGetTasksResponse mixedRows), mixedFetched)
  /\ unexpiredAt mixedRows (readings R 4 mixedFetched) 2
  /\ exists j s' line,
       (j <= 2)%nat
       /\ deleteHandler R grace tq mixedQueue = (handlerStatusDone, s')
       /\ calls s' =
            calls mixedQueue
              ++ CallGetTasks tq 10 (inl (mkGetTasksResponse mixedRows))
                 :: map CallNow (readings P (readingsUpTo mixedRows j)
                                   (fst mixedFetched))
       /\ logger s' = logger mixedQueue ++ [line] /\ level line = LevelInfo.
Proof.
  assert (Hturn := first_turn R grace tq mixedQueue eq_refl).
  assert (Hget : getTasks R tq 10 (db mixedQueue)
                 = (inl (mkGetTasksResponse mixedRows), mixedFetched))
    by reflexivity.
  split; [exact Hturn|]. split; [exact Hget|]. split; [exact mixed_unexpired|].
  exact (expiry_scan_short_circuit P grace tq mixedQueue start mixedQueue
           _ _ 2 Hturn Hget mixed_unexpired).
Defined.

Lemma left_in_storage_witness :
  startsTurn R grace tq mixedQueue start mixedQueue
  /\ getTasks R tq 10 (db mixedQueue)
     = (inl (mkGetTasksResponse mixedRows), mixedFetched)
  /\ unexpiredAt mixedRows (readings R 4 mixedFetched) 2
  /\ exists j s',
       (j <= 2)%nat
       /\ deleteHandler R grace tq mixedQueue = (handlerStatusDone, s')
       /\ allExpired (firstn j mixedRows) (firstn j (readings R 4 mixedFetched))
       /\ (forall tr,
             calls s' =
               calls mixedQueue
                 ++ CallGetTasks tq 10 (inl (mkGetTasksResponse mixedRows)) :: tr ->
             Forall (fun c => isDeletion c = false) tr)
       /\ fst (db s') = afterReadings P (readingsUpTo mixedRows j) (fst mixedFetched)
       /\ task_nDeleted (stats s') =
            AddInt64 (task_nDeleted (stats mixedQueue)) (nDeleted start).
Proof.
  assert (Hturn := first_turn R grace tq mixedQueue eq_refl).
  assert (Hget : getTasks R tq 10 (db mixedQueue)
                 = (inl (mkGetTasksResponse mixedRows), mixedFetched))
    by reflexivity.
  split; [exact Hturn|]. split; [exact Hget|]. split; [exact mixed_unexpired|].
  exact (unexpired_batch_left_in_storage P grace tq mixedQueue start mixedQueue
           _ _ 2 Hturn Hget mixed_unexpired).
Defined.

Lemma zero_expiry_witness :
  startsTurn R grace tq foreverQueue start foreverQueue
  /\ getTasks R tq 10 (db foreverQueue)
     = (inl (mkGetTasksResponse foreverRows), foreverFetched)
  /\ In (foreverRow 2) foreverRows /\ zeroExpiry (foreverRow 2)
  /\ exists s' nows,
       deleteHandler R grace tq foreverQueue = (handlerStatusDone, s')
       /\ calls s' =
            calls foreverQueue
              ++ CallGetTasks tq 10 (inl (mkGetTasksResponse foreverRows))
                 :: map CallNow nows.
Proof.
  assert (Hturn := first_turn R grace tq foreverQueue eq_refl).
  assert (Hget : getTasks R tq 10 (db foreverQueue)
                 = (inl (mkGetTasksResponse foreverRows), foreverFetched))
    by reflexivity.
  assert (Hin : In (foreverRow 2) foreverRows) by (right; left; reflexivity).
  assert (Hz : zeroExpiry (foreverRow 2)) by (left; reflexivity).
  split; [exact Hturn|]. split; [exact Hget|]. split; [exact Hin|].
  split; [exact Hz|].
  exact (proj2 (zero_expiry_never_reclaimed P grace) tq foreverQueue start
           foreverQueue _ _ _ Hturn Hget Hin Hz).
Defined.

Lemma orphan_failure_witness :
  (calls (snd (completeOrphanTasksHandler R orphansLimited)) =
     calls orphansLimited
       ++ [CallGetOrphanTasks 10 (inl (mkGetOrphanTasksResponse orphans));
           CallCompleteTask (taskListOfKey (orphan 1)) 1 None]
       ++ CallCompleteTask (taskListOfKey (orphan 2)) 2
            (Some ErrPersistenceLimitExceeded) :: []
   /\ fst (completeOrphanTasksHandler R orphansLimited) = handlerStatusDefer)
  /\ (calls (snd (completeOrphanTasksHandler R orphansFailing)) =
        calls orphansFailing
          ++ [CallGetOrphanTasks 10 (inl (mkGetOrphanTasksResponse orphans));
              CallCompleteTask (taskListOfKey (orphan 1)) 1 None]
          ++ CallCompleteTask (taskListOfKey (orphan 2)) 2
               (Some (ErrOther "timeout")) :: []
      /\ fst (completeOrphanTasksHandler R orphansFailing) = handlerStatusErr).
Proof.
  split.
  - assert (Hcalls : calls (snd (completeOrphanTasksHandler R orphansLimited)) =
        calls orphansLimited
          ++ [CallGetOrphanTasks 10 (inl (mkGetOrphanTasksResponse orphans));
              CallCompleteTask (taskListOfKey (orphan 1)) 1 None]
          ++ CallCompleteTask (taskListOfKey (orphan 2)) 2
               (Some ErrPersistenceLimitExceeded) :: []) by reflexivity.
    split; [exact Hcalls|].
    exact (proj1 (proj2 (orphan_handler_failure P orphansLimited _ _ _ _
                           Hcalls eq_refl)) eq_refl).
  - assert (Hcalls : calls (snd (completeOrphanTasksHandler R orphansFailing)) =
        calls orphansFailing
          ++ [CallGetOrphanTasks 10 (inl (mkGetOrphanTasksResponse orphans));
              CallCompleteTask (taskListOfKey (orphan 1)) 1 None]
          ++ CallCompleteTask (taskListOfKey (orphan 2)) 2
               (Some (ErrOther "timeout")) :: []) by reflexivity.
    split; [exact Hcalls|].
    refine (proj2 (proj2 (orphan_handler_failure P orphansFailing _ _ _ _
                           Hcalls eq_refl)) _).
    discriminate.
Defined.

Lemma orphan_success_witness :
  (calls (snd (completeOrphanTasksHandler R orphansPage10)) =
     calls orphansPage10 ++ orphanCalls 10 orphans
   /\ (forall c, In c (orphanCalls 10 orphans) -> callError c = None)
   /\ fst (completeOrphanTasksHandler R orphansPage10) = handlerStatusDone)
  /\ (calls (snd (completeOrphanTasksHandler R orphansPage2)) =
        calls orphansPage2 ++ orphanCalls 2 [orphan 1; orphan 2]
      /\ (forall c, In c (orphanCalls 2 [orphan 1; orphan 2]) -> callError c = None)
      /\ fst (completeOrphanTasksHandler R orphansPage2) = handlerStatusDefer).
Proof.
  split.
  - assert (Hcalls : calls (snd (completeOrphanTasksHandler R orphansPage10)) =
              calls orphansPage10 ++ orphanCalls 10 orphans) by reflexivity.
    assert (Hok : forall c, In c (orphanCalls 10 orphans) -> callError c = None).
    { intros c [<-|[<-|[<-|[<-|[]]]]]; reflexivity. }
    split; [exact Hcalls|]. split; [exact Hok|].
    destruct (orphan_handler_success P orphansPage10 _ Hcalls Hok)
      as (resp & Etr & Hdone & _).
    injection Etr as <- _. apply Hdone. reflexivity.
  - assert (Hcalls : calls (snd (completeOrphanTasksHandler R orphansPage2)) =
              calls orphansPage2 ++ orphanCalls 2 [orphan 1; orphan 2])
      by reflexivity.
    assert (Hok : forall c, In c (orphanCalls 2 [orphan 1; orphan 2]) ->
                            callError c = None).
    { intros c [<-|[<-|[<-|[]]]]; reflexivity. }
    split; [exact Hcalls|]. split; [exact Hok|].
    destruct (orphan_handler_success P orphansPage2 _ Hcalls Hok)
      as (resp & Etr & _ & Hdefer).
    injection Etr as <- _. apply Hdefer. cbn. lia.
Defined.

Lemma persistence_error_witness :
  (startsTurn P grace tq limitedQueue start limitedQueue
   /\ fst (getTasks P tq 100 (db limitedQueue)) = inr ErrPersistenceLimitExceeded
   /\ fst (deleteHandler P grace tq limitedQueue) = handlerStatusErr)
  /\ (startsTurn P grace tq failingQueue start failingQueue
      /\ fst (getTasks P tq 100 (db failingQueue))
         = inl (mkGetTasksResponse failingRows)
      /\ fst (completeTasks P tq 2 2
                (afterReadings P 2 (snd (getTasks P tq 100 (db failingQueue)))))
         = inr (ErrOther "timeout")
      /\ fst (deleteHandler P grace tq failingQueue) = handlerStatusErr).
Proof.
  split.
  - assert (Hturn := first_turn P grace tq limitedQueue eq_refl).
    split; [exact Hturn|]. split; [reflexivity|].
    erewrite (proj1 (deleteHandler_persistence_error P grace tq limitedQueue
                       start limitedQueue Hturn)).
    + reflexivity.
    + reflexivity.
  - assert (Hturn := first_turn P grace tq failingQueue eq_refl).
    split; [exact Hturn|]. split; [reflexivity|]. split; [reflexivity|].
    erewrite (proj1 (proj2 (deleteHandler_persistence_error P grace tq failingQueue
                              start failingQueue Hturn))).
    + reflexivity.
    + reflexivity.
    + discriminate.
    + repeat constructor.
    + reflexivity.
Defined.

Lemma MemStore_getTasks_bound info b w resp w1 :
  0 <= b ->
  getTasks P info b w = (inl resp, w1) ->
  Z.of_nat (List.length (Tasks resp)) <= b.
Proof.
  intros Hb. cbn. unfold MemStore.getTasks.
  destruct (MemStore.nextFault w) as [[e|] st1]; [discriminate|].
  intros H. injection H as <- _. cbn [Tasks].
  destruct (MemStore.sameQueue info st1); cbn [List.length]; [|lia].
  pose proof (length_firstn (Z.to_nat b) (MemStore.rows st1)) as Hl.
  lia.
Defined.

Lemma budget_bound_witness :
  (forall w resp w1,
      getTasks P tq (taskBatchSizeFn tightQueue) w = (inl resp, w1) ->
      Z.of_nat (List.length (Tasks resp)) <= taskBatchSizeFn tightQueue)
  /\ 0 < maxTasksPerJobFn tightQueue + taskBatchSizeFn tightQueue
  /\ 0 <= deletedBy P grace tq tightQueue <= processedBy P grace tq tightQueue
  /\ processedBy P grace tq tightQueue
     < maxTasksPerJobFn tightQueue + taskBatchSizeFn tightQueue.
Proof.
  assert (Hfetch : forall w resp w1,
             getTasks P tq (taskBatchSizeFn tightQueue) w = (inl resp, w1) ->
             Z.of_nat (List.length (Tasks resp)) <= taskBatchSizeFn tightQueue).
  { intros w resp w1. apply MemStore_getTasks_bound. cbn. lia. }
  assert (Hpos : 0 < maxTasksPerJobFn tightQueue + taskBatchSizeFn tightQueue)
    by (cbn; lia).
  split; [exact Hfetch|]. split; [exact Hpos|].
  exact (proj1 budget_overshoot_bound _ P grace tq tightQueue Hfetch Hpos).
Defined.

(** C9 as stated fails: with no budget and no page nothing is fetched and
    nothing processed, and 0 is not below 0 + 0. *)
Lemma zero_budget_zero_page :
  (forall w resp w1,
      getTasks P tq (taskBatchSizeFn zeroQueue) w = (inl resp, w1) ->
      Z.of_nat (List.length (Tasks resp)) <= taskBatchSizeFn zeroQueue)
  /\ processedBy P grace tq zeroQueue = 0
  /\ ~ (processedBy P grace tq zeroQueue
        < maxTasksPerJobFn zeroQueue + taskBatchSizeFn zeroQueue).
Proof.
  split; [|split].
  - intros w resp w1. apply MemStore_getTasks_bound. cbn. lia.
  - reflexivity.
  - vm_compute. discriminate.
Qed.

Lemma small_queue_turns l s :
  startsTurn P grace tq smallQueue l s -> l = start /\ s = smallQueue.
Proof.
  intros [Hr Hlt].
  inversion Hr as [x Ex | la sa lb sb y Hla Hb Hrest Ex Ey]; subst.
  - auto.
  - exfalso. vm_compute in Hb. injection Hb as <- <-.
    inversion Hrest as [x Ex | lc sc ld sd y Hlc Hb' Hrest' Ex Ey]; subst.
    + vm_compute in Hlt. discriminate.
    + vm_compute in Hlc. discriminate.
Defined.

Lemma defer_witness :
  (forall l s,
      startsTurn P grace tq smallQueue l s ->
      exists resp w1,
        getTasks P tq (taskBatchSizeFn smallQueue) (db s) = (inl resp, w1)
        /\ allExpired (Tasks resp) (readings P (List.length (Tasks resp)) w1)
        /\ (Tasks resp <> [] ->
            exists n w3,
              completeTasks P tq (lastTaskID (Tasks resp))
                (Z.of_nat (List.length (Tasks resp)))
                (afterReadings P (List.length (Tasks resp)) w1) = (inl n, w3)))
  /\ deletedBy P grace tq smallQueue = processedBy P grace tq smallQueue
  /\ (fst (deleteHandler P grace tq smallQueue) = handlerStatusDone
      \/ fst (deleteHandler P grace tq smallQueue) = handlerStatusDefer)
  /\ (fst (deleteHandler P grace tq smallQueue) = handlerStatusDefer <->
      maxTasksPerJobFn smallQueue <= processedBy P grace tq smallQueue
      /\ forall l s resp w1,
           startsTurn P grace tq smallQueue l s ->
           getTasks P tq (taskBatchSizeFn smallQueue) (db s) = (inl resp, w1) ->
           Tasks resp <> []
           /\ taskBatchSizeFn smallQueue <= Z.of_nat (List.length (Tasks resp))).
Proof.
  assert (Hok : forall l s,
      startsTurn P grace tq smallQueue l s ->
      exists resp w1,
        getTasks P tq (taskBatchSizeFn smallQueue) (db s) = (inl resp, w1)
        /\ allExpired (Tasks resp) (readings P (List.length (Tasks resp)) w1)
        /\ (Tasks resp <> [] ->
            exists n w3,
              completeTasks P tq (lastTaskID (Tasks resp))
                (Z.of_nat (List.length (Tasks resp)))
                (afterReadings P (List.length (Tasks resp)) w1) = (inl n, w3))).
  { intros l s Hturn. destruct (small_queue_turns l s Hturn) as [-> ->].
    eexists _, _. split; [reflexivity|]. split; [repeat constructor|].
    intros _. eexists _, _. reflexivity. }
  split; [exact Hok|].
  exact (proj1 defer_when_budget_exhausted _ P grace tq smallQueue Hok).
Defined.

End Examples.

(** * Further properties of the handlers *)

(** ** Failures and deletions of the queue in the calls of a run *)

Section RunOutcome.

Variable taskListGracePeriod : Time.Duration.
Variable info : TaskListInfo.
Variable taskBatchSize : Z.

Local Abbreviation Turn := (TurnCalls taskListGracePeriod info taskBatchSize).
Local Abbreviation Run := (RunCalls taskListGracePeriod info taskBatchSize).

Lemma tryDelete_calls_harmless td c :
  TryDeleteCalls taskListGracePeriod info td -> In c td ->
  callError c = None \/ isQueueDeletion c = true.
Proof.
  intros H Hin. destruct H; cbn in Hin;
    repeat (destruct Hin as [<-|Hin]; [auto|]); destruct Hin.
Qed.

Lemma clock_readings_harmless nows c :
  In c (map CallNow nows) -> callError c = None.
Proof.
  intros H. apply in_map_iff in H. destruct H as (t & <- & _). reflexivity.
Qed.

(** In a turn that does not return Err, no fetch and no deletion of a batch
    fails. *)
Lemma turn_without_failure o tr c :
  Turn o tr -> o <> Some handlerStatusErr -> In c tr ->
  callError c = None \/ isQueueDeletion c = true.
Proof.
  intros H Ho Hin.
  destruct H as [e | resp td He Htd | resp nows | resp nows e
                | resp nows n td Hne Hall Hlt Htd | resp nows n Hne Hall Hge];
    try congruence; destruct Hin as [<-|Hin]; auto.
  - eapply tryDelete_calls_harmless; eassumption.
  - left. eapply clock_readings_harmless; eassumption.
  - apply in_app_iff in Hin. destruct Hin as [Hin|[<-|Hin]]; auto.
    + left. eapply clock_readings_harmless; eassumption.
    + eapply tryDelete_calls_harmless; eassumption.
  - apply in_app_iff in Hin. destruct Hin as [Hin|[<-|[]]]; auto.
    left. eapply clock_readings_harmless; eassumption.
Qed.

(** A turn that returns Err ends with the call that failed, the only one. *)
Lemma turn_with_failure tr :
  Turn (Some handlerStatusErr) tr ->
  exists pre c e,
    tr = pre ++ [c] /\ callError c = Some e /\ isQueueDeletion c = false
    /\ forall c', In c' pre -> callError c' = None.
Proof.
  intros H. inversion H as [e E1 E2 | | | resp nows e E1 E2 | | ]; subst.
  - exists [], (CallGetTasks info taskBatchSize (inr e)), e.
    repeat split. intros c' [].
  - exists (CallGetTasks info taskBatchSize (inl resp) :: map CallNow nows),
      (CallCompleteTasks info (lastTaskID (Tasks resp))
         (Z.of_nat (List.length (Tasks resp))) (inr e)), e.
    repeat split. intros c' [<-|Hin]; [reflexivity|].
    eapply clock_readings_harmless; eassumption.
Qed.

Lemma failure_ends_run st tr :
  Run st tr ->
  forall pre c post e,
    tr = pre ++ c :: post -> callError c = Some e -> isQueueDeletion c = false ->
    post = [] /\ st = handlerStatusErr.
Proof.
  induction 1 as [| st tr Hturn | tr1 st tr2 Hturn _ IH];
    intros pre c post e E He Hq.
  - destruct pre; discriminate.
  - destruct st.
    + exfalso.
      destruct (turn_without_failure _ _ c Hturn) as [F|F];
        [discriminate | rewrite E; apply in_elt | congruence | congruence].
    + split; [|reflexivity].
      destruct (turn_with_failure _ Hturn) as (pre0 & c0 & e0 & -> & _ & _ & Hpre).
      apply app_split_notin in E.
      * destruct E as (pre2 & -> & E).
        destruct pre2 as [|x pre2]; [injection E as _ <-; reflexivity|].
        injection E as _ E. destruct pre2; discriminate.
      * intros Hin. apply Hpre in Hin. congruence.
    + exfalso.
      destruct (turn_without_failure _ _ c Hturn) as [F|F];
        [discriminate | rewrite E; apply in_elt | congruence | congruence].
  - apply app_split_notin in E.
    + destruct E as (pre2 & -> & E). eapply IH; eassumption.
    + intros Hin.
      destruct (turn_without_failure _ _ c Hturn) as [F|F];
        [discriminate | exact Hin | congruence | congruence].
Qed.

Lemma err_run_ends_with_failure st tr :
  Run st tr -> st = handlerStatusErr ->
  exists pre c e,
    tr = pre ++ [c] /\ callError c = Some e /\ isQueueDeletion c = false.
Proof.
  induction 1 as [| st tr Hturn | tr1 st tr2 Hturn _ IH]; intros Est.
  - discriminate.
  - subst st. destruct (turn_with_failure _ Hturn) as (pre & c & e & E & He & Hq & _).
    eauto 6.
  - destruct (IH Est) as (pre & c & e & -> & He & Hq).
    exists (tr1 ++ pre), c, e. rewrite app_assoc. auto.
Qed.

Lemma queue_deletion_in_done_run st tr i r :
  Run st tr -> In (CallDeleteTaskList i r) tr ->
  st = handlerStatusDone /\ i = info.
Proof.
  induction 1 as [| st tr Hturn | tr1 st tr2 Hturn _ IH]; intros Hin.
  - destruct Hin.
  - apply in_split in Hin. destruct Hin as (pre & post & E).
    destruct (returning_turn_guarded _ _ _ _ _ Hturn _ _ _ _ E) as (-> & _).
    split; [|reflexivity].
    destruct st; [reflexivity | exfalso | exfalso; inversion Hturn].
    revert E.
    inversion Hturn as [e E1 E2 | | | resp nows e E1 E2 | | ]; subst; intros E.
    + destruct pre as [|? [|? ?]]; discriminate.
    + eapply batch_calls_no_queue_deletion. rewrite E. apply in_elt.
  - apply in_app_iff in Hin. destruct Hin as [Hin|Hin]; [|auto].
    exfalso. eapply going_on_no_queue_deletion; eassumption.
Qed.

End RunOutcome.

(** ** Deletions of batches in the calls of a run *)

Section Justified.

Variable taskListGracePeriod : Time.Duration.
Variable info : TaskListInfo.
Variable taskBatchSize : Z.

Local Abbreviation Justified := (deletionJustified info taskBatchSize).

Lemma app_split {A} (c : A) l1 : forall l2 pre post,
  l1 ++ l2 = pre ++ c :: post ->
  (exists post1, l1 = pre ++ c :: post1 /\ post = post1 ++ l2)
  \/ (exists pre2, pre = l1 ++ pre2 /\ l2 = pre2 ++ c :: post).
Proof.
  induction l1 as [|a l1 IH]; intros l2 pre post E.
  - right. exists pre. auto.
  - destruct pre as [|x pre]; cbn in E; injection E as -> E.
    + left. exists l1. auto.
    + destruct (IH _ _ _ E) as [(post1 & -> & ->) | (pre2 & -> & ->)].
      * left. exists post1. auto.
      * right. exists pre2. auto.
Qed.

Lemma justified_without_deletion tr :
  (forall c, In c tr -> isBatchDeletion c = false) -> Justified tr.
Proof.
  intros H pre i id lim r post E.
  specialize (H (CallCompleteTasks i id lim r)). rewrite E in H.
  specialize (H (in_elt _ _ _)). discriminate.
Qed.

Lemma justified_app tr1 tr2 :
  Justified tr1 -> Justified tr2 -> Justified (tr1 ++ tr2).
Proof.
  intros H1 H2 pre i id lim r post E.
  destruct (app_split _ _ _ _ _ E) as [(post1 & E1 & _) | (pre2 & -> & E2)].
  - exact (H1 _ _ _ _ _ _ E1).
  - destruct (H2 _ _ _ _ _ _ E2) as (p & resp & nows & -> & Hrest).
    exists (tr1 ++ p), resp, nows. rewrite app_assoc. auto.
Qed.

Lemma tryDelete_calls_no_batch_deletion td c :
  TryDeleteCalls taskListGracePeriod info td -> In c td -> isBatchDeletion c = false.
Proof.
  intros H Hin. destruct H; cbn in Hin;
    repeat (destruct Hin as [<-|Hin]; [reflexivity|]); destruct Hin.
Qed.

Lemma fetch_and_readings_no_batch_deletion g nows c :
  In c (CallGetTasks info taskBatchSize g :: map CallNow nows) ->
  isBatchDeletion c = false.
Proof.
  intros [<-|H]; [reflexivity|].
  apply in_map_iff in H. destruct H as (t & <- & _). reflexivity.
Qed.

Lemma justified_batch resp nows r td :
  Tasks resp <> [] -> allExpired (Tasks resp) nows ->
  (forall c, In c td -> isBatchDeletion c = false) ->
  Justified
    (CallGetTasks info taskBatchSize (inl resp) :: map CallNow nows
       ++ CallCompleteTasks info (lastTaskID (Tasks resp))
            (Z.of_nat (List.length (Tasks resp))) r :: td).
Proof.
  intros Hne Hall Htd pre i id lim r' post E.
  change (CallGetTasks info taskBatchSize (inl resp) :: map CallNow nows
            ++ CallCompleteTasks info (lastTaskID (Tasks resp))
                 (Z.of_nat (List.length (Tasks resp))) r :: td)
    with ((CallGetTasks info taskBatchSize (inl resp) :: map CallNow nows)
            ++ CallCompleteTasks info (lastTaskID (Tasks resp))
                 (Z.of_nat (List.length (Tasks resp))) r :: td) in E.
  destruct (app_split _ _ _ _ _ E) as [(post1 & E1 & _) | (pre2 & -> & E2)].
  - exfalso.
    assert (F : isBatchDeletion (CallCompleteTasks i id lim r') = false)
      by (eapply fetch_and_readings_no_batch_deletion; rewrite E1; apply in_elt).
    discriminate.
  - destruct pre2 as [|x pre2].
    + injection E2 as <- <- <- _ _.
      exists [], resp, nows. rewrite app_nil_r. auto 10.
    + exfalso. injection E2 as _ E2.
      assert (F : isBatchDeletion (CallCompleteTasks i id lim r') = false)
        by (apply Htd; rewrite E2; apply in_elt).
      discriminate.
Qed.

End Justified.

(** ** What a run does to the statistics and the log *)

Section Effects.

Context {W : Type}.
Variable P0 : Persistence W.
Variable taskListGracePeriod : Time.Duration.

Local Abbreviation R := (recording P0).

Ltac mred_state :=
  cbv beta iota zeta delta
    [bind ret call log addTaskDeleted addTaskProcessed addTasklistDeleted
     withStats withDb];
  cbn [recording completeTask getOrphanTasks deleteTaskList timeNow db];
  unfold record; cbn [fst snd].

(** [tryDeleteTaskList] leaves the task counters alone, counts the queue when
    its deletion succeeded, and logs only its own lines. *)
Lemma tryDelete_effect info s :
  exists td lg,
    calls (snd (tryDeleteTaskList R taskListGracePeriod info s)) = calls s ++ td
    /\ TryDeleteCalls taskListGracePeriod info td
    /\ task_nDeleted (stats (snd (tryDeleteTaskList R taskListGracePeriod info s)))
       = task_nDeleted (stats s)
    /\ task_nProcessed (stats (snd (tryDeleteTaskList R taskListGracePeriod info s)))
       = task_nProcessed (stats s)
    /\ tasklist_nDeleted (stats (snd (tryDeleteTaskList R taskListGracePeriod info s)))
       = (if queueDeleted td then AddInt64 (tasklist_nDeleted (stats s)) 1
          else tasklist_nDeleted (stats s))
    /\ logger (snd (tryDeleteTaskList R taskListGracePeriod info s)) = logger s ++ lg
    /\ Forall isTryDeleteLine lg.
Proof.
  unfold tryDeleteTaskList.
  destruct (HasPrefix (Name info) scannerTaskListPrefix) eqn:Epre.
  - exists [], []. rewrite !app_nil_r.
    repeat split; try reflexivity; constructor; assumption.
  - destruct s as [[w tr0] st lg0 b m n]. mred_state.
    destruct (timeNow P0 w) as [now w1].
    destruct (Time.Sub now (LastUpdated info) <? taskListGracePeriod) eqn:Eg.
    + exists [CallNow now], []. cbn. rewrite app_nil_r.
      repeat split; try reflexivity; try constructor.
      * assumption.
      * apply Z.ltb_lt; assumption.
    + mred_state. destruct (deleteTaskList P0 info w1) as [[e|] w2].
      * exists [CallNow now; CallDeleteTaskList info (Some e)],
          [mkLogLine LevelError "deleteTaskList error" [TagError e]].
        unfold calls. cbn. rewrite <- app_assoc.
        repeat split; try reflexivity.
        -- apply try_delete; [assumption | apply Z.ltb_ge; assumption].
        -- repeat constructor.
      * exists [CallNow now; CallDeleteTaskList info None],
          [mkLogLine LevelInfo "tasklist deleted"
             [TagWorkflowDomainID (DomainID info);
              TagWorkflowTaskListName (Name info); TagTaskType (TaskType info)]].
        unfold calls. cbn. rewrite <- app_assoc.
        repeat split; try reflexivity.
        -- apply try_delete; [assumption | apply Z.ltb_ge; assumption].
        -- constructor; [right; split; reflexivity | constructor].
Qed.

Lemma queueDeleted_fetch_and_readings info b g nows :
  queueDeleted (CallGetTasks info b g :: map CallNow nows) = false.
Proof.
  cbn. induction nows as [|t nows IH]; [reflexivity | exact IH].
Qed.

Lemma queueDeleted_batch info b g nows id lim r :
  queueDeleted (CallGetTasks info b g :: map CallNow nows
                  ++ [CallCompleteTasks info id lim r]) = false.
Proof.
  change (CallGetTasks info b g :: map CallNow nows
            ++ [CallCompleteTasks info id lim r])
    with ((CallGetTasks info b g :: map CallNow nows)
            ++ [CallCompleteTasks info id lim r]).
  unfold queueDeleted. rewrite existsb_app.
  fold (queueDeleted (CallGetTasks info b g :: map CallNow nows)).
  rewrite queueDeleted_fetch_and_readings. reflexivity.
Qed.

Lemma queueDeleted_batch_then info b g nows id lim r td :
  queueDeleted (CallGetTasks info b g :: map CallNow nows
                  ++ CallCompleteTasks info id lim r :: td) = queueDeleted td.
Proof.
  cbn. induction nows as [|t nows IH]; [reflexivity | exact IH].
Qed.

(** The effect of one turn of the loop: its calls, with every deletion of a
    batch justified; the task counters untouched; the queue counted when it
    was deleted; only lines of [tryDeleteTaskList] logged. *)
Lemma body_effect info b l s :
  exists tr lg,
    calls (snd (deleteHandlerBody R taskListGracePeriod info b l s)) = calls s ++ tr
    /\ deletionJustified info b tr
    /\ task_nDeleted (stats (snd (deleteHandlerBody R taskListGracePeriod info b l s)))
       = task_nDeleted (stats s)
    /\ task_nProcessed (stats (snd (deleteHandlerBody R taskListGracePeriod info b l s)))
       = task_nProcessed (stats s)
    /\ tasklist_nDeleted
         (stats (snd (deleteHandlerBody R taskListGracePeriod info b l s)))
       = (if queueDeleted tr then AddInt64 (tasklist_nDeleted (stats s)) 1
          else tasklist_nDeleted (stats s))
    /\ logger (snd (deleteHandlerBody R taskListGracePeriod info b l s))
       = logger s ++ lg
    /\ Forall isTryDeleteLine lg.
Proof.
  pose proof (body_cases R taskListGracePeriod info b l s) as Hc.
  inversion Hc as [e w1 Hget E | resp w1 Hget He E | resp w1 j Hget Hj Hpre E
                  | resp w1 e w3 Hget Hne Hall Hcpl E
                  | resp w1 n w3 Hget Hne Hall Hcpl Hlt E
                  | resp w1 n w3 Hget Hne Hall Hcpl Hge E];
    clear Hc E; cbn [fst snd]; apply getTasks_recording in Hget;
    try (apply completeTasks_recording in Hcpl;
         rewrite afterReadings_calls, Hget in Hcpl);
    try rewrite readings_recording' in Hall.
  - exists [CallGetTasks info b (inr e)], []. rewrite app_nil_r.
    split; [unfold calls; cbn [db withDb]; exact Hget|].
    split; [|repeat split; constructor].
    apply justified_without_deletion. intros c [<-|[]]. reflexivity.
  - destruct (tryDelete_effect info (withDb s w1))
      as (td & lg & Htd & Hshape & Hd & Hp & Hq & Hlg & Hlines).
    exists (CallGetTasks info b (inl resp) :: td), lg.
    split; [|split; [|split; [|split; [|split; [|split]]]]]; try assumption.
    + rewrite Htd. unfold calls at 1. cbn [db withDb]. rewrite Hget.
      rewrite <- app_assoc. reflexivity.
    + apply justified_without_deletion. intros c [<-|Hin]; [reflexivity|].
      eapply tryDelete_calls_no_batch_deletion; eassumption.
  - exists (CallGetTasks info b (inl resp)
            :: map CallNow (readings P0 (readingsUpTo (Tasks resp) j) (fst w1))), [].
    rewrite app_nil_r, queueDeleted_fetch_and_readings.
    split; [|split; [|repeat split; constructor]].
    + unfold calls at 1. cbn [db withDb]. rewrite afterReadings_calls, Hget.
      rewrite <- app_assoc. reflexivity.
    + apply justified_without_deletion.
      apply fetch_and_readings_no_batch_deletion.
  - exists (CallGetTasks info b (inl resp)
              :: map CallNow (readings P0 (List.length (Tasks resp)) (fst w1))
              ++ [CallCompleteTasks info (lastTaskID (Tasks resp))
                    (Z.of_nat (List.length (Tasks resp))) (inr e)]), [].
    rewrite app_nil_r.
    split; [unfold calls; cbn [db withDb]; rewrite Hcpl;
            rewrite <- !app_assoc; reflexivity|].
    rewrite queueDeleted_batch.
    split; [|repeat split; constructor].
    apply justified_batch; [assumption | assumption | intros c []].
  - destruct (tryDelete_effect info (withDb s w3))
      as (td & lg & Htd & Hshape & Hd & Hp & Hq & Hlg & Hlines).
    exists (CallGetTasks info b (inl resp)
              :: map CallNow (readings P0 (List.length (Tasks resp)) (fst w1))
              ++ CallCompleteTasks info (lastTaskID (Tasks resp))
                   (Z.of_nat (List.length (Tasks resp))) (inl n) :: td), lg.
    split; [|split; [|split; [|split; [|split; [|split]]]]]; try assumption.
    + rewrite Htd. unfold calls at 1. cbn [db withDb]. rewrite Hcpl.
      rewrite <- !app_assoc. reflexivity.
    + apply justified_batch; [assumption | assumption |].
      intros c Hin. eapply tryDelete_calls_no_batch_deletion; eassumption.
    + rewrite Hq, queueDeleted_batch_then. reflexivity.
  - exists (CallGetTasks info b (inl resp)
              :: map CallNow (readings P0 (List.length (Tasks resp)) (fst w1))
              ++ [CallCompleteTasks info (lastTaskID (Tasks resp))
                    (Z.of_nat (List.length (Tasks resp))) (inl n)]), [].
    rewrite app_nil_r.
    split; [unfold calls; cbn [db withDb]; rewrite Hcpl;
            rewrite <- !app_assoc; reflexivity|].
    rewrite queueDeleted_batch.
    split; [|repeat split; constructor].
    apply justified_batch; [assumption | assumption | intros c []].
Qed.

Lemma no_fetch_in_readings nows : filter isFetch (map CallNow nows) = [].
Proof. induction nows as [|t nows IH]; [reflexivity | exact IH]. Qed.

Lemma no_fetch_in_tryDelete info td :
  TryDeleteCalls taskListGracePeriod info td -> filter isFetch td = [].
Proof. intros H. destruct H; reflexivity. Qed.

(** A turn fetches once. *)
Lemma turn_one_fetch info b o tr :
  TurnCalls taskListGracePeriod info b o tr ->
  List.length (filter isFetch tr) = 1%nat.
Proof.
  intros H.
  destruct H as [e | resp td He Htd | resp nows | resp nows e
                | resp nows n td Hne Hall Hlt Htd | resp nows n Hne Hall Hge];
    cbn [filter isFetch List.length]; f_equal;
    rewrite ?filter_app, ?no_fetch_in_readings; cbn [filter isFetch app];
    try match goal with
        | Htd' : TryDeleteCalls _ _ _ |- _ =>
            rewrite (no_fetch_in_tryDelete _ _ Htd')
        end; reflexivity.
Qed.

Lemma going_on_queue_not_deleted info b tr :
  TurnCalls taskListGracePeriod info b None tr -> queueDeleted tr = false.
Proof. intros H. inversion H; subst. apply queueDeleted_batch. Qed.

(** The effect of the loop. *)
Lemma loop_effect info b m l s :
  exists tr lg,
    calls (snd (deleteLoop R taskListGracePeriod info b m l s)) = calls s ++ tr
    /\ deletionJustified info b tr
    /\ (List.length (filter isFetch tr) <= Z.to_nat (m - nProcessed l))%nat
    /\ task_nDeleted (stats (snd (deleteLoop R taskListGracePeriod info b m l s)))
       = task_nDeleted (stats s)
    /\ task_nProcessed (stats (snd (deleteLoop R taskListGracePeriod info b m l s)))
       = task_nProcessed (stats s)
    /\ tasklist_nDeleted (stats (snd (deleteLoop R taskListGracePeriod info b m l s)))
       = (if queueDeleted tr then AddInt64 (tasklist_nDeleted (stats s)) 1
          else tasklist_nDeleted (stats s))
    /\ logger (snd (deleteLoop R taskListGracePeriod info b m l s)) = logger s ++ lg
    /\ Forall isTryDeleteLine lg.
Proof.
  apply (loop_ind R taskListGracePeriod info b m
    (fun l s r =>
       exists tr lg,
         calls (snd r) = calls s ++ tr
         /\ deletionJustified info b tr
         /\ (List.length (filter isFetch tr) <= Z.to_nat (m - nProcessed l))%nat
         /\ task_nDeleted (stats (snd r)) = task_nDeleted (stats s)
         /\ task_nProcessed (stats (snd r)) = task_nProcessed (stats s)
         /\ tasklist_nDeleted (stats (snd r))
            = (if queueDeleted tr then AddInt64 (tasklist_nDeleted (stats s)) 1
               else tasklist_nDeleted (stats s))
         /\ logger (snd r) = logger s ++ lg
         /\ Forall isTryDeleteLine lg)).
  - intros l0 s0 _. exists [], []. cbn [snd]. rewrite !app_nil_r.
    repeat split; try reflexivity; try constructor; try (cbn; lia).
    intros [|? ?] ? ? ? ? ? E; discriminate.
  - intros l0 s0 st l' s' Hlt Hb.
    destruct (body_effect info b l0 s0)
      as (tr & lg & Hcalls & Hj & Hd & Hp & Hq & Hlg & Hlines).
    destruct (body_calls P0 taskListGracePeriod info b l0 s0) as (tr' & Hcalls' & Hturn).
    rewrite Hb in *. cbn [fst snd] in *.
    rewrite Hcalls in Hcalls'. apply app_inv_head in Hcalls'. subst tr'.
    exists tr, lg. rewrite (turn_one_fetch _ _ _ _ Hturn).
    repeat split; try assumption. lia.
  - intros l0 s0 l' s' Hlt Hb (tr2 & lg2 & Hcalls2 & Hj2 & Hn2 & Hd2 & Hp2 & Hq2 & Hlg2 & Hl2).
    destruct (body_effect info b l0 s0)
      as (tr1 & lg1 & Hcalls1 & Hj1 & Hd1 & Hp1 & Hq1 & Hlg1 & Hl1).
    destruct (body_calls P0 taskListGracePeriod info b l0 s0) as (tr' & Hcalls' & Hturn).
    pose proof (body_continues _ _ _ _ _ _ _ _ Hb)
      as (resp & w1 & n & w3 & _ & Hne & _ & _ & _ & El & _).
    rewrite Hb in *. cbn [fst snd] in *.
    rewrite Hcalls1 in Hcalls'. apply app_inv_head in Hcalls'. subst tr'.
    pose proof (going_on_queue_not_deleted _ _ _ Hturn) as Hnq.
    rewrite Hnq in Hq1.
    exists (tr1 ++ tr2), (lg1 ++ lg2).
    split; [rewrite Hcalls2, Hcalls1, app_assoc; reflexivity|].
    split; [apply justified_app; assumption|].
    split.
    { rewrite filter_app, length_app, (turn_one_fetch _ _ _ _ Hturn).
      assert (0 < Z.of_nat (List.length (Tasks resp))).
      { destruct (Tasks resp); [congruence | cbn [List.length]; lia]. }
      subst l'. cbn [nProcessed] in Hn2. lia. }
    split; [congruence|]. split; [congruence|].
    split.
    { rewrite Hq2, Hq1. unfold queueDeleted at 2. rewrite existsb_app.
      fold (queueDeleted tr1). fold (queueDeleted tr2). rewrite Hnq. reflexivity. }
    split; [rewrite Hlg2, Hlg1, app_assoc; reflexivity|].
    apply Forall_app. auto.
Qed.

End Effects.

(** ** The counters and the status of a run *)

Section Counters.

Context {W : Type}.
Variable P : Persistence W.
Variable taskListGracePeriod : Time.Duration.

Lemma loop_counters info b m l s :
  0 <= nDeleted l <= nProcessed l -> err l = None ->
  0 <= nDeleted (snd (fst (deleteLoop P taskListGracePeriod info b m l s)))
    <= nProcessed (snd (fst (deleteLoop P taskListGracePeriod info b m l s)))
  /\ (fst (fst (deleteLoop P taskListGracePeriod info b m l s)) = handlerStatusErr ->
      exists e,
        err (snd (fst (deleteLoop P taskListGracePeriod info b m l s))) = Some e)
  /\ (fst (fst (deleteLoop P taskListGracePeriod info b m l s)) <> handlerStatusErr ->
      err (snd (fst (deleteLoop P taskListGracePeriod info b m l s))) = None)
  /\ (nDeleted l = nProcessed l ->
      fst (fst (deleteLoop P taskListGracePeriod info b m l s)) = handlerStatusDefer ->
      nDeleted (snd (fst (deleteLoop P taskListGracePeriod info b m l s)))
      = nProcessed (snd (fst (deleteLoop P taskListGracePeriod info b m l s)))
      /\ m <= nProcessed (snd (fst (deleteLoop P taskListGracePeriod info b m l s)))).
Proof.
  apply (loop_ind P taskListGracePeriod info b m
    (fun l s r =>
       0 <= nDeleted l <= nProcessed l -> err l = None ->
       0 <= nDeleted (snd (fst r)) <= nProcessed (snd (fst r))
       /\ (fst (fst r) = handlerStatusErr -> exists e, err (snd (fst r)) = Some e)
       /\ (fst (fst r) <> handlerStatusErr -> err (snd (fst r)) = None)
       /\ (nDeleted l = nProcessed l -> fst (fst r) = handlerStatusDefer ->
           nDeleted (snd (fst r)) = nProcessed (snd (fst r))
           /\ m <= nProcessed (snd (fst r))))).
  - intros l0 s0 Hm Hd He. cbn [fst snd].
    split; [exact Hd|]. split; [discriminate|]. split; [intros _; exact He|]. auto.
  - intros l0 s0 st l' s' Hlt Hb Hd He. cbn [fst snd].
    pose proof (body_cases P taskListGracePeriod info b l0 s0) as Hc.
    rewrite Hb in Hc.
    inversion Hc as [e w1 Hget | resp w1 Hget Hemp | resp w1 j Hget Hj Hpre
                    | resp w1 e w3 Hget Hne Hall Hcpl
                    | resp w1 n w3 Hget Hne Hall Hcpl Hs
                    | ]; subst; cbn [nDeleted nProcessed err];
      (split; [lia|]); (split; [intros E; try discriminate; eauto|]);
      (split; [intros E; try congruence|]); intros _ E; discriminate.
  - intros l0 s0 l' s' Hlt Hb IH Hd He.
    destruct (body_continues _ _ _ _ _ _ _ _ Hb)
      as (resp & w1 & n & w3 & _ & _ & _ & _ & _ & -> & _).
    cbn [nDeleted nProcessed err] in IH.
    destruct IH as (I1 & I2 & I3 & I4); [lia | reflexivity |].
    split; [exact I1|]. split; [exact I2|]. split; [exact I3|].
    intros E. apply I4. lia.
Qed.

(** X1: an invocation of [deleteHandler] never counts more deleted tasks than
    processed ones, and when it returns Defer the budget was spent for good:
    every task processed was deleted, and there are at least
    [maxTasksPerJob] of them. *)
Theorem defer_only_after_budget_spent info s0 :
  0 <= deletedBy P taskListGracePeriod info s0
    <= processedBy P taskListGracePeriod info s0
  /\ (fst (deleteHandler P taskListGracePeriod info s0) = handlerStatusDefer ->
      deletedBy P taskListGracePeriod info s0
      = processedBy P taskListGracePeriod info s0
      /\ maxTasksPerJobFn s0 <= deletedBy P taskListGracePeriod info s0).
Proof.
  rewrite deleteHandler_status. unfold deletedBy, processedBy.
  destruct (loop_counters info (taskBatchSizeFn s0) (maxTasksPerJobFn s0)
              (mkLocals None 0 0) s0) as (H1 & _ & _ & H4);
    [cbn; lia | reflexivity |].
  split; [exact H1|]. intros E.
  destruct (H4 eq_refl E) as [Heq Hm]. split; [exact Heq | lia].
Qed.

Lemma AddInt64_0 x : inInt64 x -> AddInt64 x 0 = x.
Proof.
  unfold inInt64, AddInt64, wrap64. intros H. rewrite Z.add_0_r.
  rewrite Z.mod_small by lia. lia.
Qed.

(** X2: with a budget of zero or less, [deleteHandler] calls nothing and logs
    nothing, and returns Defer; the scavenger is left as it was (its counters
    being 64-bit values). *)
Theorem no_budget_no_work info s0 :
  maxTasksPerJobFn s0 <= 0 ->
  fst (deleteHandler P taskListGracePeriod info s0) = handlerStatusDefer
  /\ db (snd (deleteHandler P taskListGracePeriod info s0)) = db s0
  /\ logger (snd (deleteHandler P taskListGracePeriod info s0)) = logger s0
  /\ (inInt64 (task_nDeleted (stats s0)) -> inInt64 (task_nProcessed (stats s0)) ->
      snd (deleteHandler P taskListGracePeriod info s0) = s0).
Proof.
  intros Hm. rewrite deleteHandler_eq, deleteLoop_eq.
  cbn [nProcessed]. apply Z.ltb_ge in Hm. rewrite Hm. cbn [fst snd].
  split; [reflexivity|]. split; [apply logged_db|].
  unfold logged, deleteHandlerLog, addTaskDeleted, addTaskProcessed.
  mred. cbn [err nProcessed nDeleted snd]. split; [reflexivity|].
  intros Hd Hp. unfold withStats. cbn.
  rewrite (AddInt64_0 _ Hd), (AddInt64_0 _ Hp).
  destruct s0 as [w [tl d p] lg b m n]. reflexivity.
Qed.

End Counters.

(** ** The outcome of a run, from its calls *)

Section Outcome.

Context {W : Type}.
Variable P0 : Persistence W.
Variable taskListGracePeriod : Time.Duration.

Local Abbreviation R := (recording P0).

(** X3: in an invocation of [deleteHandler], a fetch or a deletion of a batch
    that fails is the last call and the handler returns Err; and when the
    handler returns Err its last call is such a failure.  The failure of the
    deletion of the queue is not one of them. *)
Theorem failed_call_ends_run info s0 tr :
  calls (snd (deleteHandler R taskListGracePeriod info s0)) = calls s0 ++ tr ->
  (forall pre c post e,
      tr = pre ++ c :: post -> callError c = Some e -> isQueueDeletion c = false ->
      post = []
      /\ fst (deleteHandler R taskListGracePeriod info s0) = handlerStatusErr)
  /\ (fst (deleteHandler R taskListGracePeriod info s0) = handlerStatusErr ->
      exists pre c e,
        tr = pre ++ [c] /\ callError c = Some e /\ isQueueDeletion c = false).
Proof.
  intros Hcalls.
  destruct (deleteHandler_calls P0 taskListGracePeriod info s0) as (tr' & Htr & Hrun).
  rewrite Htr in Hcalls. apply app_inv_head in Hcalls. subst tr'. split.
  - apply (failure_ends_run _ _ _ _ _ Hrun).
  - apply (err_run_ends_with_failure _ _ _ _ _ Hrun).
Qed.

(** X4: an invocation of [deleteHandler] that calls [deleteTaskList] returns
    Done, whether the deletion succeeds or fails, and the queue it asks to
    delete is the one it was given: a run that returns Err or Defer deletes no
    queue. *)
Theorem queue_deletion_only_in_done_run info s0 tr i r :
  calls (snd (deleteHandler R taskListGracePeriod info s0)) = calls s0 ++ tr ->
  In (CallDeleteTaskList i r) tr ->
  fst (deleteHandler R taskListGracePeriod info s0) = handlerStatusDone
  /\ i = info.
Proof.
  intros Hcalls.
  destruct (deleteHandler_calls P0 taskListGracePeriod info s0) as (tr' & Htr & Hrun).
  rewrite Htr in Hcalls. apply app_inv_head in Hcalls. subst tr'.
  apply (queue_deletion_in_done_run _ _ _ _ _ _ _ Hrun).
Qed.

Lemma deleteHandler_effect info s0 :
  exists tr lg,
    calls (snd (deleteHandler R taskListGracePeriod info s0)) = calls s0 ++ tr
    /\ deletionJustified info (taskBatchSizeFn s0) tr
    /\ (List.length (filter isFetch tr) <= Z.to_nat (maxTasksPerJobFn s0))%nat
    /\ stats (snd (deleteHandler R taskListGracePeriod info s0)) =
       mkStats
         (if queueDeleted tr then AddInt64 (tasklist_nDeleted (stats s0)) 1
          else tasklist_nDeleted (stats s0))
         (AddInt64 (task_nDeleted (stats s0)) (deletedBy R taskListGracePeriod info s0))
         (AddInt64 (task_nProcessed (stats s0))
            (processedBy R taskListGracePeriod info s0))
    /\ Forall isTryDeleteLine lg
    /\ logger (snd (deleteHandler R taskListGracePeriod info s0)) =
       logger (logged info
                 (snd (fst (deleteLoop R taskListGracePeriod info (taskBatchSizeFn s0)
                              (maxTasksPerJobFn s0) (mkLocals None 0 0) s0)))
                 (mkScavenger (db s0) (stats s0) (logger s0 ++ lg)
                    (taskBatchSizeFn s0) (maxTasksPerJobFn s0)
                    (getOrphanTasksPageSizeFn s0))).
Proof.
  destruct (loop_effect P0 taskListGracePeriod info (taskBatchSizeFn s0)
              (maxTasksPerJobFn s0) (mkLocals None 0 0) s0)
    as (tr & lg & Hcalls & Hj & Hn & Hd & Hp & Hq & Hlg & Hlines).
  exists tr, lg. rewrite deleteHandler_eq. unfold deletedBy, processedBy.
  destruct (deleteLoop _ _ _ _ _ _ _) as [[st l] s1]. cbn [fst snd] in *.
  split; [unfold calls; rewrite logged_db; exact Hcalls|].
  split; [exact Hj|].
  split; [rewrite Z.sub_0_r in Hn; exact Hn|].
  split; [rewrite logged_stats, Hd, Hp, Hq; reflexivity|].
  split; [exact Hlines|].
  unfold logged, deleteHandlerLog, addTaskDeleted, addTaskProcessed, log.
  mred. destruct (err l); [|destruct (0 <? nProcessed l)]; cbn; rewrite Hlg;
    reflexivity.
Qed.

(** X5: in an invocation of [deleteHandler], every call of [completeTasks]
    comes right after the fetch of a batch and the readings of the clock at
    which each task of that batch is expired; it is for the queue the handler
    was given, up to the last taskID of the batch, with the size of the batch
    as limit.  Nothing is deleted that was not fetched and found expired. *)
Theorem batch_deletions_justified info s0 tr :
  calls (snd (deleteHandler R taskListGracePeriod info s0)) = calls s0 ++ tr ->
  deletionJustified info (taskBatchSizeFn s0) tr.
Proof.
  intros Hcalls.
  destruct (deleteHandler_effect info s0) as (tr' & lg & Htr & Hj & _).
  rewrite Htr in Hcalls. apply app_inv_head in Hcalls. subst tr'. exact Hj.
Qed.

(** X6: an invocation of [deleteHandler] fetches at most [maxTasksPerJob]
    batches, whatever the persistence layer answers. *)
Theorem fetches_within_budget info s0 tr :
  calls (snd (deleteHandler R taskListGracePeriod info s0)) = calls s0 ++ tr ->
  (List.length (filter isFetch tr) <= Z.to_nat (maxTasksPerJobFn s0))%nat.
Proof.
  intros Hcalls.
  destruct (deleteHandler_effect info s0) as (tr' & lg & Htr & _ & Hn & _).
  rewrite Htr in Hcalls. apply app_inv_head in Hcalls. subst tr'. exact Hn.
Qed.

(** X7: the statistics after an invocation of [deleteHandler]: the counters
    of deleted and processed tasks advance (in 64-bit arithmetic) by the
    handler's own counts, once, and the counter of deleted queues advances by
    one exactly when a call of [deleteTaskList] succeeded. *)
Theorem deleteHandler_statistics info s0 tr :
  calls (snd (deleteHandler R taskListGracePeriod info s0)) = calls s0 ++ tr ->
  stats (snd (deleteHandler R taskListGracePeriod info s0)) =
  mkStats
    (if queueDeleted tr then AddInt64 (tasklist_nDeleted (stats s0)) 1
     else tasklist_nDeleted (stats s0))
    (AddInt64 (task_nDeleted (stats s0)) (deletedBy R taskListGracePeriod info s0))
    (AddInt64 (task_nProcessed (stats s0))
       (processedBy R taskListGracePeriod info s0)).
Proof.
  intros Hcalls.
  destruct (deleteHandler_effect info s0) as (tr' & lg & Htr & _ & _ & Hst & _).
  rewrite Htr in Hcalls. apply app_inv_head in Hcalls. subst tr'. exact Hst.
Qed.

(** X8: the log of an invocation of [deleteHandler]: the lines of
    [tryDeleteTaskList], then the summary of the deferred call, which is one
    Error line with the error when the handler returns Err, one Info line when
    it does not and processed a task, and nothing for a run that processed no
    task; the summary carries the handler's counts. *)
Theorem deleteHandler_log info s0 :
  exists lg fin,
    logger (snd (deleteHandler R taskListGracePeriod info s0)) = logger s0 ++ lg ++ fin
    /\ Forall isTryDeleteLine lg
    /\ (fst (deleteHandler R taskListGracePeriod info s0) = handlerStatusErr ->
        exists e,
          fin = [mkLogLine LevelError "scavenger.deleteHandler processed."
                   [TagError e; TagWorkflowDomainID (DomainID info);
                    TagWorkflowTaskListName (Name info); TagTaskType (TaskType info);
                    TagNumberProcessed (processedBy R taskListGracePeriod info s0);
                    TagNumberDeleted (deletedBy R taskListGracePeriod info s0)]])
    /\ (fst (deleteHandler R taskListGracePeriod info s0) <> handlerStatusErr ->
        0 < processedBy R taskListGracePeriod info s0 ->
        fin = [mkLogLine LevelInfo "scavenger.deleteHandler processed."
                 [TagWorkflowDomainID (DomainID info);
                  TagWorkflowTaskListName (Name info); TagTaskType (TaskType info);
                  TagNumberProcessed (processedBy R taskListGracePeriod info s0);
                  TagNumberDeleted (deletedBy R taskListGracePeriod info s0)]])
    /\ (fst (deleteHandler R taskListGracePeriod info s0) <> handlerStatusErr ->
        processedBy R taskListGracePeriod info s0 <= 0 -> fin = []).
Proof.
  destruct (deleteHandler_effect info s0) as (tr & lg & _ & _ & _ & _ & Hl & Hlog).
  destruct (loop_counters R taskListGracePeriod info (taskBatchSizeFn s0)
              (maxTasksPerJobFn s0) (mkLocals None 0 0) s0)
    as (_ & H2 & H3 & _); [cbn; lia | reflexivity |].
  rewrite deleteHandler_status, Hlog. unfold processedBy, deletedBy.
  destruct (deleteLoop _ _ _ _ _ _ _) as [[st [e p d]] s1]. cbn [fst snd] in *.
  cbn [err nProcessed nDeleted] in *.
  exists lg.
  destruct e as [e|].
  - eexists. rewrite logged_error. cbn [logger]. rewrite <- app_assoc.
    split; [reflexivity|]. split; [exact Hl|].
    split; [intros _; exists e; reflexivity|].
    split; intros Hne; specialize (H3 Hne); discriminate.
  - destruct (Z.ltb_spec 0 p) as [Hp|Hp].
    + eexists. rewrite logged_info by exact Hp. cbn [logger].
      rewrite <- app_assoc.
      split; [reflexivity|]. split; [exact Hl|].
      split; [intros E; destruct (H2 E); discriminate|].
      split; [reflexivity | lia].
    + exists []. rewrite app_nil_r.
      split.
      * unfold logged, deleteHandlerLog, addTaskDeleted, addTaskProcessed, log.
        mred. cbn [err nProcessed nDeleted]. apply Z.ltb_ge in Hp. rewrite Hp.
        reflexivity.
      * split; [exact Hl|].
        split; [intros E; destruct (H2 E); discriminate|].
        split; [lia | reflexivity].
Qed.

End Outcome.

(** ** The orphan handler: calls, statistics and log *)

Lemma AddInt64_range x d : inInt64 (AddInt64 x d).
Proof.
  unfold inInt64, AddInt64, wrap64.
  pose proof (Z.mod_pos_bound (x + d + 2 ^ 63) (2 ^ 64) ltac:(lia)). lia.
Qed.

Lemma AddInt64_add x a b : AddInt64 (AddInt64 x a) b = AddInt64 x (a + b).
Proof.
  unfold AddInt64, wrap64.
  replace ((x + a + 2 ^ 63) mod 2 ^ 64 - 2 ^ 63 + b + 2 ^ 63)
    with ((x + a + 2 ^ 63) mod 2 ^ 64 + b) by lia.
  rewrite Z.add_mod_idemp_l by lia. f_equal. f_equal. lia.
Qed.

Lemma orphansDeleted_page keys last :
  Forall (fun c => isOrphanDeleted c = false) last ->
  filter isOrphanDeleted (map (fun k => orphanCall k None) keys ++ last)
  = map (fun k => orphanCall k None) keys.
Proof.
  intros Hl. induction keys as [|k keys IH]; cbn.
  - induction Hl as [|c l Hc _ IHl]; cbn; [reflexivity|]. rewrite Hc. exact IHl.
  - f_equal. exact IH.
Qed.

Section Orphans.

Context {W : Type}.
Variable P0 : Persistence W.

Local Abbreviation R := (recording P0).

Ltac mred_orphans :=
  cbv beta iota zeta delta
    [bind ret call log addTaskDeleted addTaskProcessed withStats withDb];
  cbn [recording completeTask getOrphanTasks db]; unfold record; cbn [fst snd].

Lemma completeOrphanTasks_effect keys : forall nD s,
  exists j last,
    (j <= List.length keys)%nat
    /\ calls (snd (completeOrphanTasks R keys nD s))
       = calls s ++ map (fun k => orphanCall k None) (firstn j keys) ++ last
    /\ (inInt64 (task_nDeleted (stats s)) -> inInt64 (task_nProcessed (stats s)) ->
        stats (snd (completeOrphanTasks R keys nD s))
        = mkStats (tasklist_nDeleted (stats s))
            (AddInt64 (task_nDeleted (stats s)) (Z.of_nat j))
            (AddInt64 (task_nProcessed (stats s)) (Z.of_nat j)))
    /\ snd (fst (completeOrphanTasks R keys nD s)) = nD + Z.of_nat j
    /\ ((last = [] /\ j = List.length keys
         /\ fst (fst (completeOrphanTasks R keys nD s)) = None
         /\ logger (snd (completeOrphanTasks R keys nD s)) = logger s)
        \/ (exists k e,
              nth_error keys j = Some k /\ last = [orphanCall k (Some e)]
              /\ fst (fst (completeOrphanTasks R keys nD s)) = Some (orphanStatusOf e)
              /\ logger (snd (completeOrphanTasks R keys nD s))
                 = logger s ++ [orphanFailureLine e])).
Proof.
  induction keys as [|key rest IH]; intros nD s.
  - exists 0%nat, []. cbn. rewrite app_nil_r, Z.add_0_r.
    split; [lia|]. split; [reflexivity|]. split.
    + intros Hd Hp. rewrite (AddInt64_0 _ Hd), (AddInt64_0 _ Hp).
      destruct (stats s); reflexivity.
    + split; [reflexivity|]. left. auto.
  - cbn [completeOrphanTasks]. destruct s as [[w tr0] st lg b m n].
    mred_orphans.
    destruct (completeTask P0 (taskListOfKey key) (KeyTaskID key) w) as [[e|] w'] eqn:Ec.
    + exists 0%nat, [orphanCall key (Some e)].
      unfold orphanStatusOf, orphanFailureLine.
      destruct (isErrPersistenceLimitExceeded e) eqn:Ee; cbn;
        rewrite Z.add_0_r;
        (split; [lia|]); (split; [reflexivity|]);
        (split; [intros Hd Hp; rewrite (AddInt64_0 _ Hd), (AddInt64_0 _ Hp);
                 destruct st; reflexivity|]);
        (split; [reflexivity|]); right; exists key, e; rewrite Ee; auto.
    + match goal with
      | |- context [completeOrphanTasks _ rest ?d ?x] =>
          destruct (IH d x) as (j & last & Hj & Hcalls & Hst & Hn & Hlast)
      end.
      exists (S j), last. cbn [List.length firstn map nth_error].
      split; [lia|]. split; [|split; [|split]].
      * rewrite Hcalls. unfold calls. cbn. rewrite <- app_assoc. reflexivity.
      * intros _ _. rewrite Hst by (cbn; apply AddInt64_range).
        cbn [stats tasklist_nDeleted task_nDeleted task_nProcessed].
        rewrite !AddInt64_add.
        replace (1 + Z.of_nat j) with (Z.of_nat (S j)) by lia. reflexivity.
      * rewrite Hn. lia.
      * destruct Hlast as [(-> & -> & Hr & Hlg) | (k & e & Hk & -> & Hr & Hlg)].
        -- left. auto.
        -- right. exists k, e. auto.
Qed.

Lemma completeOrphanTasksHandler_effect s :
  exists r tr ln,
    calls (snd (completeOrphanTasksHandler R s))
    = calls s ++ CallGetOrphanTasks (getOrphanTasksPageSizeFn s) r :: tr
    /\ (inInt64 (task_nDeleted (stats s)) -> inInt64 (task_nProcessed (stats s)) ->
        stats (snd (completeOrphanTasksHandler R s))
        = mkStats (tasklist_nDeleted (stats s))
            (AddInt64 (task_nDeleted (stats s)) (orphansDeleted tr))
            (AddInt64 (task_nProcessed (stats s)) (orphansDeleted tr)))
    /\ logger (snd (completeOrphanTasksHandler R s)) = logger s ++ [ln]
    /\ match r with
       | inr e => tr = [] /\ ln = orphanFailureLine e
       | inl resp =>
           exists j last,
             (j <= List.length (OrphanTasks resp))%nat
             /\ tr = map (fun k => orphanCall k None) (firstn j (OrphanTasks resp))
                     ++ last
             /\ ((last = [] /\ j = List.length (OrphanTasks resp)
                  /\ ln = mkLogLine LevelInfo
                            "scavenger.completeOrphanTasksHandler deleted."
                            [TagNumberDeleted (orphansDeleted tr)])
                 \/ (exists k e,
                       nth_error (OrphanTasks resp) j = Some k
                       /\ last = [orphanCall k (Some e)]
                       /\ ln = orphanFailureLine e))
       end.
Proof.
  destruct s as [[w tr0] st lg b m n]. unfold completeOrphanTasksHandler.
  cbn [getOrphanTasksPageSizeFn]. mred_orphans.
  destruct (getOrphanTasks P0 n w) as [[resp|e] w1].
  - match goal with
    | |- context [completeOrphanTasks _ _ 0 ?x] =>
        destruct (completeOrphanTasks_effect (OrphanTasks resp) 0 x)
          as (j & last & Hj & Hcalls & Hst & Hn & Hlast);
        destruct (completeOrphanTasks R (OrphanTasks resp) 0 x) as [[o nD] s1]
    end.
    cbn [fst snd] in *. unfold calls in Hcalls. cbn [db snd] in Hcalls.
    cbn [stats logger task_nDeleted task_nProcessed tasklist_nDeleted] in *.
    assert (Hcount : orphansDeleted
                       (map (fun k => orphanCall k None) (firstn j (OrphanTasks resp))
                        ++ last) = Z.of_nat j).
    { unfold orphansDeleted. rewrite orphansDeleted_page.
      - rewrite length_map, length_firstn. f_equal. lia.
      - destruct Hlast as [(-> & _) | (k & e & _ & -> & _)];
          repeat constructor. }
    exists (inl resp),
      (map (fun k => orphanCall k None) (firstn j (OrphanTasks resp)) ++ last).
    destruct Hlast as [(Hl & Hjl & Ho & Hlg) | (k & e & Hk & Hl & Ho & Hlg)]; subst o.
    + eexists.
      split; [destruct (_ <? n); unfold calls; cbn [snd db];
              rewrite Hcalls, <- app_assoc; reflexivity|].
      split; [intros Hd Hp; rewrite Hcount; destruct (_ <? n); cbn [snd stats];
              apply (Hst Hd Hp)|].
      split; [destruct (_ <? n); cbn [snd logger]; rewrite Hlg; reflexivity|].
      exists j, last. split; [exact Hj|]. split; [reflexivity|].
      left. rewrite Hcount. subst nD. auto.
    + exists (orphanFailureLine e).
      split; [unfold calls; cbn [snd db]; rewrite Hcalls, <- app_assoc; reflexivity|].
      split; [intros Hd Hp; rewrite Hcount; cbn [snd]; apply (Hst Hd Hp)|].
      split; [cbn [snd]; exact Hlg|].
      exists j, last. split; [exact Hj|]. split; [reflexivity|].
      right. exists k, e. auto.
  - exists (inr e), [], (orphanFailureLine e). unfold orphanFailureLine.
    destruct (isErrPersistenceLimitExceeded e); cbn;
      (split; [reflexivity|]);
      (split; [intros Hd Hp; rewrite (AddInt64_0 _ Hd), (AddInt64_0 _ Hp);
               destruct st; reflexivity|]); auto.
Qed.

Lemma page_calls_succeed keys c :
  In c (map (fun k => orphanCall k None) keys) -> callError c = None.
Proof. intros H. apply in_map_iff in H. destruct H as (k & <- & _). reflexivity. Qed.

(** X9: the calls of an invocation of [completeOrphanTasksHandler] are the
    query for a page of orphan rows and then one [completeTask] for each row
    of the page, in the order of the page, up to the first one that fails:
    no row is asked for twice, none that the page does not hold, and no row
    after a failure. *)
Theorem orphan_calls_follow_page s tr :
  calls (snd (completeOrphanTasksHandler R s)) = calls s ++ tr ->
  exists r rest,
    tr = CallGetOrphanTasks (getOrphanTasksPageSizeFn s) r :: rest
    /\ match r with
       | inr _ => rest = []
       | inl resp =>
           rest = map (fun k => orphanCall k None) (OrphanTasks resp)
           \/ (exists j k e,
                 nth_error (OrphanTasks resp) j = Some k
                 /\ rest = map (fun k => orphanCall k None)
                             (firstn j (OrphanTasks resp))
                           ++ [orphanCall k (Some e)])
       end.
Proof.
  intros Hcalls.
  destruct (completeOrphanTasksHandler_effect s) as (r & tr' & ln & Htr & _ & _ & Hr).
  rewrite Htr in Hcalls. apply app_inv_head in Hcalls. subst tr.
  exists r, tr'. split; [reflexivity|].
  destruct r as [resp|e]; [|apply Hr].
  destruct Hr as (j & last & Hj & -> & [(-> & -> & _) | (k & e & Hk & -> & _)]).
  - left. rewrite firstn_all, app_nil_r. reflexivity.
  - right. exists j, k, e. auto.
Qed.

(** X10: the statistics after an invocation of [completeOrphanTasksHandler]:
    the counters of deleted and of processed tasks both advance (in 64-bit
    arithmetic) by the number of rows deleted with success, also in a run
    that a later failure ends; the counter of deleted queues is left alone. *)
Theorem orphan_handler_statistics s tr :
  inInt64 (task_nDeleted (stats s)) -> inInt64 (task_nProcessed (stats s)) ->
  calls (snd (completeOrphanTasksHandler R s)) = calls s ++ tr ->
  stats (snd (completeOrphanTasksHandler R s))
  = mkStats (tasklist_nDeleted (stats s))
      (AddInt64 (task_nDeleted (stats s)) (orphansDeleted tr))
      (AddInt64 (task_nProcessed (stats s)) (orphansDeleted tr)).
Proof.
  intros Hd Hp Hcalls.
  destruct (completeOrphanTasksHandler_effect s) as (r & tr' & ln & Htr & Hst & _).
  rewrite Htr in Hcalls. apply app_inv_head in Hcalls. subst tr.
  exact (Hst Hd Hp).
Qed.

(** X11: an invocation of [completeOrphanTasksHandler] logs exactly one line:
    when a call failed, the line of that failure (Info for the rate-limit
    error, Error for any other) and no summary; when none failed, the Info
    summary with the number of rows deleted. *)
Theorem orphan_handler_log s tr :
  calls (snd (completeOrphanTasksHandler R s)) = calls s ++ tr ->
  exists ln,
    logger (snd (completeOrphanTasksHandler R s)) = logger s ++ [ln]
    /\ (forall c e, In c tr -> callError c = Some e -> ln = orphanFailureLine e)
    /\ ((forall c, In c tr -> callError c = None) ->
        ln = mkLogLine LevelInfo "scavenger.completeOrphanTasksHandler deleted."
               [TagNumberDeleted (orphansDeleted tr)]).
Proof.
  intros Hcalls.
  destruct (completeOrphanTasksHandler_effect s) as (r & tr' & ln & Htr & _ & Hlg & Hr).
  rewrite Htr in Hcalls. apply app_inv_head in Hcalls. subst tr.
  exists ln. split; [exact Hlg|].
  destruct r as [resp|e0].
  - destruct Hr as (j & last & Hj & -> &
                    [(-> & -> & ->) | (k & e0 & Hk & -> & ->)]).
    + split.
      * intros c e [<-|Hin] He; [discriminate|].
        rewrite app_nil_r in Hin. rewrite (page_calls_succeed _ _ Hin) in He.
        discriminate.
      * intros _. reflexivity.
    + split.
      * intros c e [<-|Hin] He; [discriminate|].
        apply in_app_or in Hin. destruct Hin as [Hin|[<-|[]]].
        -- rewrite (page_calls_succeed _ _ Hin) in He. discriminate.
        -- cbn in He. injection He as <-. reflexivity.
      * intros Hall.
        specialize (Hall (orphanCall k (Some e0))
                      ltac:(right; apply in_or_app; right; left; reflexivity)).
        discriminate.
  - destruct Hr as [-> ->]. split.
    + intros c e [<-|[]] He. cbn in He. injection He as <-. reflexivity.
    + intros Hall. specialize (Hall _ (or_introl eq_refl)). discriminate.
Qed.

End Orphans.

(** ** The count of deleted tasks *)

Lemma batchRows_app tr1 tr2 : batchRows (tr1 ++ tr2) = batchRows tr1 + batchRows tr2.
Proof.
  induction tr1 as [|c tr1 IH]; [reflexivity|].
  destruct c as [| ? ? ? [?|?] | | | |]; cbn; rewrite IH; lia.
Qed.

Lemma batchRows_none tr :
  (forall c, In c tr -> isBatchDeletion c = false) -> batchRows tr = 0.
Proof.
  induction tr as [|c tr IH]; intros H; [reflexivity|].
  pose proof (H c (or_introl eq_refl)) as Hc.
  destruct c; try discriminate; cbn; apply IH; intros c' Hin; apply H; right;
    exact Hin.
Qed.

Lemma batchRows_batch info b g nows i id lim r td :
  (forall c, In c td -> isBatchDeletion c = false) ->
  batchRows (CallGetTasks info b g :: map CallNow nows
             ++ CallCompleteTasks i id lim r :: td)
  = match r with inl _ => lim | inr _ => 0 end.
Proof.
  intros Htd. cbn [batchRows]. rewrite batchRows_app.
  rewrite (batchRows_none (map CallNow nows)).
  - destruct r; cbn [batchRows]; rewrite (batchRows_none td Htd); lia.
  - intros c Hin. apply in_map_iff in Hin. destruct Hin as (t & <- & _). reflexivity.
Qed.

Section DeletedCount.

Context {W : Type}.
Variable P0 : Persistence W.
Variable taskListGracePeriod : Time.Duration.

Local Abbreviation R := (recording P0).

Lemma body_deleted info b l s :
  exists tr,
    calls (snd (deleteHandlerBody R taskListGracePeriod info b l s)) = calls s ++ tr
    /\ nDeleted (snd (fst (deleteHandlerBody R taskListGracePeriod info b l s)))
       = nDeleted l + batchRows tr.
Proof.
  pose proof (body_cases R taskListGracePeriod info b l s) as Hc.
  inversion Hc as [e w1 Hget E | resp w1 Hget He E | resp w1 j Hget Hj Hpre E
                  | resp w1 e w3 Hget Hne Hall Hcpl E
                  | resp w1 n w3 Hget Hne Hall Hcpl Hlt E
                  | resp w1 n w3 Hget Hne Hall Hcpl Hge E];
    clear Hc E; cbn [fst snd nDeleted]; apply getTasks_recording in Hget;
    try (apply completeTasks_recording in Hcpl;
         rewrite afterReadings_calls, Hget in Hcpl).
  - exists [CallGetTasks info b (inr e)].
    split; [unfold calls; cbn [db withDb]; exact Hget | cbn; lia].
  - destruct (tryDelete_effect P0 taskListGracePeriod info (withDb s w1))
      as (td & lg & Htd & Hshape & _).
    exists (CallGetTasks info b (inl resp) :: td). split.
    + rewrite Htd. unfold calls at 1. cbn [db withDb]. rewrite Hget.
      rewrite <- app_assoc. reflexivity.
    + cbn [batchRows]. rewrite batchRows_none; [lia|].
      intros c Hin. eapply tryDelete_calls_no_batch_deletion; eassumption.
  - exists (CallGetTasks info b (inl resp)
            :: map CallNow (readings P0 (readingsUpTo (Tasks resp) j) (fst w1))).
    split.
    + unfold calls at 1. cbn [db withDb]. rewrite afterReadings_calls, Hget.
      rewrite <- app_assoc. reflexivity.
    + cbn [batchRows]. rewrite batchRows_none; [lia|].
      intros c Hin. apply in_map_iff in Hin. destruct Hin as (t & <- & _).
      reflexivity.
  - exists (CallGetTasks info b (inl resp)
              :: map CallNow (readings P0 (List.length (Tasks resp)) (fst w1))
              ++ [CallCompleteTasks info (lastTaskID (Tasks resp))
                    (Z.of_nat (List.length (Tasks resp))) (inr e)]).
    split; [unfold calls; cbn [db withDb]; rewrite Hcpl;
            rewrite <- !app_assoc; reflexivity|].
    rewrite batchRows_batch by (intros c []). lia.
  - destruct (tryDelete_effect P0 taskListGracePeriod info (withDb s w3))
      as (td & lg & Htd & Hshape & _).
    exists (CallGetTasks info b (inl resp)
              :: map CallNow (readings P0 (List.length (Tasks resp)) (fst w1))
              ++ CallCompleteTasks info (lastTaskID (Tasks resp))
                   (Z.of_nat (List.length (Tasks resp))) (inl n) :: td).
    split.
    + rewrite Htd. unfold calls at 1. cbn [db withDb]. rewrite Hcpl.
      rewrite <- !app_assoc. reflexivity.
    + rewrite batchRows_batch; [reflexivity|].
      intros c Hin. eapply tryDelete_calls_no_batch_deletion; eassumption.
  - exists (CallGetTasks info b (inl resp)
              :: map CallNow (readings P0 (List.length (Tasks resp)) (fst w1))
              ++ [CallCompleteTasks info (lastTaskID (Tasks resp))
                    (Z.of_nat (List.length (Tasks resp))) (inl n)]).
    split; [unfold calls; cbn [db withDb]; rewrite Hcpl;
            rewrite <- !app_assoc; reflexivity|].
    rewrite batchRows_batch by (intros c []). reflexivity.
Qed.

Lemma loop_deleted info b m l s :
  exists tr,
    calls (snd (deleteLoop R taskListGracePeriod info b m l s)) = calls s ++ tr
    /\ nDeleted (snd (fst (deleteLoop R taskListGracePeriod info b m l s)))
       = nDeleted l + batchRows tr.
Proof.
  apply (loop_ind R taskListGracePeriod info b m
    (fun l s r =>
       exists tr,
         calls (snd r) = calls s ++ tr
         /\ nDeleted (snd (fst r)) = nDeleted l + batchRows tr)).
  - intros l0 s0 _. exists []. cbn. rewrite app_nil_r. split; [reflexivity | lia].
  - intros l0 s0 st l' s' _ Hb. destruct (body_deleted info b l0 s0) as (tr & H1 & H2).
    rewrite Hb in *. cbn [fst snd] in *. exists tr. auto.
  - intros l0 s0 l' s' _ Hb (tr2 & Hc2 & Hd2).
    destruct (body_deleted info b l0 s0) as (tr1 & Hc1 & Hd1).
    rewrite Hb in *. cbn [fst snd] in *. exists (tr1 ++ tr2).
    split; [rewrite Hc2, Hc1, app_assoc; reflexivity|].
    rewrite batchRows_app. lia.
Qed.

(** X12: the count of deleted tasks of an invocation of [deleteHandler] (the
    one it logs and adds to the statistics) is the sum of the sizes of the
    batches whose deletion succeeded; the number of rows the persistence
    reports to have deleted plays no part in it. *)
Theorem deleted_count_is_batch_sizes info s0 tr :
  calls (snd (deleteHandler R taskListGracePeriod info s0)) = calls s0 ++ tr ->
  deletedBy R taskListGracePeriod info s0 = batchRows tr.
Proof.
  intros Hcalls. unfold deletedBy.
  destruct (loop_deleted info (taskBatchSizeFn s0) (maxTasksPerJobFn s0)
              (mkLocals None 0 0) s0) as (tr' & Htr & Hd).
  rewrite deleteHandler_eq in Hcalls.
  destruct (deleteLoop _ _ _ _ _ _ _) as [[st l] s1]. cbn [fst snd] in *.
  unfold calls in Hcalls. rewrite logged_db in Hcalls. fold (calls s1) in Hcalls.
  rewrite Htr in Hcalls. apply app_inv_head in Hcalls. subst tr'.
  cbn [nDeleted] in Hd. lia.
Qed.

End DeletedCount.

(** ** The grace period *)

Lemma Sub_before_grace (g : Time.Duration) (t u : Time.Time) :
  Time.minDuration < g <= Time.maxDuration ->
  (Time.Sub t u <? g) = (t - u <? g).
Proof.
  unfold Time.Sub, Time.minDuration, Time.maxDuration. intros Hg.
  destruct (Z.ltb_spec (t - u) g); [apply Z.ltb_lt | apply Z.ltb_ge]; lia.
Qed.

Section Grace.

Context {W : Type}.
Variable P0 : Persistence W.
Variable taskListGracePeriod : Time.Duration.

Local Abbreviation R := (recording P0).

(** X13: for a queue that is not the scanner's own, [tryDeleteTaskList] reads
    the clock once and calls [deleteTaskList] exactly when the time since
    [LastUpdated] is at least the grace period: the clamping of the
    difference of two times to a Duration never changes the decision, for a
    grace period above the least Duration. *)
Theorem grace_period_is_exact info s tr :
  Time.minDuration < taskListGracePeriod <= Time.maxDuration ->
  HasPrefix (Name info) scannerTaskListPrefix = false ->
  calls (snd (tryDeleteTaskList R taskListGracePeriod info s)) = calls s ++ tr ->
  exists rest,
    tr = CallNow (fst (timeNow P0 (fst (db s)))) :: rest
    /\ (fst (timeNow P0 (fst (db s))) - LastUpdated info < taskListGracePeriod ->
        rest = [])
    /\ (taskListGracePeriod <= fst (timeNow P0 (fst (db s))) - LastUpdated info ->
        exists r, rest = [CallDeleteTaskList info r]).
Proof.
  intros Hg Hpre. unfold tryDeleteTaskList. rewrite Hpre.
  destruct s as [[w tr0] st lg b m n].
  cbv beta iota zeta delta
    [bind ret call log addTasklistDeleted withStats withDb];
  cbn [recording deleteTaskList timeNow db]; unfold record; cbn [fst snd].
  destruct (timeNow P0 w) as [now w1]. cbn [fst snd].
  rewrite (Sub_before_grace _ _ _ Hg).
  destruct (Z.ltb_spec (now - LastUpdated info) taskListGracePeriod) as [Hlt|Hge].
  - unfold calls. cbn [snd db]. intros E. apply app_inv_head in E. subst tr.
    exists []. split; [reflexivity|]. split; [reflexivity | lia].
  - cbv beta iota zeta delta
      [bind ret call log addTasklistDeleted withStats withDb];
    cbn [recording deleteTaskList timeNow db]; unfold record; cbn [fst snd].
    destruct (deleteTaskList P0 info w1) as [[e|] w2];
      unfold calls; cbn; rewrite <- app_assoc; intros E;
      apply app_inv_head in E; subst tr; eexists; (split; [reflexivity|]);
      (split; [lia | intros _; eexists; reflexivity]).
Qed.

End Grace.

(** ** The attempt to delete a drained queue *)

Section IdleAttempt.

Context {W : Type}.
Variable P0 : Persistence W.
Variable taskListGracePeriod : Time.Duration.

Local Abbreviation R := (recording P0).

Lemma tryDelete_attempt info s :
  exists td,
    calls (snd (tryDeleteTaskList R taskListGracePeriod info s)) = calls s ++ td
    /\ idleDeletionAttempt P0 taskListGracePeriod info (fst (db s)) td.
Proof.
  unfold tryDeleteTaskList, idleDeletionAttempt.
  destruct (HasPrefix (Name info) scannerTaskListPrefix) eqn:Epre.
  - exists []. rewrite app_nil_r. split; [reflexivity|].
    split; [reflexivity | discriminate].
  - destruct s as [[w tr0] st lg b m n].
    cbv beta iota zeta delta
      [bind ret call log addTasklistDeleted withStats withDb];
    cbn [recording deleteTaskList timeNow db]; unfold record; cbn [fst snd].
    destruct (timeNow P0 w) as [now w1]. cbn [fst snd].
    destruct (Z.ltb_spec (Time.Sub now (LastUpdated info)) taskListGracePeriod)
      as [Hlt|Hge].
    + exists [CallNow now]. split; [reflexivity|].
      split; [discriminate|]. intros _. split; [reflexivity | lia].
    + cbv beta iota zeta delta
        [bind ret call log addTasklistDeleted withStats withDb];
      cbn [recording deleteTaskList timeNow db]; unfold record; cbn [fst snd].
      destruct (deleteTaskList P0 info w1) as [[e|] w2];
        eexists; (split; [unfold calls; cbn; rewrite <- app_assoc; reflexivity|]);
        (split; [discriminate|]); intros _; (split; [lia | reflexivity]).
Qed.

(** C4: in every invocation of [deleteHandler], a turn whose fetch returns an
    empty batch makes the handler return Done after the attempt to delete
    the queue, which is the whole of its calls after the fetch: for a queue
    that is not the scavenger's own, one reading of the clock, followed by
    the call of [deleteTaskList] for the queue unless less than the grace
    period has passed since [LastUpdated].  A turn whose batch is not empty,
    entirely expired, deleted with success and shorter than the page size
    does the same after the deletion of the batch. *)
Theorem drained_queue_attempts_deletion info s0 l s resp w1 :
  startsTurn R taskListGracePeriod info s0 l s ->
  getTasks R info (taskBatchSizeFn s0) (db s) = (inl resp, w1) ->
  (Tasks resp = [] ->
   fst (deleteHandler R taskListGracePeriod info s0) = handlerStatusDone
   /\ exists td,
        calls (snd (deleteHandler R taskListGracePeriod info s0))
        = calls s ++ CallGetTasks info (taskBatchSizeFn s0) (inl resp) :: td
        /\ idleDeletionAttempt P0 taskListGracePeriod info (fst w1) td)
  /\ (forall n w3,
        Tasks resp <> [] ->
        allExpired (Tasks resp) (readings R (List.length (Tasks resp)) w1) ->
        completeTasks R info (lastTaskID (Tasks resp))
          (Z.of_nat (List.length (Tasks resp)))
          (afterReadings R (List.length (Tasks resp)) w1) = (inl n, w3) ->
        Z.of_nat (List.length (Tasks resp)) < taskBatchSizeFn s0 ->
        fst (deleteHandler R taskListGracePeriod info s0) = handlerStatusDone
        /\ exists td,
             calls (snd (deleteHandler R taskListGracePeriod info s0))
             = calls s
               ++ CallGetTasks info (taskBatchSizeFn s0) (inl resp)
                  :: map CallNow (readings P0 (List.length (Tasks resp)) (fst w1))
                  ++ CallCompleteTasks info (lastTaskID (Tasks resp))
                       (Z.of_nat (List.length (Tasks resp))) (inl n) :: td
             /\ idleDeletionAttempt P0 taskListGracePeriod info (fst w3) td).
Proof.
  intros Hturn Hget. split.
  - intros He.
    rewrite (startsTurn_returns _ _ _ _ _ _ _ _ _ Hturn
               (body_empty _ _ _ _ _ _ _ _ Hget He)).
    cbn [fst snd]. split; [reflexivity|].
    destruct (tryDelete_attempt info (withDb s w1)) as (td & Hcalls & Hatt).
    exists td. split; [|exact Hatt].
    unfold calls at 1. rewrite logged_db. fold (calls (snd (tryDeleteTaskList R
      taskListGracePeriod info (withDb s w1)))).
    rewrite Hcalls. unfold calls at 1. cbn [db withDb].
    rewrite (getTasks_recording _ _ _ _ _ _ Hget), <- app_assoc. reflexivity.
  - intros n w3 Hne Hall Hc Hlt.
    rewrite (startsTurn_returns _ _ _ _ _ _ _ _ _ Hturn
               (body_short _ _ _ _ _ _ _ _ _ _ Hget Hne Hall Hc Hlt)).
    cbn [fst snd]. split; [reflexivity|].
    destruct (tryDelete_attempt info (withDb s w3)) as (td & Hcalls & Hatt).
    exists td. split; [|exact Hatt].
    unfold calls at 1. rewrite logged_db. fold (calls (snd (tryDeleteTaskList R
      taskListGracePeriod info (withDb s w3)))).
    rewrite Hcalls. unfold calls at 1. cbn [db withDb].
    rewrite (completeTasks_recording _ _ _ _ _ _ _ Hc), afterReadings_calls.
    rewrite (getTasks_recording _ _ _ _ _ _ Hget), <- !app_assoc. reflexivity.
Qed.

End IdleAttempt.

(** ** Idle deletion on the in-memory store *)

Lemma lastTaskID_last pre t : lastTaskID (pre ++ [t]) = TaskID t.
Proof.
  unfold lastTaskID. rewrite length_app. cbn [List.length].
  replace (Z.to_nat (Z.of_nat (List.length pre + 1) - 1)) with (List.length pre) by lia.
  rewrite app_nth2 by lia. rewrite Nat.sub_diag. reflexivity.
Qed.

Lemma ordered_last pre t :
  ordered (pre ++ [t]) -> Forall (fun u => TaskID u <= TaskID t) (pre ++ [t]).
Proof.
  unfold ordered. induction pre as [|a pre IH]; cbn; intros H.
  - constructor; [lia | constructor].
  - apply StronglySorted_inv in H. destruct H as [Hs Hall].
    constructor; [|exact (IH Hs)].
    rewrite Forall_forall in Hall. apply Hall. apply in_or_app. right. left.
    reflexivity.
Qed.

Lemma ordered_bound tasks :
  tasks <> [] -> ordered tasks ->
  Forall (fun u => TaskID u <= lastTaskID tasks) tasks.
Proof.
  intros Hne Ho. destruct (exists_last Hne) as (pre & t & ->).
  rewrite lastTaskID_last. apply ordered_last. exact Ho.
Qed.

Lemma ordered_firstn k : forall r, ordered r -> ordered (firstn k r).
Proof.
  unfold ordered. induction k as [|k IH]; intros [|a r] H; cbn; try constructor.
  - apply IH. apply StronglySorted_inv in H. apply H.
  - apply StronglySorted_inv in H. destruct H as [_ Hall].
    rewrite Forall_forall in *. intros x Hx. apply Hall.
    rewrite <- (firstn_skipn k r). apply in_or_app. left. exact Hx.
Qed.

Lemma ordered_skipn k : forall r, ordered r -> ordered (skipn k r).
Proof.
  unfold ordered. induction k as [|k IH]; intros [|a r] H; cbn; try assumption.
  apply IH. apply StronglySorted_inv in H. apply H.
Qed.

Lemma dropUpTo_firstn id k : forall r,
  Forall (fun u => TaskID u <= id) (firstn k r) ->
  MemStore.dropUpTo id (List.length (firstn k r)) r = skipn k r.
Proof.
  induction k as [|k IH]; intros [|a r] H; cbn; try reflexivity.
  cbn in H. apply Forall_cons_iff in H. destruct H as [Ha H].
  apply Z.leb_le in Ha. rewrite Ha. apply IH. exact H.
Qed.

Lemma getTasks_world {W} (P0 : Persistence W) info b x r w1 :
  getTasks (recording P0) info b x = (r, w1) ->
  getTasks P0 info b (fst x) = (r, fst w1).
Proof.
  cbn. unfold record. destruct (getTasks P0 info b (fst x)) as [r' w].
  intros H. injection H as <- <-. reflexivity.
Qed.

Lemma completeTasks_world {W} (P0 : Persistence W) info id n x r w3 :
  completeTasks (recording P0) info id n x = (r, w3) ->
  completeTasks P0 info id n (fst x) = (r, fst w3).
Proof.
  cbn. unfold record. destruct (completeTasks P0 info id n (fst x)) as [r' w].
  intros H. injection H as <- <-. reflexivity.
Qed.

Lemma afterReadings_world {W} (P0 : Persistence W) n x :
  fst (afterReadings (recording P0) n x) = afterReadings P0 n (fst x).
Proof. destruct x. rewrite afterReadings_recording. reflexivity. Qed.

Lemma no_queue_deletion_in_readings nows :
  existsb isQueueDeletion (map CallNow nows) = false.
Proof. induction nows as [|t nows IH]; [reflexivity | exact IH]. Qed.

Section OnMemStore.

Local Abbreviation MP := MemStore.persistence.
Local Abbreviation MR := (recording MemStore.persistence).

Lemma sameQueue_queue info st st' :
  MemStore.queue st' = MemStore.queue st ->
  MemStore.sameQueue info st' = MemStore.sameQueue info st.
Proof. unfold MemStore.sameQueue. intros ->. reflexivity. Qed.

Lemma nextFault_store st :
  MemStore.rows (snd (MemStore.nextFault st)) = MemStore.rows st
  /\ MemStore.queue (snd (MemStore.nextFault st)) = MemStore.queue st.
Proof. unfold MemStore.nextFault. destruct (MemStore.faults st); split; reflexivity. Qed.

Lemma getTasks_page info b st resp st1 :
  MemStore.getTasks info b st = (inl resp, st1) ->
  MemStore.rows st1 = MemStore.rows st /\ MemStore.queue st1 = MemStore.queue st
  /\ Tasks resp = if MemStore.sameQueue info st
                  then firstn (Z.to_nat b) (MemStore.rows st) else [].
Proof.
  unfold MemStore.getTasks. pose proof (nextFault_store st) as [Hr Hq].
  destruct (MemStore.nextFault st) as [[e|] st']; [discriminate|]. cbn [snd] in *.
  intros H. injection H as <- <-. cbn [Tasks].
  rewrite (sameQueue_queue info _ _ Hq), Hr. auto.
Qed.

Lemma readings_store n : forall st,
  MemStore.rows (afterReadings MP n st) = MemStore.rows st
  /\ MemStore.queue (afterReadings MP n st) = MemStore.queue st.
Proof.
  induction n as [|n IH]; intros st; cbn; [auto|].
  destruct (IH (snd (MemStore.timeNow st))) as [Hr Hq].
  cbn in Hr, Hq. rewrite Hr, Hq. auto.
Qed.

Lemma completeTasks_rows info id lim st n st3 :
  MemStore.completeTasks info id lim st = (inl n, st3) ->
  MemStore.queue st3 = MemStore.queue st
  /\ MemStore.rows st3 =
     if MemStore.sameQueue info st
     then MemStore.dropUpTo id (Z.to_nat lim) (MemStore.rows st)
     else MemStore.rows st.
Proof.
  unfold MemStore.completeTasks. pose proof (nextFault_store st) as [Hr Hq].
  destruct (MemStore.nextFault st) as [[e|] st']; [discriminate|]. cbn [snd] in *.
  rewrite (sameQueue_queue info _ _ Hq).
  destruct (MemStore.sameQueue info st); intros H; injection H as _ <-; cbn;
    rewrite ?Hr; auto.
Qed.

Lemma deleteTaskList_rows info st :
  MemStore.rows (snd (MemStore.deleteTaskList info st)) = MemStore.rows st.
Proof.
  unfold MemStore.deleteTaskList. pose proof (nextFault_store st) as [Hr Hq].
  destruct (MemStore.nextFault st) as [[e|] st']; cbn [snd] in *; [exact Hr|].
  destruct (_ && _); cbn; exact Hr.
Qed.

Lemma tryDelete_rows g info s :
  MemStore.rows (fst (db (snd (tryDeleteTaskList MR g info s))))
  = MemStore.rows (fst (db s)).
Proof.
  unfold tryDeleteTaskList.
  destruct (HasPrefix (Name info) scannerTaskListPrefix); [reflexivity|].
  destruct s as [[w tr0] st lg b m n].
  cbv beta iota zeta delta
    [bind ret call log addTasklistDeleted withStats withDb];
  cbn [recording deleteTaskList timeNow db MemStore.persistence]; unfold record;
  cbn [fst snd MemStore.timeNow].
  match goal with |- context [if ?c then _ else _] => destruct c end;
    [reflexivity|].
  cbv beta iota zeta delta
    [bind ret call log addTasklistDeleted withStats withDb];
  cbn [recording deleteTaskList timeNow db MemStore.persistence]; unfold record;
  cbn [fst snd].
  match goal with
  | |- context [MemStore.deleteTaskList info ?x] =>
      pose proof (deleteTaskList_rows info x) as Hr;
      destruct (MemStore.deleteTaskList info x) as [[e|] w2]
  end; cbn in *; exact Hr.
Qed.

(** One turn of the loop on the store: its calls ask for the deletion of
    the queue only in a turn that returns Done and leaves no row; a turn
    that goes on leaves the rows in order. *)
Lemma body_store g info b l s :
  0 < b -> MemStore.sameQueue info (fst (db s)) = true ->
  ordered (MemStore.rows (fst (db s))) ->
  exists tr,
    calls (snd (deleteHandlerBody MR g info b l s)) = calls s ++ tr
    /\ (fst (fst (deleteHandlerBody MR g info b l s)) = None ->
        existsb isQueueDeletion tr = false
        /\ MemStore.sameQueue info
             (fst (db (snd (deleteHandlerBody MR g info b l s)))) = true
        /\ ordered (MemStore.rows (fst (db (snd (deleteHandlerBody MR g info b l s))))))
    /\ (existsb isQueueDeletion tr = true ->
        MemStore.rows (fst (db (snd (deleteHandlerBody MR g info b l s)))) = []).
Proof.
  intros Hb Hsame Hord.
  pose proof (body_cases MR g info b l s) as Hc.
  inversion Hc as [e w1 Hget E | resp w1 Hget He E | resp w1 j Hget Hj Hpre E
                  | resp w1 e w3 Hget Hne Hall Hcpl E
                  | resp w1 n w3 Hget Hne Hall Hcpl Hlt E
                  | resp w1 n w3 Hget Hne Hall Hcpl Hge E];
    clear Hc E; cbn [fst snd];
    pose proof (getTasks_recording _ _ _ _ _ _ Hget) as Hg1;
    apply getTasks_world in Hget;
    try (pose proof (completeTasks_recording _ _ _ _ _ _ _ Hcpl) as Hc1;
         rewrite afterReadings_calls, Hg1 in Hc1;
         apply completeTasks_world in Hcpl; rewrite afterReadings_world in Hcpl).
  - exists [CallGetTasks info b (inr e)].
    split; [unfold calls; cbn [db withDb]; exact Hg1|].
    split; [discriminate | discriminate].
  - destruct (tryDelete_attempt MP g info (withDb s w1)) as (td & Htd & _).
    exists (CallGetTasks info b (inl resp) :: td).
    split; [rewrite Htd; unfold calls at 1; cbn [db withDb]; rewrite Hg1;
            rewrite <- app_assoc; reflexivity|].
    split; [discriminate|]. intros _.
    rewrite tryDelete_rows. cbn [db withDb].
    apply getTasks_page in Hget. destruct Hget as (Hr & _ & Hpage).
    rewrite Hsame, He in Hpage. rewrite Hr.
    destruct (MemStore.rows (fst (db s))) as [|t r]; [reflexivity|].
    destruct (Z.to_nat b) eqn:Ek; [lia | discriminate].
  - exists (CallGetTasks info b (inl resp)
            :: map CallNow (readings MP (readingsUpTo (Tasks resp) j) (fst w1))).
    split; [unfold calls at 1; cbn [db withDb]; rewrite afterReadings_calls, Hg1;
            rewrite <- app_assoc; reflexivity|].
    split; [discriminate|]. cbn [existsb isQueueDeletion orb].
    rewrite no_queue_deletion_in_readings. discriminate.
  - exists (CallGetTasks info b (inl resp)
              :: map CallNow (readings MP (List.length (Tasks resp)) (fst w1))
              ++ [CallCompleteTasks info (lastTaskID (Tasks resp))
                    (Z.of_nat (List.length (Tasks resp))) (inr e)]).
    split; [unfold calls; cbn [db withDb]; rewrite Hc1;
            rewrite <- !app_assoc; reflexivity|].
    split; [discriminate|]. cbn [existsb isQueueDeletion orb].
    rewrite existsb_app, no_queue_deletion_in_readings. discriminate.
  - destruct (tryDelete_attempt MP g info (withDb s w3)) as (td & Htd & _).
    exists (CallGetTasks info b (inl resp)
              :: map CallNow (readings MP (List.length (Tasks resp)) (fst w1))
              ++ CallCompleteTasks info (lastTaskID (Tasks resp))
                   (Z.of_nat (List.length (Tasks resp))) (inl n) :: td).
    split; [rewrite Htd; unfold calls at 1; cbn [db withDb]; rewrite Hc1;
            rewrite <- !app_assoc; reflexivity|].
    split; [discriminate|]. intros _.
    rewrite tryDelete_rows. cbn [db withDb].
    apply getTasks_page in Hget. destruct Hget as (Hr & Hq & Hpage).
    rewrite Hsame in Hpage.
    apply completeTasks_rows in Hcpl. destruct Hcpl as (_ & Hrows).
    destruct (readings_store (List.length (Tasks resp)) (fst w1)) as [Hr2 Hq2].
    rewrite (sameQueue_queue info _ _ (eq_trans Hq2 Hq)), Hsame, Hr2, Hr in Hrows.
    rewrite Hrows, Nat2Z.id, Hpage.
    rewrite dropUpTo_firstn.
    + apply skipn_all2. rewrite Hpage, length_firstn in Hlt. lia.
    + rewrite <- Hpage. apply ordered_bound; [exact Hne|].
      rewrite Hpage. apply ordered_firstn. exact Hord.
  - exists (CallGetTasks info b (inl resp)
              :: map CallNow (readings MP (List.length (Tasks resp)) (fst w1))
              ++ [CallCompleteTasks info (lastTaskID (Tasks resp))
                    (Z.of_nat (List.length (Tasks resp))) (inl n)]).
    split; [unfold calls; cbn [db withDb]; rewrite Hc1;
            rewrite <- !app_assoc; reflexivity|].
    assert (Hno : existsb isQueueDeletion
                    (CallGetTasks info b (inl resp)
                       :: map CallNow (readings MP (List.length (Tasks resp)) (fst w1))
                       ++ [CallCompleteTasks info (lastTaskID (Tasks resp))
                             (Z.of_nat (List.length (Tasks resp))) (inl n)]) = false).
    { cbn [existsb isQueueDeletion orb].
      rewrite existsb_app, no_queue_deletion_in_readings. reflexivity. }
    rewrite Hno. split; [|discriminate]. intros _. split; [reflexivity|].
    cbn [db withDb].
    apply getTasks_page in Hget. destruct Hget as (Hr & Hq & Hpage).
    rewrite Hsame in Hpage.
    apply completeTasks_rows in Hcpl. destruct Hcpl as (Hq3 & Hrows).
    destruct (readings_store (List.length (Tasks resp)) (fst w1)) as [Hr2 Hq2].
    rewrite (sameQueue_queue info _ _ (eq_trans Hq2 Hq)), Hsame, Hr2, Hr in Hrows.
    split.
    + rewrite (sameQueue_queue info (fst (db s)) (fst w3)); [exact Hsame|].
      rewrite Hq3, Hq2. exact Hq.
    + rewrite Hrows, Nat2Z.id, Hpage. rewrite dropUpTo_firstn.
      * apply ordered_skipn. exact Hord.
      * rewrite <- Hpage. apply ordered_bound; [exact Hne|].
        rewrite Hpage. apply ordered_firstn. exact Hord.
Qed.

Lemma loop_store g info b m l s :
  0 < b -> MemStore.sameQueue info (fst (db s)) = true ->
  ordered (MemStore.rows (fst (db s))) ->
  exists tr,
    calls (snd (deleteLoop MR g info b m l s)) = calls s ++ tr
    /\ (existsb isQueueDeletion tr = true ->
        MemStore.rows (fst (db (snd (deleteLoop MR g info b m l s)))) = []).
Proof.
  intros Hb. revert l s.
  apply (loop_ind MR g info b m
    (fun l s r =>
       MemStore.sameQueue info (fst (db s)) = true ->
       ordered (MemStore.rows (fst (db s))) ->
       exists tr,
         calls (snd r) = calls s ++ tr
         /\ (existsb isQueueDeletion tr = true ->
             MemStore.rows (fst (db (snd r))) = []))).
  - intros l0 s0 _ _ _. exists []. cbn [snd]. rewrite app_nil_r.
    split; [reflexivity | discriminate].
  - intros l0 s0 st l' s' _ Hbody Hsame Hord.
    destruct (body_store g info b l0 s0 Hb Hsame Hord) as (tr & Hc & _ & Hdel).
    rewrite Hbody in *. cbn [fst snd] in *. exists tr. auto.
  - intros l0 s0 l' s' _ Hbody IH Hsame Hord.
    destruct (body_store g info b l0 s0 Hb Hsame Hord) as (tr1 & Hc1 & Hon & _).
    rewrite Hbody in *. cbn [fst snd] in *.
    destruct (Hon eq_refl) as (Hno & Hsame' & Hord').
    destruct (IH Hsame' Hord') as (tr2 & Hc2 & Hdel).
    exists (tr1 ++ tr2). split; [rewrite Hc2, Hc1, app_assoc; reflexivity|].
    rewrite existsb_app, Hno. exact Hdel.
Qed.

(** C2: on the store that follows the contract of the persistence, holding
    the rows of the queue in the order of their taskIDs, and with a page size
    above zero, [deleteHandler] asks for the deletion of a queue only when the
    queue has no row left: the store holds none after the run, and the
    deletion, which is the last call, leaves the rows as they were at the
    call.  On any persistence the deletion is for the handler's queue, whose
    name does not start with the scanner prefix; the call before it is the
    reading of the clock, at least the grace period after [LastUpdated]; and
    before that the handler saw the queue drained.  When the name has the
    prefix [tryDeleteTaskList] does nothing at all, and when the queue was
    updated within the grace period it only reads the clock.  The other
    handler, [completeOrphanTasksHandler], never deletes a queue. *)
Theorem idle_queue_deleted_only_when_empty :
  (forall g info s0 pre i r post,
      0 < taskBatchSizeFn s0 ->
      MemStore.sameQueue info (fst (db s0)) = true ->
      ordered (MemStore.rows (fst (db s0))) ->
      calls (snd (deleteHandler MR g info s0)) =
        calls s0 ++ pre ++ CallDeleteTaskList i r :: post ->
      MemStore.rows (fst (db (snd (deleteHandler MR g info s0)))) = []
      /\ post = [])
  /\ (forall info st,
        MemStore.rows (snd (MemStore.deleteTaskList info st)) = MemStore.rows st)
  /\ (forall W (P0 : Persistence W) g info s0 pre i r post,
        calls (snd (deleteHandler (recording P0) g info s0)) =
          calls s0 ++ pre ++ CallDeleteTaskList i r :: post ->
        i = info /\ post = []
        /\ HasPrefix (Name info) scannerTaskListPrefix = false
        /\ exists pre' now,
             pre = pre' ++ [CallNow now]
             /\ g <= Time.Sub now (LastUpdated info)
             /\ observedDrained info (taskBatchSizeFn s0) pre')
  /\ (forall W (P0 : Persistence W) g info s,
        HasPrefix (Name info) scannerTaskListPrefix = true ->
        tryDeleteTaskList (recording P0) g info s = (tt, s))
  /\ (forall W (P0 : Persistence W) g info s now w,
        HasPrefix (Name info) scannerTaskListPrefix = false ->
        timeNow (recording P0) (db s) = (now, w) ->
        Time.Sub now (LastUpdated info) < g ->
        tryDeleteTaskList (recording P0) g info s = (tt, withDb s w))
  /\ (forall W (P0 : Persistence W) s tr i r,
        calls (snd (completeOrphanTasksHandler (recording P0) s)) = calls s ++ tr ->
        ~ In (CallDeleteTaskList i r) tr).
Proof.
  split; [|split; [|split; [|split; [|split]]]].
  - intros g info s0 pre i r post Hb Hsame Hord E.
    destruct (deleteHandler_calls MP g info s0) as (tr & Htr & Hshape).
    pose proof E as E'. rewrite Htr in E'. apply app_inv_head in E'.
    destruct (RunCalls_guarded _ _ _ _ _ Hshape _ _ _ _ E') as (_ & Hpost & _).
    split; [|exact Hpost].
    destruct (loop_store g info (taskBatchSizeFn s0) (maxTasksPerJobFn s0)
                (mkLocals None 0 0) s0 Hb Hsame Hord) as (tr' & Hc & Hdel).
    rewrite deleteHandler_eq in E |- *.
    destruct (deleteLoop _ _ _ _ _ _ _) as [[st l] s1]. cbn [fst snd] in *.
    rewrite logged_db. unfold calls in E. rewrite logged_db in E.
    fold (calls s1) in E. rewrite Hc in E. apply app_inv_head in E. subst tr'.
    apply Hdel. rewrite existsb_app. cbn. apply orb_true_r.
  - apply deleteTaskList_rows.
  - intros W P0 g info s0 pre i r post E.
    destruct (deleteHandler_calls P0 g info s0) as (tr & Htr & Hshape).
    rewrite Htr in E. apply app_inv_head in E.
    exact (RunCalls_guarded _ _ _ _ _ Hshape _ _ _ _ E).
  - intros W P0 g info s Hp. unfold tryDeleteTaskList. rewrite Hp. reflexivity.
  - intros W P0 g info s now w Hp Hnow Hg. unfold tryDeleteTaskList. rewrite Hp.
    mred. rewrite Hnow. apply Z.ltb_lt in Hg. rewrite Hg. reflexivity.
  - intros W P0 s tr i r Hcalls Hin.
    destruct (completeOrphanTasksHandler_orphan_calls P0 s) as (tr' & Htr & Hall).
    rewrite Htr in Hcalls. apply app_inv_head in Hcalls. subst tr'.
    rewrite Forall_forall in Hall. specialize (Hall _ Hin). discriminate.
Qed.

End OnMemStore.

(** * The further properties on concrete runs *)

Module RunExamples.

Import Scenario Runs.

Lemma failing_run :
  calls (snd (deleteHandler R grace tq failingQueueR))
  = calls failingQueueR ++ failingCalls.
Proof. reflexivity. Qed.

Lemma short_run :
  calls (snd (deleteHandler R grace tq shortQueueR)) = calls shortQueueR ++ shortCalls.
Proof. reflexivity. Qed.

Lemma orphan_failing_run :
  calls (snd (completeOrphanTasksHandler R orphansFailing))
  = calls orphansFailing ++ orphanFailingCalls.
Proof. reflexivity. Qed.

Lemma defer_spent_witness :
  fst (deleteHandler P grace tq tightQueue) = handlerStatusDefer
  /\ deletedBy P grace tq tightQueue = processedBy P grace tq tightQueue
  /\ maxTasksPerJobFn tightQueue <= deletedBy P grace tq tightQueue.
Proof.
  assert (H : fst (deleteHandler P grace tq tightQueue) = handlerStatusDefer)
    by reflexivity.
  split; [exact H|].
  exact (proj2 (defer_only_after_budget_spent P grace tq tightQueue) H).
Defined.

Lemma no_budget_witness :
  maxTasksPerJobFn zeroQueue <= 0
  /\ fst (deleteHandler P grace tq zeroQueue) = handlerStatusDefer
  /\ snd (deleteHandler P grace tq zeroQueue) = zeroQueue.
Proof.
  assert (Hm : maxTasksPerJobFn zeroQueue <= 0) by (cbn; lia).
  destruct (no_budget_no_work P grace tq zeroQueue Hm) as (H1 & _ & _ & H4).
  split; [exact Hm|]. split; [exact H1|].
  apply H4; unfold inInt64; cbn; lia.
Defined.

Lemma failed_call_witness :
  calls (snd (deleteHandler R grace tq failingQueueR))
  = calls failingQueueR ++ failingCalls
  /\ fst (deleteHandler R grace tq failingQueueR) = handlerStatusErr.
Proof.
  split; [exact failing_run|].
  exact (proj2 (proj1 (failed_call_ends_run P grace tq failingQueueR failingCalls
                         failing_run)
                  [CallGetTasks tq 100 (inl (mkGetTasksResponse failingRows));
                   CallNow (200 * hour); CallNow (200 * hour + 1)]
                  (CallCompleteTasks tq 2 2 (inr (ErrOther "timeout"))) []
                  (ErrOther "timeout") eq_refl eq_refl eq_refl)).
Defined.

Lemma queue_deletion_witness :
  calls (snd (deleteHandler R grace tq shortQueueR)) = calls shortQueueR ++ shortCalls
  /\ In (CallDeleteTaskList tq None) shortCalls
  /\ fst (deleteHandler R grace tq shortQueueR) = handlerStatusDone.
Proof.
  assert (Hin : In (CallDeleteTaskList tq None) shortCalls)
    by (do 6 right; left; reflexivity).
  split; [exact short_run|]. split; [exact Hin|].
  exact (proj1 (queue_deletion_only_in_done_run P grace tq shortQueueR shortCalls
                  tq None short_run Hin)).
Defined.

Lemma justified_witness :
  calls (snd (deleteHandler R grace tq shortQueueR)) = calls shortQueueR ++ shortCalls
  /\ deletionJustified tq 100 shortCalls.
Proof.
  split; [exact short_run|].
  exact (batch_deletions_justified P grace tq shortQueueR shortCalls short_run).
Defined.

Lemma fetches_witness :
  calls (snd (deleteHandler R grace tq shortQueueR)) = calls shortQueueR ++ shortCalls
  /\ (List.length (filter isFetch shortCalls) <= Z.to_nat 100)%nat.
Proof.
  split; [exact short_run|].
  exact (fetches_within_budget P grace tq shortQueueR shortCalls short_run).
Defined.

Lemma statistics_witness :
  calls (snd (deleteHandler R grace tq shortQueueR)) = calls shortQueueR ++ shortCalls
  /\ stats (snd (deleteHandler R grace tq shortQueueR)) = mkStats 1 3 3.
Proof.
  split; [exact short_run|].
  exact (eq_trans
           (deleteHandler_statistics P grace tq shortQueueR shortCalls short_run)
           eq_refl).
Defined.

Lemma orphan_page_witness :
  calls (snd (completeOrphanTasksHandler R orphansFailing))
  = calls orphansFailing ++ orphanFailingCalls
  /\ exists r rest,
       orphanFailingCalls = CallGetOrphanTasks 10 r :: rest
       /\ match r with
          | inr _ => rest = []
          | inl resp =>
              rest = map (fun k => orphanCall k None) (OrphanTasks resp)
              \/ (exists j k e,
                    nth_error (OrphanTasks resp) j = Some k
                    /\ rest = map (fun k => orphanCall k None)
                                (firstn j (OrphanTasks resp))
                              ++ [orphanCall k (Some e)])
          end.
Proof.
  split; [exact orphan_failing_run|].
  exact (orphan_calls_follow_page P orphansFailing orphanFailingCalls
           orphan_failing_run).
Defined.

Lemma orphan_statistics_witness :
  (inInt64 (task_nDeleted (stats orphansFailing))
   /\ inInt64 (task_nProcessed (stats orphansFailing))
   /\ calls (snd (completeOrphanTasksHandler R orphansFailing))
      = calls orphansFailing ++ orphanFailingCalls)
  /\ stats (snd (completeOrphanTasksHandler R orphansFailing)) = mkStats 0 1 1.
Proof.
  assert (H0 : inInt64 0) by (unfold inInt64; lia).
  split; [split; [exact H0 | split; [exact H0 | exact orphan_failing_run]]|].
  exact (eq_trans
           (orphan_handler_statistics P orphansFailing orphanFailingCalls H0 H0
              orphan_failing_run)
           eq_refl).
Defined.

Lemma orphan_log_witness :
  calls (snd (completeOrphanTasksHandler R orphansFailing))
  = calls orphansFailing ++ orphanFailingCalls
  /\ exists ln,
       logger (snd (completeOrphanTasksHandler R orphansFailing))
       = logger orphansFailing ++ [ln]
       /\ ln = orphanFailureLine (ErrOther "timeout").
Proof.
  split; [exact orphan_failing_run|].
  destruct (orphan_handler_log P orphansFailing orphanFailingCalls orphan_failing_run)
    as (ln & Hlg & Hfail & _).
  exists ln. split; [exact Hlg|].
  apply (Hfail (orphanCall (orphan 2) (Some (ErrOther "timeout")))).
  - right. right. left. reflexivity.
  - reflexivity.
Defined.

Lemma deleted_count_witness :
  calls (snd (deleteHandler R grace tq shortQueueR)) = calls shortQueueR ++ shortCalls
  /\ deletedBy R grace tq shortQueueR = 3.
Proof.
  split; [exact short_run|].
  exact (eq_trans
           (deleted_count_is_batch_sizes P grace tq shortQueueR shortCalls short_run)
           eq_refl).
Defined.

Lemma grace_witness :
  (Time.minDuration < grace <= Time.maxDuration
   /\ HasPrefix (Name tq) scannerTaskListPrefix = false
   /\ calls (snd (tryDeleteTaskList R grace tq emptyQueueR))
      = calls emptyQueueR ++ idleCalls)
  /\ exists rest r,
       idleCalls = CallNow (200 * hour) :: rest
       /\ rest = [CallDeleteTaskList tq r].
Proof.
  assert (Hg : Time.minDuration < grace <= Time.maxDuration)
    by (unfold Time.minDuration, Time.maxDuration, grace, hour; lia).
  assert (Hp : HasPrefix (Name tq) scannerTaskListPrefix = false) by reflexivity.
  assert (Hc : calls (snd (tryDeleteTaskList R grace tq emptyQueueR))
               = calls emptyQueueR ++ idleCalls) by reflexivity.
  split; [split; [exact Hg | split; [exact Hp | exact Hc]]|].
  destruct (grace_period_is_exact P grace tq emptyQueueR idleCalls Hg Hp Hc)
    as (rest & Hrest & _ & Hdel).
  destruct Hdel as (r & Hr); [cbn; unfold grace, hour; lia|].
  exists rest, r. split; [exact Hrest | exact Hr].
Defined.

Lemma drained_attempt_witness :
  (startsTurn R grace tq emptyQueueR start emptyQueueR
   /\ getTasks R tq 100 (db emptyQueueR)
      = (inl (mkGetTasksResponse []), snd (getTasks R tq 100 (db emptyQueueR)))
   /\ fst (deleteHandler R grace tq emptyQueueR) = handlerStatusDone
   /\ calls (snd (deleteHandler R grace tq emptyQueueR)) = emptyCalls)
  /\ (startsTurn R grace tq shortQueueR start shortQueueR
      /\ getTasks R tq 100 (db shortQueueR)
         = (inl (mkGetTasksResponse shortRows),
            snd (getTasks R tq 100 (db shortQueueR)))
      /\ fst (deleteHandler R grace tq shortQueueR) = handlerStatusDone
      /\ calls (snd (deleteHandler R grace tq shortQueueR)) = shortCalls).
Proof.
  split.
  - assert (Hturn := Examples.first_turn R grace tq emptyQueueR eq_refl).
    assert (Hget : getTasks R tq 100 (db emptyQueueR)
                   = (inl (mkGetTasksResponse []),
                      snd (getTasks R tq 100 (db emptyQueueR)))) by reflexivity.
    destruct (proj1 (drained_queue_attempts_deletion P grace tq emptyQueueR start
                       emptyQueueR _ _ Hturn Hget) eq_refl)
      as (Hst & td & Hcalls & _ & Hatt).
    destruct (Hatt eq_refl) as [_ Hdel].
    split; [exact Hturn|]. split; [exact Hget|]. split; [exact Hst|].
    etransitivity; [exact Hcalls|].
    rewrite Hdel; [reflexivity | vm_compute; discriminate].
  - assert (Hturn := Examples.first_turn R grace tq shortQueueR eq_refl).
    assert (Hget : getTasks R tq 100 (db shortQueueR)
                   = (inl (mkGetTasksResponse shortRows),
                      snd (getTasks R tq 100 (db shortQueueR)))) by reflexivity.
    edestruct (proj2 (drained_queue_attempts_deletion P grace tq shortQueueR start
                        shortQueueR _ _ Hturn Hget))
      as (Hst & td & Hcalls & _ & Hatt);
      [discriminate | repeat constructor | reflexivity | reflexivity |].
    destruct (Hatt eq_refl) as [_ Hdel].
    split; [exact Hturn|]. split; [exact Hget|]. split; [exact Hst|].
    etransitivity; [exact Hcalls|].
    rewrite Hdel; [reflexivity | vm_compute; discriminate].
Defined.

Lemma idle_deletion_witness :
  (0 < taskBatchSizeFn shortQueueR
   /\ MemStore.sameQueue tq (fst (db shortQueueR)) = true
   /\ ordered (MemStore.rows (fst (db shortQueueR)))
   /\ calls (snd (deleteHandler R grace tq shortQueueR)) =
      calls shortQueueR
        ++ [CallGetTasks tq 100 (inl (mkGetTasksResponse shortRows));
            CallNow (200 * hour); CallNow (200 * hour + 1);
            CallNow (200 * hour + 2); CallCompleteTasks tq 3 3 (inl 3);
            CallNow (200 * hour + 3)]
        ++ CallDeleteTaskList tq None :: [])
  /\ MemStore.rows (fst (db (snd (deleteHandler R grace tq shortQueueR)))) = []
  /\ (HasPrefix (Name own) scannerTaskListPrefix = true
      /\ tryDeleteTaskList R grace own emptyQueueR = (tt, emptyQueueR))
  /\ (HasPrefix (Name recent) scannerTaskListPrefix = false
      /\ Time.Sub (200 * hour) (LastUpdated recent) < grace
      /\ tryDeleteTaskList R grace recent emptyQueueR =
         (tt, withDb emptyQueueR (snd (timeNow R (db emptyQueueR))))).
Proof.
  destruct idle_queue_deleted_only_when_empty
    as (Hempty & _ & _ & Hown & Hrecent & _).
  assert (Hb : 0 < taskBatchSizeFn shortQueueR) by reflexivity.
  assert (Hsame : MemStore.sameQueue tq (fst (db shortQueueR)) = true)
    by reflexivity.
  assert (Hord : ordered (MemStore.rows (fst (db shortQueueR)))).
  { unfold ordered. repeat constructor; discriminate. }
  assert (Hcalls : calls (snd (deleteHandler R grace tq shortQueueR)) =
            calls shortQueueR
              ++ [CallGetTasks tq 100 (inl (mkGetTasksResponse shortRows));
                  CallNow (200 * hour); CallNow (200 * hour + 1);
                  CallNow (200 * hour + 2); CallCompleteTasks tq 3 3 (inl 3);
                  CallNow (200 * hour + 3)]
              ++ CallDeleteTaskList tq None :: []) by reflexivity.
  split; [split; [exact Hb | split; [exact Hsame | split; [exact Hord | exact Hcalls]]]|].
  split; [exact (proj1 (Hempty grace tq shortQueueR _ _ _ _ Hb Hsame Hord Hcalls))|].
  split.
  - assert (Hp : HasPrefix (Name own) scannerTaskListPrefix = true) by reflexivity.
    split; [exact Hp | exact (Hown _ P grace own emptyQueueR Hp)].
  - assert (Hp : HasPrefix (Name recent) scannerTaskListPrefix = false)
      by reflexivity.
    assert (Hg : Time.Sub (200 * hour) (LastUpdated recent) < grace)
      by reflexivity.
    split; [exact Hp|]. split; [exact Hg|].
    exact (Hrecent _ P grace recent emptyQueueR (200 * hour) _ Hp eq_refl Hg).
Defined.

(** C2 as stated fails: with a page size of zero the fetch returns an empty
    page from a queue that holds a task not yet expired and an expired one;
    the handler takes the queue for drained and its deletion succeeds, with
    both tasks still stored.  The queue is the store's, its rows are in
    order, it is not the scavenger's own and it has been idle for longer
    than the grace period. *)
Lemma queue_deleted_with_tasks_left :
  MemStore.sameQueue tq (fst (db zeroPageQueueR)) = true
  /\ ordered (MemStore.rows (fst (db zeroPageQueueR)))
  /\ calls (snd (deleteHandler R grace tq zeroPageQueueR))
     = calls zeroPageQueueR ++ zeroPageCalls
  /\ MemStore.present (fst (db (snd (deleteHandler R grace tq zeroPageQueueR))))
     = false
  /\ MemStore.rows (fst (db (snd (deleteHandler R grace tq zeroPageQueueR))))
     = zeroPageRows
  /\ MemStore.rows (fst (db (snd (deleteHandler R grace tq zeroPageQueueR)))) <> [].
Proof.
  split; [reflexivity|].
  split; [unfold ordered; repeat constructor; discriminate|].
  split; [reflexivity|]. split; [reflexivity|]. split; [reflexivity|].
  discriminate.
Qed.

(** C6: [deleteHandler] does not map the rate-limit error to Defer.  A fetch
    that fails with [ErrPersistenceLimitExceeded] makes it return Err, and so
    does a deletion of a batch that fails with it, whereas
    [completeOrphanTasksHandler], the other handler of the scavenger, returns
    Defer when its query fails with the same error. *)
Theorem rate_limit_not_deferred_by_deleteHandler :
  (fst (getTasks P tq 100 (db limitedQueue)) = inr ErrPersistenceLimitExceeded
   /\ fst (deleteHandler P grace tq limitedQueue) = handlerStatusErr)
  /\ (fst (completeTasks P tq 2 2
             (afterReadings P 2 (snd (getTasks P tq 100 (db limitedDeletion)))))
      = inr ErrPersistenceLimitExceeded
      /\ fst (deleteHandler P grace tq limitedDeletion) = handlerStatusErr)
  /\ (fst (getOrphanTasks P 10 (db limitedOrphanQuery))
      = inr ErrPersistenceLimitExceeded
      /\ fst (completeOrphanTasksHandler P limitedOrphanQuery)
         = handlerStatusDefer).
Proof. repeat split; reflexivity. Qed.

End RunExamples.
